(** * RisWidget image-statistics kernels: a shallow embedding

    This development embeds the scan kernels of
    [src/ris_widget/histogram/_histogram_src.c] (min/max and histogram passes
    over strided 2-D images, with and without a per-row span mask) and the
    argument validation of the Python entry points of
    [src/ris_widget/ndimage_statistics/_ndimage_statistics_module.cpp], and
    proves properties of them.

    Modelling conventions.
    - A C unsigned integer of width [w] is a [Z] in [[0, 2^w)]; arithmetic that
      the C code performs in [uint32_t] is wrapped with [u32].
    - Memory is a flat, byte-addressed, little-endian address space
      [Z -> Z]; pointers are addresses in [Z] (64-bit pointers, no pointer
      wrap-around).  Loads are unchecked, as in C.
    - A histogram buffer is a [list Z] of 32-bit counters; a store outside the
      buffer is undefined behaviour in C and is the outcome [OutOfBounds] here.
    - A [float] is an IEEE-754 binary32 value, a [spec_float] operated on at
      precision 24 and maximal exponent 128 (single-precision evaluation of
      every float expression).
    - The pointer loops [for (p = a; p != b; p += s)] are written as they are,
      with a bound on the number of iterations; reaching the bound is the
      outcome [OutOfFuel] (the C loop would run past its end pointer).
    - The arrays [starts] and [ends] of a span mask are lists, read with
      [nth i _ 0].  The masked kernels read [*starts] before their loops: for
      the arrays of a mask of at least one row that is the first element; on
      an empty list, where the C code reads past the array, the embedding
      reads column 0.  What is proved of the seed of a masked kernel is meant
      for masks of at least one row. *)

From Stdlib Require Import ZArith List Bool Lia Permutation.
From Stdlib Require Import Floats.SpecFloat.
From Stdlib Require String.
Import ListNotations.
Local Open Scope Z_scope.

(** ** Machine integers *)

Definition u8 (x : Z) : Z := x mod 2 ^ 8.
Definition u16 (x : Z) : Z := x mod 2 ^ 16.
Definition u32 (x : Z) : Z := x mod 2 ^ 32.

(** ** Outcomes of a kernel run *)

Inductive outcome (A : Type) : Type :=
| Done (a : A)
| OutOfBounds
| BadCast
| OutOfFuel.

Arguments Done {A} a.
Arguments OutOfBounds {A}.
Arguments BadCast {A}.
Arguments OutOfFuel {A}.

Definition bind {A B : Type} (c : outcome A) (k : A -> outcome B) : outcome B :=
  match c with
  | Done a => k a
  | OutOfBounds => OutOfBounds
  | BadCast => BadCast
  | OutOfFuel => OutOfFuel
  end.

Notation "x <- c ;; k" := (bind c (fun x => k))
  (at level 61, c at next level, right associativity).

(** ** Memory and typed loads *)

Definition memory := Z -> Z.

(** [*(uint8_t * ) p] *)
Definition load_u8 (mem : memory) (p : Z) : Z := u8 (mem p).

(** [*(uint16_t * ) p], little endian *)
Definition load_u16 (mem : memory) (p : Z) : Z :=
  load_u8 mem p + 2 ^ 8 * load_u8 mem (p + 1).

Definition load_u32 (mem : memory) (p : Z) : Z :=
  load_u16 mem p + 2 ^ 16 * load_u16 mem (p + 2).

(** A memory holding the given bytes from address 0 on, zero elsewhere. *)
Definition mem_of_bytes (bytes : list Z) : memory :=
  fun p => if p <? 0 then 0 else nth (Z.to_nat p) bytes 0.

(** ** Single-precision floats *)

Module F32.

Definition prec : Z := 24.
Definition emax : Z := 128.

(** Decoding of an IEEE-754 binary32 bit pattern. *)
Definition of_bits (b : Z) : spec_float :=
  let s := Z.testbit b 31 in
  let e := (b / 2 ^ 23) mod 2 ^ 8 in
  let m := b mod 2 ^ 23 in
  if e =? 0 then
    match m with
    | Zpos p => S754_finite s p (-149)
    | _ => S754_zero s
    end
  else if e =? 255 then
    match m with
    | Z0 => S754_infinity s
    | _ => S754_nan
    end
  else
    match m + 2 ^ 23 with
    | Zpos p => S754_finite s p (e - 150)
    | _ => S754_nan
    end.

(** Conversion of a C integer to [float]. *)
Definition of_Z (n : Z) : spec_float := binary_normalize prec emax n 0 false.

Definition sub : spec_float -> spec_float -> spec_float := SFsub prec emax.
Definition mul : spec_float -> spec_float -> spec_float := SFmul prec emax.
Definition div : spec_float -> spec_float -> spec_float := SFdiv prec emax.

(** The C comparison operators on floats: false whenever an operand is a
    NaN. *)
Definition lt (x y : spec_float) : bool := SFltb x y.
Definition gt (x y : spec_float) : bool :=
  match SFcompare x y with Some Gt => true | _ => false end.
Definition ge (x y : spec_float) : bool :=
  match SFcompare x y with Some (Gt | Eq) => true | _ => false end.
Definition eq (x y : spec_float) : bool := SFeqb x y.

Definition is_nan (x : spec_float) : bool :=
  match x with S754_nan => true | _ => false end.

(** Magnitude of a finite float truncated toward zero. *)
Definition trunc_mag (m : positive) (e : Z) : Z :=
  if 0 <=? e then Z.shiftl (Zpos m) e else Z.shiftr (Zpos m) (- e).

(** The cast [(uint16_t) x]: truncation toward zero; undefined in C when the
    truncated value is not representable in [uint16_t]. *)
Definition to_u16 (x : spec_float) : outcome Z :=
  match x with
  | S754_zero _ => Done 0
  | S754_finite s m e =>
      let t := trunc_mag m e in
      if s then (if t =? 0 then Done 0 else BadCast)
      else if t <? 2 ^ 16 then Done t else BadCast
  | _ => BadCast
  end.

End F32.

(** [*(float * ) p] *)
Definition load_f32 (mem : memory) (p : Z) : spec_float :=
  F32.of_bits (load_u32 mem p).

(** ** Histogram buffers *)

(** [histogram[i]++] on a buffer of 32-bit counters. *)
Fixpoint bump (h : list Z) (i : nat) : list Z :=
  match h, i with
  | [], _ => []
  | c :: t, O => u32 (c + 1) :: t
  | c :: t, S j => c :: bump t j
  end.

Definition incr_bin (h : list Z) (i : Z) : outcome (list Z) :=
  if (0 <=? i) && (i <? Z.of_nat (length h)) then Done (bump h (Z.to_nat i))
  else OutOfBounds.

Definition bin_total (h : list Z) : Z := fold_right Z.add 0 h.

Definition zeroed (n : nat) : list Z := repeat 0 n.

(** ** The pointer loops *)

(** No row or column count exceeds [65535] (they are [uint16_t]), so a loop
    that has not met its end pointer after [65536] steps never will. *)
Definition max_iter : nat := Z.to_nat (2 ^ 16).

Arguments max_iter : simpl never.

(** [for (p = p0; p != stop; p += stride) s = body p s;] *)
Fixpoint ptr_loop {St : Type} (fuel : nat) (p stop stride : Z)
    (body : Z -> St -> outcome St) (s : St) : outcome St :=
  if p =? stop then Done s
  else match fuel with
       | O => OutOfFuel
       | S fuel' =>
           s' <- body p s ;;
           ptr_loop fuel' (p + stride) stop stride body s'
       end.

(** The loop nest shared by the unmasked kernels. *)
Definition scan {St : Type} (image rows cols r_stride c_stride : Z)
    (body : Z -> St -> outcome St) (s : St) : outcome St :=
  ptr_loop max_iter image (image + u32 (rows * r_stride)) r_stride
    (fun row_start st =>
       ptr_loop max_iter row_start (row_start + u32 (cols * c_stride)) c_stride
         body st)
    s.

(** The loop nest shared by the masked kernels; the cursor [i] stands for the
    pointers [starts] and [ends], advanced together once per row.  A read
    [nth i starts 0] is the C read [starts[i]] for [i] within the array; the
    embedding is faithful for arrays of at least [rows] elements, and of at
    least one element for the seed read [*starts] of the kernels below. *)
Definition masked_scan {St : Type} (image rows cols r_stride c_stride : Z)
    (starts ends : list Z) (body : Z -> St -> outcome St) (s : St) : outcome St :=
  r <- ptr_loop max_iter image (image + u32 (rows * r_stride)) r_stride
         (fun row_start (st : nat * St) =>
            let (i, s0) := st in
            s1 <- ptr_loop max_iter
                    (row_start + u32 (nth i starts 0 * c_stride))
                    (row_start + u32 (nth i ends 0 * c_stride))
                    c_stride body s0 ;;
            Done (S i, s1))
         (O, s) ;;
  Done (snd r).

(** ** The kernels of [_histogram_src.c] *)

(** The update of the working minimum and maximum, the same text in every
    kernel:
    [if (val < working_min) working_min = val;
     else if (val > working_max) working_max = val;] *)
Definition minmax_step {T : Type} (ltb gtb : T -> T -> bool) (val : T)
    (mm : T * T) : T * T :=
  let (working_min, working_max) := mm in
  if ltb val working_min then (val, working_max)
  else if gtb val working_max then (working_min, val)
  else (working_min, working_max).

(** State of the integer kernels: the histogram and the working (min, max). *)
Definition hist_state : Type := list Z * (Z * Z).

(** *** 8-bit kernels *)

Definition hist_uint8_pixel (mem : memory) (pixel : Z) (st : hist_state)
    : outcome hist_state :=
  let (histogram, mm) := st in
  let val := load_u8 mem pixel in
  histogram' <- incr_bin histogram val ;;
  Done (histogram', minmax_step Z.ltb Z.gtb val mm).

Definition ranged_hist_uint8_pixel (mem : memory) (hist_min hist_max : Z)
    (pixel : Z) (st : hist_state) : outcome hist_state :=
  let (histogram, mm) := st in
  let val := load_u8 mem pixel in
  histogram' <- (if (val >=? hist_min) && (val <=? hist_max)
                 then incr_bin histogram (val - hist_min)
                 else Done histogram) ;;
  Done (histogram', minmax_step Z.ltb Z.gtb val mm).

Definition hist_uint8 (mem : memory) (image rows cols r_stride c_stride : Z)
    (histogram : list Z) : outcome hist_state :=
  let working_min := load_u8 mem image in
  let working_max := load_u8 mem image in
  scan image rows cols r_stride c_stride (hist_uint8_pixel mem)
    (histogram, (working_min, working_max)).

Definition ranged_hist_uint8 (mem : memory)
    (image rows cols r_stride c_stride : Z) (histogram : list Z)
    (hist_min hist_max : Z) : outcome hist_state :=
  let working_min := load_u8 mem image in
  let working_max := load_u8 mem image in
  scan image rows cols r_stride c_stride
    (ranged_hist_uint8_pixel mem hist_min hist_max)
    (histogram, (working_min, working_max)).

Definition masked_hist_uint8 (mem : memory)
    (image rows cols r_stride c_stride : Z) (starts ends : list Z)
    (histogram : list Z) : outcome hist_state :=
  let working_min := load_u8 mem (image + u32 (nth 0 starts 0 * c_stride)) in
  let working_max := working_min in
  masked_scan image rows cols r_stride c_stride starts ends
    (hist_uint8_pixel mem) (histogram, (working_min, working_max)).

Definition masked_ranged_hist_uint8 (mem : memory)
    (image rows cols r_stride c_stride : Z) (starts ends : list Z)
    (histogram : list Z) (hist_min hist_max : Z) : outcome hist_state :=
  let working_min := load_u8 mem (image + u32 (nth 0 starts 0 * c_stride)) in
  let working_max := working_min in
  masked_scan image rows cols r_stride c_stride starts ends
    (ranged_hist_uint8_pixel mem hist_min hist_max)
    (histogram, (working_min, working_max)).

(** *** 16-bit kernels *)

Definition hist_uint16_pixel (mem : memory) (shift : Z) (pixel : Z)
    (st : hist_state) : outcome hist_state :=
  let (histogram, mm) := st in
  let val := load_u16 mem pixel in
  histogram' <- incr_bin histogram (Z.shiftr val shift) ;;
  Done (histogram', minmax_step Z.ltb Z.gtb val mm).

(** [(uint16_t) (bin_factor * (val - hist_min))]: the difference is an [int],
    converted to [float] for the product. *)
Definition ranged_bin_uint16 (bin_factor : spec_float) (hist_min val : Z)
    : outcome Z :=
  F32.to_u16 (F32.mul bin_factor (F32.of_Z (val - hist_min))).

Definition ranged_hist_uint16_pixel (mem : memory) (bin_factor : spec_float)
    (last_bin hist_min hist_max : Z) (pixel : Z) (st : hist_state)
    : outcome hist_state :=
  let (histogram, mm) := st in
  let val := load_u16 mem pixel in
  histogram' <- (if (val >=? hist_min) && (val <? hist_max)
                 then i <- ranged_bin_uint16 bin_factor hist_min val ;;
                      incr_bin histogram i
                 else if val =? hist_max then incr_bin histogram last_bin
                 else Done histogram) ;;
  Done (histogram', minmax_step Z.ltb Z.gtb val mm).

(** [float bin_factor = (float) n_bins / (hist_max - hist_min);] with the
    difference taken in [int]. *)
Definition bin_factor_uint16 (n_bins hist_min hist_max : Z) : spec_float :=
  F32.div (F32.of_Z n_bins) (F32.of_Z (hist_max - hist_min)).

Definition hist_uint16 (mem : memory) (image rows cols r_stride c_stride : Z)
    (histogram : list Z) (shift : Z) : outcome hist_state :=
  let working_min := load_u16 mem image in
  let working_max := load_u16 mem image in
  scan image rows cols r_stride c_stride (hist_uint16_pixel mem shift)
    (histogram, (working_min, working_max)).

Definition ranged_hist_uint16 (mem : memory)
    (image rows cols r_stride c_stride : Z) (histogram : list Z)
    (n_bins hist_min hist_max : Z) : outcome hist_state :=
  let working_min := load_u16 mem image in
  let working_max := load_u16 mem image in
  let bin_factor := bin_factor_uint16 n_bins hist_min hist_max in
  let last_bin := n_bins - 1 in
  scan image rows cols r_stride c_stride
    (ranged_hist_uint16_pixel mem bin_factor last_bin hist_min hist_max)
    (histogram, (working_min, working_max)).

Definition masked_hist_uint16 (mem : memory)
    (image rows cols r_stride c_stride : Z) (starts ends : list Z)
    (histogram : list Z) (shift : Z) : outcome hist_state :=
  let working_min := load_u16 mem (image + u32 (nth 0 starts 0 * c_stride)) in
  let working_max := working_min in
  masked_scan image rows cols r_stride c_stride starts ends
    (hist_uint16_pixel mem shift) (histogram, (working_min, working_max)).

Definition masked_ranged_hist_uint16 (mem : memory)
    (image rows cols r_stride c_stride : Z) (starts ends : list Z)
    (histogram : list Z) (n_bins hist_min hist_max : Z) : outcome hist_state :=
  let working_min := load_u16 mem (image + u32 (nth 0 starts 0 * c_stride)) in
  let working_max := working_min in
  let bin_factor := bin_factor_uint16 n_bins hist_min hist_max in
  let last_bin := n_bins - 1 in
  masked_scan image rows cols r_stride c_stride starts ends
    (ranged_hist_uint16_pixel mem bin_factor last_bin hist_min hist_max)
    (histogram, (working_min, working_max)).

(** *** float kernels *)

Definition minmax_float_pixel (mem : memory) (pixel : Z)
    (mm : spec_float * spec_float) : outcome (spec_float * spec_float) :=
  let val := load_f32 mem pixel in
  Done (minmax_step F32.lt F32.gt val mm).

Definition minmax_float (mem : memory) (image rows cols r_stride c_stride : Z)
    : outcome (spec_float * spec_float) :=
  let working_min := load_f32 mem image in
  let working_max := load_f32 mem image in
  scan image rows cols r_stride c_stride (minmax_float_pixel mem)
    (working_min, working_max).

Definition masked_minmax_float (mem : memory)
    (image rows cols r_stride c_stride : Z) (starts ends : list Z)
    : outcome (spec_float * spec_float) :=
  let working_min := load_f32 mem (image + u32 (nth 0 starts 0 * c_stride)) in
  let working_max := working_min in
  masked_scan image rows cols r_stride c_stride starts ends
    (minmax_float_pixel mem) (working_min, working_max).

(** [(uint16_t) (bin_factor * (val - hist_min))] on floats. *)
Definition ranged_bin_float (bin_factor hist_min val : spec_float) : outcome Z :=
  F32.to_u16 (F32.mul bin_factor (F32.sub val hist_min)).

Definition ranged_hist_float_pixel (mem : memory) (bin_factor : spec_float)
    (last_bin : Z) (hist_min hist_max : spec_float) (pixel : Z)
    (histogram : list Z) : outcome (list Z) :=
  let val := load_f32 mem pixel in
  if F32.ge val hist_min && F32.lt val hist_max
  then i <- ranged_bin_float bin_factor hist_min val ;; incr_bin histogram i
  else if F32.eq val hist_max then incr_bin histogram last_bin
  else Done histogram.

(** [float bin_factor = (float) n_bins / (hist_max - hist_min);] *)
Definition bin_factor_float (n_bins : Z) (hist_min hist_max : spec_float)
    : spec_float :=
  F32.div (F32.of_Z n_bins) (F32.sub hist_max hist_min).

Definition ranged_hist_float (mem : memory)
    (image rows cols r_stride c_stride : Z) (histogram : list Z) (n_bins : Z)
    (hist_min hist_max : spec_float) : outcome (list Z) :=
  let bin_factor := bin_factor_float n_bins hist_min hist_max in
  let last_bin := n_bins - 1 in
  scan image rows cols r_stride c_stride
    (ranged_hist_float_pixel mem bin_factor last_bin hist_min hist_max)
    histogram.

Definition masked_ranged_hist_float (mem : memory)
    (image rows cols r_stride c_stride : Z) (starts ends : list Z)
    (histogram : list Z) (n_bins : Z) (hist_min hist_max : spec_float)
    : outcome (list Z) :=
  let bin_factor := bin_factor_float n_bins hist_min hist_max in
  let last_bin := n_bins - 1 in
  masked_scan image rows cols r_stride c_stride starts ends
    (ranged_hist_float_pixel mem bin_factor last_bin hist_min hist_max)
    histogram.

(** ** Argument validation of the Python entry points
    ([_ndimage_statistics_module.cpp]) *)

Module Py.

Import String.

(** The element types the entry points dispatch on. *)
Inductive elt_kind : Type :=
| Float32 | UInt8 | UInt16 | UInt32 | UInt64 | Float64.

(** [py::format_descriptor<T>::value()] *)
Definition format_descriptor (T : elt_kind) : string :=
  match T with
  | Float32 => "f"%string
  | UInt8 => "B"%string
  | UInt16 => "H"%string
  | UInt32 => "I"%string
  | UInt64 => "Q"%string
  | Float64 => "d"%string
  end.

(** The fields of [py::buffer_info] the entry points read. *)
Record buffer_info : Type := {
  ndim : Z;
  shape : list Z;
  strides : list Z;
  format : string
}.

(** The [std::invalid_argument] exceptions of the two entry points, one
    constructor per message; [hist_length n T] is the message
    "hist argument must contain [n] elements for [T] im.". *)
Inductive invalid_argument : Type :=
| im_not_2d
| mask_not_2d
| mask_format
| hist_not_1d
| hist_format
| min_max_not_1d
| min_max_not_2_elements
| im_min_max_format
| hist_length (n : Z) (T : elt_kind)
| twelve_bit_not_uint16
| unsupported_im.

(** The kernel instantiation an accepted call is routed to. *)
Inductive kernel_call : Type :=
| hist_min_max (T : elt_kind) (IS_TWELVE_BIT : bool)
| masked_hist_min_max (T : elt_kind) (IS_TWELVE_BIT : bool).

Definition result : Type := invalid_argument + kernel_call.

Definition throw (e : invalid_argument) : result := inl e.

Section EntryPoints.

(** [bin_count<T>()] is declared in [_ndimage_statistics.h], which is not
    part of the sources at hand; it is a parameter here. *)
Variable bin_count : elt_kind -> Z.

Definition py_hist_min_max (im hist min_max : buffer_info)
    (is_twelve_bit : bool) : result :=
  if negb (ndim im =? 2) then throw im_not_2d
  else if negb (ndim hist =? 1) then throw hist_not_1d
  else if negb (format hist =? format_descriptor UInt32)%string
  then throw hist_format
  else if negb (ndim min_max =? 1) then throw min_max_not_1d
  else if negb (nth 0 (shape min_max) 0 =? 2) then throw min_max_not_2_elements
  else if negb (format im =? format min_max)%string then throw im_min_max_format
  else if is_twelve_bit then
    if (format im =? format_descriptor UInt16)%string then
      if negb (nth 0 (shape hist) 0 =? bin_count UInt16)
      then throw (hist_length (bin_count UInt16) UInt16)
      else inr (hist_min_max UInt16 true)
    else throw twelve_bit_not_uint16
  else
    if (format im =? format_descriptor UInt8)%string then
      if negb (nth 0 (shape hist) 0 =? bin_count UInt8)
      then throw (hist_length (bin_count UInt8) UInt8)
      else inr (hist_min_max UInt8 false)
    else if (format im =? format_descriptor UInt16)%string then
      if negb (nth 0 (shape hist) 0 =? bin_count UInt16)
      then throw (hist_length (bin_count UInt16) UInt16)
      else inr (hist_min_max UInt16 false)
    else if (format im =? format_descriptor UInt32)%string then
      if negb (nth 0 (shape hist) 0 =? bin_count UInt32)
      then throw (hist_length (bin_count UInt32) UInt32)
      else inr (hist_min_max UInt32 false)
    else if (format im =? format_descriptor UInt64)%string then
      if negb (nth 0 (shape hist) 0 =? bin_count UInt64)
      then throw (hist_length (bin_count UInt64) UInt64)
      else inr (hist_min_max UInt64 false)
    else throw unsupported_im.

Definition py_masked_hist_min_max (im mask hist min_max : buffer_info)
    (is_twelve_bit : bool) : result :=
  if negb (ndim im =? 2) then throw im_not_2d
  else if negb (ndim mask =? 2) then throw mask_not_2d
  else if negb (format mask =? format_descriptor UInt8)%string
  then throw mask_format
  else if negb (ndim hist =? 1) then throw hist_not_1d
  else if negb (format hist =? format_descriptor UInt32)%string
  then throw hist_format
  else if negb (ndim min_max =? 1) then throw min_max_not_1d
  else if negb (nth 0 (shape min_max) 0 =? 2) then throw min_max_not_2_elements
  else if negb (format im =? format min_max)%string then throw im_min_max_format
  else if is_twelve_bit then
    if (format im =? format_descriptor UInt16)%string then
      if negb (nth 0 (shape hist) 0 =? bin_count UInt16)
      then throw (hist_length (bin_count UInt16) UInt16)
      else inr (masked_hist_min_max UInt16 true)
    else throw twelve_bit_not_uint16
  else
    if (format im =? format_descriptor UInt8)%string then
      if negb (nth 0 (shape hist) 0 =? bin_count UInt8)
      then throw (hist_length (bin_count UInt8) UInt8)
      else inr (masked_hist_min_max UInt8 false)
    else if (format im =? format_descriptor UInt16)%string then
      if negb (nth 0 (shape hist) 0 =? bin_count UInt8)
      then throw (hist_length (bin_count UInt16) UInt16)
      else inr (masked_hist_min_max UInt16 false)
    else if (format im =? format_descriptor UInt32)%string then
      if negb (nth 0 (shape hist) 0 =? bin_count UInt32)
      then throw (hist_length (bin_count UInt32) UInt32)
      else inr (masked_hist_min_max UInt32 false)
    else if (format im =? format_descriptor UInt64)%string then
      if negb (nth 0 (shape hist) 0 =? bin_count UInt64)
      then throw (hist_length (bin_count UInt64) UInt64)
      else inr (masked_hist_min_max UInt64 false)
    else throw unsupported_im.

End EntryPoints.

(** Modelled from the spec: [bin_count<T>()] of the absent header, as the
    number of bins of the natural-range histogram of an unsigned kind of
    [bitwidth] bits after a right shift by [shift],
    [bin_count = 2^(bitwidth - shift)]; the entry points with
    [is_twelve_bit] false apply no shift. *)
Definition bitwidth (T : elt_kind) : Z :=
  match T with
  | UInt8 => 8
  | UInt16 => 16
  | UInt32 | Float32 => 32
  | UInt64 | Float64 => 64
  end.

Definition spec_bin_count (T : elt_kind) : Z := 2 ^ (bitwidth T - 0).

(** A 2-D image, a 2-D mask, a 1-D [uint32] histogram of [n] bins and a
    2-element min/max buffer of the image's format, contiguous. *)
Definition image_info (T : elt_kind) (rows cols : Z) : buffer_info :=
  {| ndim := 2; shape := [rows; cols];
     strides := [cols * (bitwidth T / 8); bitwidth T / 8];
     format := format_descriptor T |}.

Definition mask_info (rows cols : Z) : buffer_info :=
  {| ndim := 2; shape := [rows; cols]; strides := [cols; 1];
     format := format_descriptor UInt8 |}.

Definition hist_info (n : Z) : buffer_info :=
  {| ndim := 1; shape := [n]; strides := [4];
     format := format_descriptor UInt32 |}.

Definition min_max_info (T : elt_kind) : buffer_info :=
  {| ndim := 1; shape := [2]; strides := [bitwidth T / 8];
     format := format_descriptor T |}.

End Py.

(** ** Image views, masks and the samples they address *)

(** A view the scan loops traverse in full: [uint16_t] extents, strides that
    advance, and byte offsets that fit the [uint32_t] products
    [rows*r_stride] and [cols*c_stride]. *)
Definition view_ok (rows cols r_stride c_stride : Z) : bool :=
  (0 <=? rows) && (rows <? 2 ^ 16) && (0 <=? cols) && (cols <? 2 ^ 16)
  && (0 <? r_stride) && (0 <? c_stride)
  && (rows * r_stride <? 2 ^ 32) && (cols * c_stride <? 2 ^ 32).

(** A span mask: one half-open column range per row,
    [0 <= starts[i] <= ends[i] <= cols]. *)
Definition span_ok (cols : Z) (starts ends : list Z) (i : nat) : bool :=
  (0 <=? nth i starts 0) && (nth i starts 0 <=? nth i ends 0)
  && (nth i ends 0 <=? cols).

Definition mask_ok (rows cols : Z) (starts ends : list Z) : bool :=
  (Z.of_nat (length starts) =? rows) && (Z.of_nat (length ends) =? rows)
  && forallb (span_ok cols starts ends) (seq 0 (Z.to_nat rows)).

(** The mask whose every row span is the full row [[0, cols)]. *)
Definition full_mask (rows cols : Z) : list Z * list Z :=
  (repeat 0 (Z.to_nat rows), repeat cols (Z.to_nat rows)).

(** Addresses [p + k*stride] for [k = 0 .. n-1]. *)
Definition offsets (p stride : Z) (n : nat) : list Z :=
  map (fun k => p + Z.of_nat k * stride) (seq 0 n).

(** Address of the sample at (row [i], column [j]). *)
Definition sample_at (image r_stride c_stride : Z) (i j : Z) : Z :=
  image + i * r_stride + j * c_stride.

(** Addresses of all [rows*cols] samples, in scan order. *)
Definition addresses (image rows cols r_stride c_stride : Z) : list Z :=
  flat_map
    (fun row_start => offsets row_start c_stride (Z.to_nat cols))
    (offsets image r_stride (Z.to_nat rows)).

(** Addresses of the active samples of a masked image, in scan order. *)
Definition masked_addresses (image rows r_stride c_stride : Z)
    (starts ends : list Z) : list Z :=
  flat_map
    (fun i => offsets (image + Z.of_nat i * r_stride + nth i starts 0 * c_stride)
                c_stride (Z.to_nat (nth i ends 0 - nth i starts 0)))
    (seq 0 (Z.to_nat rows)).

(** Number of active samples of a masked image: the sum of the span
    lengths. *)
Definition span_total (rows : Z) (starts ends : list Z) : Z :=
  fold_right Z.add 0
    (map (fun i => nth i ends 0 - nth i starts 0) (seq 0 (Z.to_nat rows))).

(** The samples of an image and the active samples of a masked image, read
    by a typed load, in scan order. *)
Definition samples {T : Type} (load : Z -> T)
    (image rows cols r_stride c_stride : Z) : list T :=
  map load (addresses image rows cols r_stride c_stride).

Definition masked_samples {T : Type} (load : Z -> T)
    (image rows r_stride c_stride : Z) (starts ends : list Z) : list T :=
  map load (masked_addresses image rows r_stride c_stride starts ends).

(** Monadic iteration of a pixel body over a list of addresses. *)
Fixpoint fold_m {St : Type} (body : Z -> St -> outcome St) (ps : list Z)
    (s : St) : outcome St :=
  match ps with
  | [] => Done s
  | p :: t => s' <- body p s ;; fold_m body t s'
  end.

(** ** Reference oracles *)

(** The true minimum and maximum of a non-empty list by a full scan. *)
Definition true_min (l : list Z) : Z :=
  match l with
  | [] => 0
  | x :: t => fold_right Z.min x t
  end.

Definition true_max (l : list Z) : Z :=
  match l with
  | [] => 0
  | x :: t => fold_right Z.max x t
  end.

(** Extrema for an order given by its strict comparison: a sample below
    (above) which no sample compares. *)
Definition least_of {T : Type} (ltb : T -> T -> bool) (l : list T) (m : T) : Prop :=
  In m l /\ forall x, In x l -> ltb x m = false.

Definition greatest_of {T : Type} (ltb : T -> T -> bool) (l : list T) (m : T) : Prop :=
  In m l /\ forall x, In x l -> ltb m x = false.

(** The min/max pass as the specification words it: both working values
    start at the first sample; each sample replaces the minimum when
    strictly below it and the maximum when strictly above it. *)
Definition spec_minmax_step {T : Type} (ltb gtb : T -> T -> bool)
    (mm : T * T) (val : T) : T * T :=
  (if ltb val (fst mm) then val else fst mm,
   if gtb val (snd mm) then val else snd mm).

Definition spec_min_max {T : Type} (ltb gtb : T -> T -> bool) (first : T)
    (samples : list T) : T * T :=
  fold_left (spec_minmax_step ltb gtb) samples (first, first).

(** The working (min, max) of the kernels after each sample of a list. *)
Fixpoint minmax_trace {T : Type} (ltb gtb : T -> T -> bool) (mm : T * T)
    (samples : list T) : list (T * T) :=
  match samples with
  | [] => []
  | v :: t => minmax_step ltb gtb v mm
              :: minmax_trace ltb gtb (minmax_step ltb gtb v mm) t
  end.

(** Number of samples within the closed range [[lo, hi]]. *)
Definition in_range_count (lo hi : Z) (l : list Z) : Z :=
  Z.of_nat (length (filter (fun v => (lo <=? v) && (v <=? hi)) l)).

(** The state of a min/max scan after the samples [seen]: both working values
    are among them, none compares below the minimum or above the maximum. *)
Definition extrema_inv {T : Type} (ltb : T -> T -> bool) (seen : list T)
    (mm : T * T) : Prop :=
  least_of ltb seen (fst mm) /\ greatest_of ltb seen (snd mm).

(** What is asked of the (min, max) of an integer image with samples [l]
    whose first sample is [first]: the true extrema, and the result of the
    specification's pass. *)
Definition int_extrema (first : Z) (l : list Z) (mm : Z * Z) : Prop :=
  fst mm = true_min l /\ snd mm = true_max l
  /\ mm = spec_min_max Z.ltb Z.gtb first l.

(** The same of a float image: the extrema are samples that no sample
    compares below or above; they bound every sample when none is a NaN. *)
Definition float_extrema (first : spec_float) (l : list spec_float)
    (mm : spec_float * spec_float) : Prop :=
  least_of F32.lt l (fst mm) /\ greatest_of F32.lt l (snd mm)
  /\ (forallb (fun x => negb (F32.is_nan x)) l = true ->
      forall x, In x l -> SFleb (fst mm) x = true /\ SFleb x (snd mm) = true)
  /\ mm = spec_min_max F32.lt F32.gt first l.

(** The bin of a ranged histogram as the specification words it:
    [floor(bin_factor * (v - hist_min))] with
    [bin_factor = n_bins / (hist_max - hist_min)], in exact arithmetic. *)
Definition spec_ranged_bin (n_bins hist_min hist_max v : Z) : Z :=
  (n_bins * (v - hist_min)) / (hist_max - hist_min).

(** Whether a routing decision (an index, no bin, or a fault) is bin [j]. *)
Definition routed_to (j : nat) (o : outcome (option Z)) : bool :=
  match o with
  | Done (Some i) => i =? Z.of_nat j
  | _ => false
  end.

(** Number of elements of a list that satisfy a test. *)
Definition count {A : Type} (test : A -> bool) (l : list A) : Z :=
  Z.of_nat (length (filter test l)).

(** ** The bin a ranged kernel sends a sample to

    The conditional store of each ranged pixel body, read as a function of
    the sample: the index of the bin it increments, no bin when the sample is
    dropped, or the fault of an undefined cast. *)

(** [if (val >= hist_min && val <= hist_max) histogram[val - hist_min]++;] *)
Definition ranged_route_uint8 (hist_min hist_max val : Z) : outcome (option Z) :=
  if (val >=? hist_min) && (val <=? hist_max) then Done (Some (val - hist_min))
  else Done None.

(** [if (val >= hist_min && val < hist_max)
       histogram[(uint16_t) (bin_factor * (val - hist_min))]++;
     else if (val == hist_max) ( *last_bin)++;] *)
Definition ranged_route_uint16 (bin_factor : spec_float)
    (last_bin hist_min hist_max val : Z) : outcome (option Z) :=
  if (val >=? hist_min) && (val <? hist_max)
  then i <- ranged_bin_uint16 bin_factor hist_min val ;; Done (Some i)
  else if val =? hist_max then Done (Some last_bin)
  else Done None.

Definition ranged_route_float (bin_factor : spec_float) (last_bin : Z)
    (hist_min hist_max val : spec_float) : outcome (option Z) :=
  if F32.ge val hist_min && F32.lt val hist_max
  then i <- ranged_bin_float bin_factor hist_min val ;; Done (Some i)
  else if F32.eq val hist_max then Done (Some last_bin)
  else Done None.

(** The store a routing decision stands for. *)
Definition store (histogram : list Z) (o : option Z) : outcome (list Z) :=
  match o with
  | Some i => incr_bin histogram i
  | None => Done histogram
  end.

(** A histogram of [n] bins that holds, in every bin, the number of the
    samples [l] that [route] sends to it. *)
Definition bins_count {T : Type} (route : T -> outcome (option Z)) (l : list T)
    (n : nat) (h : list Z) : Prop :=
  length h = n
  /\ forall j, (j < n)%nat -> nth j h 0 = count (fun v => routed_to j (route v)) l.

(** The half-unit lower bound a shift record of [SpecFloat] stands for:
    twice its mantissa, plus one when its round bit is set. *)
Definition half_units (mrs : shr_record) : Z :=
  2 * shr_m mrs + Z.b2z (shr_r mrs).

(** The range-drop property of a histogram [h] of the samples [l]: the bins
    sum to the number of samples within [[lo, hi]], hence to at most the
    number of samples, with equality exactly when every sample is within the
    range. *)
Definition range_drop (lo hi : Z) (l : list Z) (h : list Z) : Prop :=
  bin_total h = in_range_count lo hi l
  /\ bin_total h <= Z.of_nat (length l)
  /\ (bin_total h = Z.of_nat (length l) <->
      forall v, In v l -> lo <= v <= hi).

(** ** The min/max and ranged-histogram entry points
    ([_ndimage_statistics_module.cpp]) *)

Module PyStats.

Import String.
Import Py.

(** The [std::invalid_argument] exceptions of [py_min_max],
    [py_masked_min_max], [py_ranged_hist] and [py_masked_ranged_hist]: the
    messages they share with the two histogram entry points, and four of
    their own:
    - "im and range arguments must be the same format (...)";
    - "Only uint8, uint16, uint32, uint64, float32, and float64 buffers are
      supported.";
    - the same with "im and min_max buffers";
    - the same with "im buffers". *)
Inductive invalid_argument : Type :=
| shared (e : Py.invalid_argument)
| im_range_format
| unsupported_buffers
| unsupported_im_min_max_buffers
| unsupported_im_buffers.

(** The kernel instantiation an accepted call is routed to; the ranged
    kernels are handed [hist_info.shape[0]] as their [n_bins]. *)
Inductive kernel_call : Type :=
| k_min_max (T : elt_kind)
| k_masked_min_max (T : elt_kind)
| k_ranged_hist (T : elt_kind) (WITH_OVERFLOW : bool) (n_bins : Z)
| k_masked_ranged_hist (T : elt_kind) (WITH_OVERFLOW : bool) (n_bins : Z).

Definition result : Type := invalid_argument + kernel_call.

Definition throw (e : invalid_argument) : result := inl e.

Definition py_min_max (im min_max : buffer_info) : result :=
  if negb (ndim im =? 2) then throw (shared im_not_2d)
  else if negb (ndim min_max =? 1) then throw (shared min_max_not_1d)
  else if negb (nth 0 (shape min_max) 0 =? 2)
  then throw (shared min_max_not_2_elements)
  else if negb (format im =? format min_max)%string
  then throw (shared im_min_max_format)
  else if (format im =? format_descriptor Float32)%string
  then inr (k_min_max Float32)
  else if (format im =? format_descriptor UInt8)%string
  then inr (k_min_max UInt8)
  else if (format im =? format_descriptor UInt16)%string
  then inr (k_min_max UInt16)
  else if (format im =? format_descriptor UInt32)%string
  then inr (k_min_max UInt32)
  else if (format im =? format_descriptor UInt64)%string
  then inr (k_min_max UInt64)
  else if (format im =? format_descriptor Float64)%string
  then inr (k_min_max Float64)
  else throw unsupported_buffers.

Definition py_masked_min_max (im mask min_max : buffer_info) : result :=
  if negb (ndim im =? 2) then throw (shared im_not_2d)
  else if negb (ndim min_max =? 1) then throw (shared min_max_not_1d)
  else if negb (nth 0 (shape min_max) 0 =? 2)
  then throw (shared min_max_not_2_elements)
  else if negb (format im =? format min_max)%string
  then throw (shared im_min_max_format)
  else if negb (ndim mask =? 2) then throw (shared mask_not_2d)
  else if negb (format mask =? format_descriptor UInt8)%string
  then throw (shared mask_format)
  else if (format im =? format_descriptor Float32)%string
  then inr (k_masked_min_max Float32)
  else if (format im =? format_descriptor UInt8)%string
  then inr (k_masked_min_max UInt8)
  else if (format im =? format_descriptor UInt16)%string
  then inr (k_masked_min_max UInt16)
  else if (format im =? format_descriptor UInt32)%string
  then inr (k_masked_min_max UInt32)
  else if (format im =? format_descriptor UInt64)%string
  then inr (k_masked_min_max UInt64)
  else if (format im =? format_descriptor Float64)%string
  then inr (k_masked_min_max Float64)
  else throw unsupported_im_min_max_buffers.

Definition py_ranged_hist (im range hist : buffer_info)
    (with_overflow_bins : bool) : result :=
  if negb (ndim im =? 2) then throw (shared im_not_2d)
  else if negb (format im =? format range)%string then throw im_range_format
  else if negb (ndim hist =? 1) then throw (shared hist_not_1d)
  else if negb (format hist =? format_descriptor UInt32)%string
  then throw (shared hist_format)
  else if with_overflow_bins then
    if (format im =? format_descriptor Float32)%string
    then inr (k_ranged_hist Float32 true (nth 0 (shape hist) 0))
    else if (format im =? format_descriptor UInt8)%string
    then inr (k_ranged_hist UInt8 true (nth 0 (shape hist) 0))
    else if (format im =? format_descriptor UInt16)%string
    then inr (k_ranged_hist UInt16 true (nth 0 (shape hist) 0))
    else if (format im =? format_descriptor UInt32)%string
    then inr (k_ranged_hist UInt32 true (nth 0 (shape hist) 0))
    else if (format im =? format_descriptor UInt64)%string
    then inr (k_ranged_hist UInt64 true (nth 0 (shape hist) 0))
    else if (format im =? format_descriptor Float64)%string
    then inr (k_ranged_hist Float64 true (nth 0 (shape hist) 0))
    else throw unsupported_im_buffers
  else
    if (format im =? format_descriptor Float32)%string
    then inr (k_ranged_hist Float32 false (nth 0 (shape hist) 0))
    else if (format im =? format_descriptor UInt8)%string
    then inr (k_ranged_hist UInt8 false (nth 0 (shape hist) 0))
    else if (format im =? format_descriptor UInt16)%string
    then inr (k_ranged_hist UInt16 false (nth 0 (shape hist) 0))
    else if (format im =? format_descriptor UInt32)%string
    then inr (k_ranged_hist UInt32 false (nth 0 (shape hist) 0))
    else if (format im =? format_descriptor UInt64)%string
    then inr (k_ranged_hist UInt64 false (nth 0 (shape hist) 0))
    else if (format im =? format_descriptor Float64)%string
    then inr (k_ranged_hist Float64 false (nth 0 (shape hist) 0))
    else throw unsupported_im_buffers.

(** The mask's [buffer_info] is requested and its pointer, shape and strides
    are handed to the kernel; none of its fields is tested. *)
Definition py_masked_ranged_hist (im mask range hist : buffer_info)
    (with_overflow_bins : bool) : result :=
  if negb (ndim im =? 2) then throw (shared im_not_2d)
  else if negb (format im =? format range)%string then throw im_range_format
  else if negb (ndim hist =? 1) then throw (shared hist_not_1d)
  else if negb (format hist =? format_descriptor UInt32)%string
  then throw (shared hist_format)
  else if with_overflow_bins then
    if (format im =? format_descriptor Float32)%string
    then inr (k_masked_ranged_hist Float32 true (nth 0 (shape hist) 0))
    else if (format im =? format_descriptor UInt8)%string
    then inr (k_masked_ranged_hist UInt8 true (nth 0 (shape hist) 0))
    else if (format im =? format_descriptor UInt16)%string
    then inr (k_masked_ranged_hist UInt16 true (nth 0 (shape hist) 0))
    else if (format im =? format_descriptor UInt32)%string
    then inr (k_masked_ranged_hist UInt32 true (nth 0 (shape hist) 0))
    else if (format im =? format_descriptor UInt64)%string
    then inr (k_masked_ranged_hist UInt64 true (nth 0 (shape hist) 0))
    else if (format im =? format_descriptor Float64)%string
    then inr (k_masked_ranged_hist Float64 true (nth 0 (shape hist) 0))
    else throw unsupported_im_buffers
  else
    if (format im =? format_descriptor Float32)%string
    then inr (k_masked_ranged_hist Float32 false (nth 0 (shape hist) 0))
    else if (format im =? format_descriptor UInt8)%string
    then inr (k_masked_ranged_hist UInt8 false (nth 0 (shape hist) 0))
    else if (format im =? format_descriptor UInt16)%string
    then inr (k_masked_ranged_hist UInt16 false (nth 0 (shape hist) 0))
    else if (format im =? format_descriptor UInt32)%string
    then inr (k_masked_ranged_hist UInt32 false (nth 0 (shape hist) 0))
    else if (format im =? format_descriptor UInt64)%string
    then inr (k_masked_ranged_hist UInt64 false (nth 0 (shape hist) 0))
    else if (format im =? format_descriptor Float64)%string
    then inr (k_masked_ranged_hist Float64 false (nth 0 (shape hist) 0))
    else throw unsupported_im_buffers.

(** The masked instantiation an unmasked one corresponds to. *)
Definition masked_call (c : kernel_call) : kernel_call :=
  match c with
  | k_min_max T => k_masked_min_max T
  | k_ranged_hist T w n => k_masked_ranged_hist T w n
  | c => c
  end.

(** Likewise for the two histogram entry points. *)
Definition masked_hist_call (c : Py.kernel_call) : Py.kernel_call :=
  match c with
  | hist_min_max T b => masked_hist_min_max T b
  | c => c
  end.

End PyStats.

(** ** Memory agreement and sums of bins *)


(** The sum of the [len] bins of a histogram from bin [from] on. *)
Definition bins_sum (h : list Z) (from len : nat) : Z :=
  fold_right Z.add 0 (map (fun i => nth i h 0) (seq from len)).

(** * Properties *)

(** ** The outcome monad and the loops *)

Lemma bind_Done_inv {A B : Type} (c : outcome A) (k : A -> outcome B) (b : B) :
  bind c k = Done b -> exists a, c = Done a /\ k a = Done b.
Proof.
  destruct c; simpl; intros H; try discriminate.
  exists a; split; [reflexivity | exact H].
Qed.

Lemma fold_m_app {St : Type} (body : Z -> St -> outcome St) (l1 l2 : list Z) (s : St) :
  fold_m body (l1 ++ l2) s = (s' <- fold_m body l1 s ;; fold_m body l2 s').
Proof.
  revert s; induction l1 as [|p l1 IH]; intros s; simpl; [reflexivity|].
  destruct (body p s); simpl; auto.
Qed.

Lemma fold_m_ext {St : Type} (b1 b2 : Z -> St -> outcome St) (l : list Z) :
  (forall p s, In p l -> b1 p s = b2 p s) ->
  forall s, fold_m b1 l s = fold_m b2 l s.
Proof.
  induction l as [|p l IH]; intros H s; simpl; [reflexivity|].
  rewrite (H p s (or_introl eq_refl)).
  destruct (b2 p s); simpl; auto.
  apply IH; intros; apply H; right; assumption.
Qed.

Lemma fold_m_flat_map {St : Type} (body : Z -> St -> outcome St)
    (f : Z -> list Z) (l : list Z) (s : St) :
  fold_m (fun p st => fold_m body (f p) st) l s = fold_m body (flat_map f l) s.
Proof.
  revert s; induction l as [|p l IH]; intros s; simpl; [reflexivity|].
  rewrite fold_m_app.
  destruct (fold_m body (f p) s); simpl; auto.
Qed.

Lemma offsets_S (p stride : Z) (n : nat) :
  offsets p stride (S n) = p :: offsets (p + stride) stride n.
Proof.
  unfold offsets; simpl. f_equal; [lia|].
  rewrite <- seq_shift, map_map.
  apply map_ext; intros k; lia.
Qed.

Lemma offsets_length (p stride : Z) (n : nat) : length (offsets p stride n) = n.
Proof. unfold offsets; rewrite length_map, length_seq; reflexivity. Qed.

Lemma ptr_loop_S {St : Type} (body : Z -> St -> outcome St)
    (fuel : nat) (p stop stride : Z) (s : St) :
  ptr_loop (S fuel) p stop stride body s
  = if p =? stop then Done s
    else (s' <- body p s ;; ptr_loop fuel (p + stride) stop stride body s').
Proof. reflexivity. Qed.

Lemma ptr_loop_stop {St : Type} (body : Z -> St -> outcome St)
    (fuel : nat) (p stride : Z) (s : St) :
  ptr_loop fuel p p stride body s = Done s.
Proof. destruct fuel; cbn [ptr_loop]; rewrite Z.eqb_refl; reflexivity. Qed.

(** A loop whose end pointer lies [n] strides ahead runs its body at the [n]
    addresses in between, given fuel for [n] iterations. *)
Lemma ptr_loop_offsets {St : Type} (body : Z -> St -> outcome St) (stride : Z) :
  stride <> 0 ->
  forall (n fuel : nat) (p : Z) (s : St),
    (n <= fuel)%nat ->
    ptr_loop fuel p (p + Z.of_nat n * stride) stride body s
    = fold_m body (offsets p stride n) s.
Proof.
  intros Hs; induction n as [|n IH]; intros fuel p s Hf.
  - replace (p + Z.of_nat 0 * stride) with p by lia.
    apply ptr_loop_stop.
  - destruct fuel as [|fuel]; [lia|].
    rewrite offsets_S, ptr_loop_S.
    destruct (Z.eqb_spec p (p + Z.of_nat (S n) * stride)) as [E|_]; [nia|].
    cbn [fold_m].
    destruct (body p s); cbn [bind]; auto.
    replace (p + Z.of_nat (S n) * stride)
      with (p + stride + Z.of_nat n * stride) by lia.
    apply IH; lia.
Qed.

(** An invariant of the body is an invariant of the loop. *)
Lemma ptr_loop_inv {St : Type} (P : St -> Prop) (body : Z -> St -> outcome St) :
  (forall p s s', P s -> body p s = Done s' -> P s') ->
  forall fuel p stop stride s s',
    P s -> ptr_loop fuel p stop stride body s = Done s' -> P s'.
Proof.
  intros Hb; induction fuel as [|fuel IH]; intros p stop stride s s' Hs; simpl;
    destruct (p =? stop); intros H; try discriminate.
  - inversion H; subst; assumption.
  - inversion H; subst; assumption.
  - apply bind_Done_inv in H; destruct H as (s1 & H1 & H2).
    eapply IH; [|exact H2]. eapply Hb; eauto.
Qed.

(** A body that never stores out of bounds under an invariant makes a loop
    that never does. *)
Lemma ptr_loop_in_bounds {St : Type} (P : St -> Prop) (body : Z -> St -> outcome St) :
  (forall p s s', P s -> body p s = Done s' -> P s') ->
  (forall p s, P s -> body p s <> OutOfBounds) ->
  forall fuel p stop stride s,
    P s -> ptr_loop fuel p stop stride body s <> OutOfBounds.
Proof.
  intros Hb Hsafe; induction fuel as [|fuel IH]; intros p stop stride s Hs; simpl;
    destruct (p =? stop); try discriminate.
  destruct (body p s) as [s1| | |] eqn:E; simpl; try discriminate.
  - apply IH. eapply Hb; eauto.
  - exfalso; eapply Hsafe; eauto.
Qed.

Lemma max_iter_eq : Z.of_nat max_iter = 2 ^ 16.
Proof. unfold max_iter; apply Z2Nat.id; apply Z.pow_nonneg; lia. Qed.

(** A loop that returns has met its end pointer after some number of
    strides, having run its body at the addresses before it. *)
Lemma ptr_loop_Done_offsets {St : Type} (body : Z -> St -> outcome St)
    (stride stop : Z) :
  forall (fuel : nat) (p : Z) (s s' : St),
    ptr_loop fuel p stop stride body s = Done s' ->
    exists k, (k <= fuel)%nat /\ stop = p + Z.of_nat k * stride
              /\ fold_m body (offsets p stride k) s = Done s'.
Proof.
  induction fuel as [|fuel IH]; intros p s s'; cbn [ptr_loop];
    destruct (Z.eqb_spec p stop) as [E|N]; intros H; try discriminate.
  - exists 0%nat; split; [lia|]; split; [lia | exact H].
  - exists 0%nat; split; [lia|]; split; [lia | exact H].
  - apply bind_Done_inv in H; destruct H as (s1 & Hb & H).
    destruct (IH _ _ _ H) as (k & Hk & Hs & Hf).
    exists (S k); rewrite offsets_S; cbn [fold_m]; rewrite Hb; cbn [bind].
    split; [lia|]; split; [lia | exact Hf].
Qed.

(** The bound on the iterations loses no run: with a [uint32_t] stride and an
    end pointer at most [n <= 65535] strides ahead (the [uint32_t] product
    [n*stride], wrapped or not), a loop that returns with any amount of fuel
    returns the same with [max_iter]. *)
Lemma ptr_loop_bound_adequate {St : Type} (body : Z -> St -> outcome St)
    (fuel : nat) (p stride n : Z) (s s' : St) :
  0 <= stride -> 0 <= n < 2 ^ 16 ->
  ptr_loop fuel p (p + u32 (n * stride)) stride body s = Done s' ->
  ptr_loop max_iter p (p + u32 (n * stride)) stride body s = Done s'.
Proof.
  intros Hs Hn H.
  assert (Ht : 0 <= u32 (n * stride) <= n * stride).
  { unfold u32; split; [apply Z.mod_pos_bound; lia|].
    apply Z.mod_le; [nia | lia]. }
  destruct (ptr_loop_Done_offsets _ _ _ _ _ _ _ H) as (k & _ & Hk & Hf).
  destruct (Z.eq_dec stride 0) as [E0|N0].
  - subst stride; replace (p + u32 (n * 0)) with p in * by lia.
    rewrite ptr_loop_stop in *; exact H.
  - assert (Hkn : Z.of_nat k <= n) by nia.
    replace (p + u32 (n * stride)) with (p + Z.of_nat k * stride) by lia.
    rewrite ptr_loop_offsets; [exact Hf | exact N0 |].
    pose proof max_iter_eq; lia.
Qed.

Lemma view_ok_spec (rows cols r_stride c_stride : Z) :
  view_ok rows cols r_stride c_stride = true ->
  0 <= rows < 2 ^ 16 /\ 0 <= cols < 2 ^ 16 /\ 0 < r_stride /\ 0 < c_stride
  /\ rows * r_stride < 2 ^ 32 /\ cols * c_stride < 2 ^ 32.
Proof.
  unfold view_ok; intros H.
  repeat (apply andb_prop in H; destruct H as [H ?]).
  repeat match goal with
         | H : (_ <=? _) = true |- _ => apply Z.leb_le in H
         | H : (_ <? _) = true |- _ => apply Z.ltb_lt in H
         end.
  lia.
Qed.

Lemma u32_small (x : Z) : 0 <= x < 2 ^ 32 -> u32 x = x.
Proof. intros H; unfold u32; apply Z.mod_small; exact H. Qed.

(** On a well-formed view the unmasked loop nest visits exactly the
    [rows*cols] sample addresses, in row-major order. *)
Lemma scan_fold {St : Type} (image rows cols r_stride c_stride : Z)
    (body : Z -> St -> outcome St) (s : St) :
  view_ok rows cols r_stride c_stride = true ->
  scan image rows cols r_stride c_stride body s
  = fold_m body (addresses image rows cols r_stride c_stride) s.
Proof.
  intros H; apply view_ok_spec in H.
  destruct H as (Hr & Hc & Hrs & Hcs & Hro & Hco).
  unfold scan, addresses.
  rewrite (u32_small (rows * r_stride)) by nia.
  rewrite (u32_small (cols * c_stride)) by nia.
  pose proof max_iter_eq as HM.
  replace (rows * r_stride) with (Z.of_nat (Z.to_nat rows) * r_stride) by lia.
  rewrite ptr_loop_offsets by lia.
  rewrite <- fold_m_flat_map.
  apply fold_m_ext; intros p st _.
  replace (cols * c_stride) with (Z.of_nat (Z.to_nat cols) * c_stride) by lia.
  apply ptr_loop_offsets; lia.
Qed.

Lemma mask_ok_spec (rows cols : Z) (starts ends : list Z) :
  mask_ok rows cols starts ends = true ->
  forall i, (i < Z.to_nat rows)%nat ->
    0 <= nth i starts 0 /\ nth i starts 0 <= nth i ends 0 /\ nth i ends 0 <= cols.
Proof.
  unfold mask_ok; intros H i Hi.
  apply andb_prop in H; destruct H as [_ H].
  rewrite forallb_forall in H.
  specialize (H i); rewrite in_seq in H.
  assert (Hs : span_ok cols starts ends i = true) by (apply H; lia).
  unfold span_ok in Hs.
  repeat (apply andb_prop in Hs; destruct Hs as [Hs ?]).
  repeat match goal with
         | H : (_ <=? _) = true |- _ => apply Z.leb_le in H
         end.
  lia.
Qed.

Section MaskedRows.

Context {St : Type}.
Variables (image rows cols r_stride c_stride : Z) (starts ends : list Z).
Variable body : Z -> St -> outcome St.
Hypothesis Hview : view_ok rows cols r_stride c_stride = true.
Hypothesis Hmask : mask_ok rows cols starts ends = true.

(** One masked row: the inner loop visits the columns of the span. *)
Lemma masked_row_fold (row_start : Z) (i : nat) (s : St) :
  (i < Z.to_nat rows)%nat ->
  ptr_loop max_iter (row_start + u32 (nth i starts 0 * c_stride))
    (row_start + u32 (nth i ends 0 * c_stride)) c_stride body s
  = fold_m body
      (offsets (row_start + nth i starts 0 * c_stride) c_stride
         (Z.to_nat (nth i ends 0 - nth i starts 0))) s.
Proof.
  intros Hi.
  destruct (view_ok_spec _ _ _ _ Hview) as (Hr & Hc & Hrs & Hcs & Hro & Hco).
  destruct (mask_ok_spec _ _ _ _ Hmask i Hi) as (H0 & H1 & H2).
  pose proof max_iter_eq as HM.
  rewrite (u32_small (nth i starts 0 * c_stride)) by nia.
  rewrite (u32_small (nth i ends 0 * c_stride)) by nia.
  replace (row_start + nth i ends 0 * c_stride)
    with (row_start + nth i starts 0 * c_stride
          + Z.of_nat (Z.to_nat (nth i ends 0 - nth i starts 0)) * c_stride)
    by (rewrite Z2Nat.id by lia; ring).
  apply ptr_loop_offsets; lia.
Qed.

Lemma masked_rows_fold (n : nat) :
  forall (fuel i : nat) (s : St),
    (n <= fuel)%nat -> (i + n <= Z.to_nat rows)%nat ->
    ptr_loop fuel (image + Z.of_nat i * r_stride)
      (image + Z.of_nat (i + n) * r_stride) r_stride
      (fun row_start (st : nat * St) =>
         let (k, s0) := st in
         s1 <- ptr_loop max_iter
                 (row_start + u32 (nth k starts 0 * c_stride))
                 (row_start + u32 (nth k ends 0 * c_stride))
                 c_stride body s0 ;;
         Done (S k, s1))
      (i, s)
    = (s' <- fold_m body
               (flat_map
                  (fun k => offsets (image + Z.of_nat k * r_stride
                                     + nth k starts 0 * c_stride)
                              c_stride
                              (Z.to_nat (nth k ends 0 - nth k starts 0)))
                  (seq i n)) s ;;
       Done ((i + n)%nat, s')).
Proof.
  destruct (view_ok_spec _ _ _ _ Hview) as (Hr & Hc & Hrs & Hcs & Hro & Hco).
  induction n as [|n IH]; intros fuel i s Hf Hi.
  - replace (i + 0)%nat with i by lia.
    rewrite ptr_loop_stop; reflexivity.
  - destruct fuel as [|fuel]; [lia|].
    rewrite ptr_loop_S.
    destruct (Z.eqb_spec (image + Z.of_nat i * r_stride)
                (image + Z.of_nat (i + S n) * r_stride)) as [E|_]; [nia|].
    rewrite masked_row_fold by lia.
    cbn [seq flat_map]. rewrite fold_m_app.
    destruct (fold_m body _ s) as [s1| | |]; cbn [bind]; auto.
    replace (image + Z.of_nat i * r_stride + r_stride)
      with (image + Z.of_nat (S i) * r_stride) by lia.
    replace (i + S n)%nat with (S i + n)%nat by lia.
    apply IH; lia.
Qed.

(** On a well-formed view and mask the masked loop nest visits exactly the
    active sample addresses. *)
Lemma masked_scan_fold (s : St) :
  masked_scan image rows cols r_stride c_stride starts ends body s
  = fold_m body (masked_addresses image rows r_stride c_stride starts ends) s.
Proof.
  destruct (view_ok_spec _ _ _ _ Hview) as (Hr & Hc & Hrs & Hcs & Hro & Hco).
  pose proof max_iter_eq as HM.
  unfold masked_scan, masked_addresses.
  rewrite (u32_small (rows * r_stride)) by nia.
  pose proof (masked_rows_fold (Z.to_nat rows) max_iter 0 s) as H.
  replace (image + Z.of_nat 0 * r_stride) with image in H by lia.
  replace (Z.of_nat (0 + Z.to_nat rows)) with rows in H by lia.
  rewrite H by lia.
  destruct (fold_m body _ s); reflexivity.
Qed.

End MaskedRows.

(** ** The min/max update over a strict order *)

Section MinMax.

Context {T : Type}.
Variables ltb gtb : T -> T -> bool.
Hypothesis gtb_ltb : forall x y, gtb x y = ltb y x.
Hypothesis ltb_irrefl : forall x, ltb x x = false.
Hypothesis ltb_trans : forall x y z, ltb x y = true -> ltb y z = true -> ltb x z = true.

Lemma extrema_inv_seed (x : T) : extrema_inv ltb [x] (x, x).
Proof.
  split; (split; [left; reflexivity|]); intros y [<-|[]]; apply ltb_irrefl.
Qed.

Lemma ltb_false_trans_l (x y z : T) :
  ltb x y = true -> ltb z y = false -> ltb z x = false.
Proof.
  intros Hxy Hzy; destruct (ltb z x) eqn:E; [|reflexivity].
  rewrite (ltb_trans z x y E Hxy) in Hzy; discriminate.
Qed.

Lemma ltb_false_trans_r (x y z : T) :
  ltb x y = true -> ltb x z = false -> ltb y z = false.
Proof.
  intros Hxy Hxz; destruct (ltb y z) eqn:E; [|reflexivity].
  rewrite (ltb_trans x y z Hxy E) in Hxz; discriminate.
Qed.

Lemma extrema_inv_step (seen : list T) (mm : T * T) (v : T) :
  extrema_inv ltb seen mm -> extrema_inv ltb (v :: seen) (minmax_step ltb gtb v mm).
Proof.
  destruct mm as [mn mx]; intros [[Hmn Hlo] [Hmx Hhi]]; simpl in *.
  unfold minmax_step; rewrite gtb_ltb.
  destruct (ltb v mn) eqn:E1; [|destruct (ltb mx v) eqn:E2]; split; simpl.
  - split; [left; reflexivity|].
    intros x [<-|Hx]; [apply ltb_irrefl|].
    eapply ltb_false_trans_l; eauto.
  - split; [right; assumption|].
    intros x [<-|Hx]; [|auto].
    eapply ltb_false_trans_l; eauto.
  - split; [right; assumption|].
    intros x [<-|Hx]; [assumption|auto].
  - split; [left; reflexivity|].
    intros x [<-|Hx]; [apply ltb_irrefl|].
    eapply ltb_false_trans_r; eauto.
  - split; [right; assumption|].
    intros x [<-|Hx]; [assumption|auto].
  - split; [right; assumption|].
    intros x [<-|Hx]; [assumption|auto].
Qed.

(** Under the invariant the [else if] of the kernels loses no update: the
    step is the two independent comparisons of the specification. *)
Lemma minmax_step_spec (seen : list T) (mm : T * T) (v : T) :
  extrema_inv ltb seen mm ->
  minmax_step ltb gtb v mm = spec_minmax_step ltb gtb mm v.
Proof.
  destruct mm as [mn mx]; intros [[Hmn Hlo] [Hmx Hhi]]; simpl in *.
  unfold minmax_step, spec_minmax_step; simpl; rewrite gtb_ltb.
  destruct (ltb v mn) eqn:E1; [|destruct (ltb mx v); reflexivity].
  rewrite (ltb_false_trans_l v mn mx E1 (Hhi mn Hmn)); reflexivity.
Qed.

Lemma minmax_fold_inv (samples seen : list T) (mm : T * T) :
  extrema_inv ltb seen mm ->
  extrema_inv ltb (rev samples ++ seen)
    (fold_left (fun st v => minmax_step ltb gtb v st) samples mm)
  /\ fold_left (fun st v => minmax_step ltb gtb v st) samples mm
     = fold_left (spec_minmax_step ltb gtb) samples mm.
Proof.
  revert seen mm; induction samples as [|v l IH]; intros seen mm H; simpl.
  - split; [assumption | reflexivity].
  - rewrite <- app_assoc; simpl.
    rewrite <- (minmax_step_spec seen mm v H).
    apply IH, extrema_inv_step, H.
Qed.

(** A scan seeded at a sample of the list ends at extrema of the list, and
    computes what the specification's pass computes. *)
Lemma minmax_fold_extrema (samples : list T) (seed : T) :
  In seed samples ->
  let mm := fold_left (fun st v => minmax_step ltb gtb v st) samples (seed, seed) in
  least_of ltb samples (fst mm) /\ greatest_of ltb samples (snd mm)
  /\ mm = spec_min_max ltb gtb seed samples.
Proof.
  intros Hseed mm.
  destruct (minmax_fold_inv samples [seed] (seed, seed) (extrema_inv_seed seed))
    as [[[Hmn Hlo] [Hmx Hhi]] Heq].
  fold mm in Hmn, Hlo, Hmx, Hhi, Heq.
  assert (Hin : forall x, In x (rev samples ++ [seed]) <-> In x samples).
  { intros x; rewrite in_app_iff, <- in_rev; simpl.
    split; [intros [?|[<-|[]]]; assumption | auto]. }
  repeat split.
  - apply Hin, Hmn.
  - intros x Hx; apply Hlo, Hin, Hx.
  - apply Hin, Hmx.
  - intros x Hx; apply Hhi, Hin, Hx.
  - exact Heq.
Qed.

End MinMax.

(** ** The order of the C comparisons *)

Lemma Z_gtb_ltb (x y : Z) : (x >? y) = (y <? x).
Proof. apply Z.gtb_ltb. Qed.

Lemma Z_ltb_trans (x y z : Z) : (x <? y) = true -> (y <? z) = true -> (x <? z) = true.
Proof. rewrite !Z.ltb_lt; lia. Qed.

Lemma SFcompare_antisym (x y : spec_float) :
  SFcompare y x = option_map CompOpp (SFcompare x y).
Proof.
  destruct x as [sx|sx| |sx mx ex], y as [sy|sy| |sy my ey];
    try destruct sx; try destruct sy; try reflexivity; simpl;
    rewrite (Z.compare_antisym ex ey);
    destruct (ex ?= ey); simpl; try reflexivity;
    change (Pos.compare_cont Eq my mx) with (Pos.compare my mx);
    change (Pos.compare_cont Eq mx my) with (Pos.compare mx my);
    rewrite (Pos.compare_antisym mx my);
    destruct (mx ?= my)%positive; reflexivity.
Qed.

Lemma F32_gt_lt (x y : spec_float) : F32.gt x y = F32.lt y x.
Proof.
  unfold F32.gt, F32.lt, SFltb; rewrite (SFcompare_antisym x y).
  destruct (SFcompare x y) as [[]|]; reflexivity.
Qed.

Lemma F32_lt_irrefl (x : spec_float) : F32.lt x x = false.
Proof.
  unfold F32.lt, SFltb.
  destruct x as [s|s| |s m e]; try destruct s; try reflexivity; simpl;
    rewrite Z.compare_refl;
    change (Pos.compare_cont Eq m m) with (Pos.compare m m);
    rewrite Pos.compare_refl; reflexivity.
Qed.

(** On finite floats of one sign the comparison is lexicographic in the
    exponent and the mantissa. *)
Lemma finite_lt_pos (m1 : positive) (e1 : Z) (m2 : positive) (e2 : Z) :
  F32.lt (S754_finite false m1 e1) (S754_finite false m2 e2) = true
  <-> e1 < e2 \/ (e1 = e2 /\ (m1 < m2)%positive).
Proof.
  unfold F32.lt, SFltb; simpl.
  change (Pos.compare_cont Eq m1 m2) with (Pos.compare m1 m2).
  destruct (Z.compare_spec e1 e2); [destruct (Pos.compare_spec m1 m2)| |];
    split; intros H'; try discriminate; try reflexivity; lia.
Qed.

Lemma finite_lt_neg (m1 : positive) (e1 : Z) (m2 : positive) (e2 : Z) :
  F32.lt (S754_finite true m1 e1) (S754_finite true m2 e2) = true
  <-> e2 < e1 \/ (e1 = e2 /\ (m2 < m1)%positive).
Proof.
  unfold F32.lt, SFltb; simpl.
  change (Pos.compare_cont Eq m1 m2) with (Pos.compare m1 m2).
  destruct (Z.compare_spec e1 e2); [destruct (Pos.compare_spec m1 m2)| |];
    split; intros H'; try discriminate; try reflexivity; lia.
Qed.

Lemma F32_lt_trans (x y z : spec_float) :
  F32.lt x y = true -> F32.lt y z = true -> F32.lt x z = true.
Proof.
  destruct x as [sx|sx| |sx mx ex], y as [sy|sy| |sy my ey],
           z as [sz|sz| |sz mz ez];
    try destruct sx; try destruct sy; try destruct sz;
    try (intros; reflexivity); try (intros H; discriminate H);
    try (intros _ H; discriminate H).
  - rewrite !finite_lt_neg; lia.
  - rewrite !finite_lt_pos; lia.
Qed.

(** Without NaNs the comparison is total: what is not below is at or
    above. *)
Lemma F32_lt_total (x y : spec_float) :
  F32.is_nan x = false -> F32.is_nan y = false ->
  F32.lt x y = false -> SFleb y x = true.
Proof.
  unfold F32.lt, SFltb, SFleb; rewrite (SFcompare_antisym x y).
  destruct x as [sx|sx| |sx mx ex], y as [sy|sy| |sy my ey];
    try discriminate; intros _ _;
    destruct (SFcompare _ _) as [[]|] eqn:E; simpl; intros H;
    try reflexivity; try discriminate H;
    destruct sx; try destruct sy; discriminate E.
Qed.

(** ** Pixel bodies as folds over the samples *)

Lemma fold_m_pure {St T : Type} (load : Z -> T) (f : T -> St -> St)
    (ps : list Z) (s : St) :
  fold_m (fun p st => Done (f (load p) st)) ps s
  = Done (fold_left (fun st v => f v st) (map load ps) s).
Proof.
  revert s; induction ps as [|p l IH]; intros s; simpl; [reflexivity|apply IH].
Qed.

(** A body that updates the histogram and the working (min, max) side by
    side folds into the two updates run separately. *)
Lemma fold_m_hist_split (body : Z -> hist_state -> outcome hist_state)
    (g : Z -> list Z -> outcome (list Z)) (load : Z -> Z) :
  (forall p h mm,
      body p (h, mm)
      = (h' <- g p h ;; Done (h', minmax_step Z.ltb Z.gtb (load p) mm))) ->
  forall ps h mm,
    fold_m body ps (h, mm)
    = (h' <- fold_m g ps h ;;
       Done (h', fold_left (fun st v => minmax_step Z.ltb Z.gtb v st)
                   (map load ps) mm)).
Proof.
  intros Hb; induction ps as [|p l IH]; intros h mm; simpl; [reflexivity|].
  rewrite Hb. destruct (g p h) as [h1| | |]; simpl; auto.
Qed.

(** ** Histogram increments *)

Lemma bump_length (h : list Z) (i : nat) : length (bump h i) = length h.
Proof.
  revert i; induction h as [|c t IH]; intros [|j]; simpl; auto.
Qed.

Lemma bump_nth_same (h : list Z) (i : nat) :
  (i < length h)%nat -> nth i (bump h i) 0 = u32 (nth i h 0 + 1).
Proof.
  revert i; induction h as [|c t IH]; intros [|j]; simpl; intros H;
    try lia; auto. apply IH; lia.
Qed.

Lemma bump_nth_other (h : list Z) (i j : nat) :
  i <> j -> nth j (bump h i) 0 = nth j h 0.
Proof.
  revert i j; induction h as [|c t IH]; intros [|i] [|j] H; simpl; auto.
  contradiction.
Qed.

Lemma incr_bin_Done (h : list Z) (i : Z) :
  0 <= i < Z.of_nat (length h) -> incr_bin h i = Done (bump h (Z.to_nat i)).
Proof.
  intros [H0 H1]; unfold incr_bin.
  apply Z.leb_le in H0; apply Z.ltb_lt in H1; rewrite H0, H1; reflexivity.
Qed.

Lemma incr_bin_inv (h h' : list Z) (i : Z) :
  incr_bin h i = Done h' ->
  0 <= i < Z.of_nat (length h) /\ h' = bump h (Z.to_nat i).
Proof.
  unfold incr_bin.
  destruct (0 <=? i) eqn:E0; destruct (i <? Z.of_nat (length h)) eqn:E1;
    simpl; intros H; try discriminate.
  apply Z.leb_le in E0; apply Z.ltb_lt in E1.
  inversion H; split; [lia | reflexivity].
Qed.

Lemma incr_bin_length (h h' : list Z) (i : Z) :
  incr_bin h i = Done h' -> length h' = length h.
Proof.
  intros H; apply incr_bin_inv in H; destruct H as [_ ->]; apply bump_length.
Qed.

(** Counters that are non-negative and sum to less than [2^32 - 1] do not
    wrap when one of them is incremented. *)
Lemma bump_total (h : list Z) (i : nat) :
  Forall (fun c => 0 <= c) h -> (i < length h)%nat -> bin_total h + 1 < 2 ^ 32 ->
  Forall (fun c => 0 <= c) (bump h i) /\ bin_total (bump h i) = bin_total h + 1.
Proof.
  revert i; induction h as [|c t IH]; intros i Hnn Hi Hsum; simpl in *; [lia|].
  inversion Hnn as [|? ? Hc Ht]; subst.
  assert (Htot : 0 <= bin_total t).
  { clear -Ht; induction Ht; simpl; [lia|]. unfold bin_total in *; lia. }
  unfold bin_total in *; simpl in *.
  destruct i as [|j]; simpl.
  - rewrite u32_small by lia. split; [constructor; [lia|assumption] | lia].
  - destruct (IH j Ht) as [Hf He]; [lia | lia |].
    split; [constructor; assumption | lia].
Qed.

Lemma zeroed_nonneg (n : nat) : Forall (fun c => 0 <= c) (zeroed n).
Proof. induction n; simpl; constructor; [lia|assumption]. Qed.

Lemma zeroed_total (n : nat) : bin_total (zeroed n) = 0.
Proof. unfold bin_total, zeroed; induction n; simpl; lia. Qed.

Lemma zeroed_length (n : nat) : length (zeroed n) = n.
Proof. apply repeat_length. Qed.

(** A pass whose body increments the bin [sel p] of each address it selects
    and skips the others: from non-negative counters it counts exactly the
    selected addresses, provided every selected bin is inside the buffer. *)
Lemma fold_m_count (g : Z -> list Z -> outcome (list Z)) (sel : Z -> option Z) :
  (forall p h, g p h = match sel p with
                       | Some i => incr_bin h i
                       | None => Done h
                       end) ->
  forall (ps : list Z) (h : list Z),
    Forall (fun c => 0 <= c) h ->
    (forall p i, In p ps -> sel p = Some i -> 0 <= i < Z.of_nat (length h)) ->
    bin_total h + Z.of_nat (length ps) < 2 ^ 32 ->
    exists h',
      fold_m g ps h = Done h' /\ length h' = length h
      /\ Forall (fun c => 0 <= c) h'
      /\ bin_total h'
         = bin_total h
           + Z.of_nat (length (filter (fun p => match sel p with
                                                 | Some _ => true
                                                 | None => false
                                                 end) ps)).
Proof.
  intros Hg; induction ps as [|p l IH]; intros h Hnn Hsel Hsum.
  - exists h; simpl; repeat split; auto; lia.
  - cbn [fold_m filter]. rewrite Hg.
    cbn [length] in Hsum.
    destruct (sel p) as [i|] eqn:E.
    + assert (Hi : 0 <= i < Z.of_nat (length h))
        by (apply (Hsel p i); [left; reflexivity | exact E]).
      rewrite incr_bin_Done by exact Hi. cbn [bind].
      destruct (bump_total h (Z.to_nat i) Hnn) as [Hnn' Htot]; [lia | lia |].
      destruct (IH (bump h (Z.to_nat i))) as (h' & Hf & Hl & Hn & Ht).
      * exact Hnn'.
      * intros q j Hq Hj; rewrite bump_length.
        apply (Hsel q j); [right; exact Hq | exact Hj].
      * lia.
      * exists h'; rewrite bump_length in Hl.
        repeat split; auto. cbn [length]; lia.
    + cbn [bind].
      destruct (IH h) as (h' & Hf & Hl & Hn & Ht); auto.
      * intros q j Hq Hj; apply (Hsel q j); [right; exact Hq | exact Hj].
      * lia.
      * exists h'; repeat split; auto.
Qed.

(** ** Loads, shifts and sample lists *)

Lemma load_u8_range (mem : memory) (p : Z) : 0 <= load_u8 mem p < 2 ^ 8.
Proof. unfold load_u8, u8; apply Z.mod_pos_bound; lia. Qed.

Lemma load_u16_range (mem : memory) (p : Z) : 0 <= load_u16 mem p < 2 ^ 16.
Proof.
  unfold load_u16.
  pose proof (load_u8_range mem p); pose proof (load_u8_range mem (p + 1)); lia.
Qed.

Lemma shiftr_range (w v shift : Z) :
  0 <= shift <= w -> 0 <= v < 2 ^ w -> 0 <= Z.shiftr v shift < 2 ^ (w - shift).
Proof.
  intros Hs Hv; rewrite Z.shiftr_div_pow2 by lia.
  assert (Hp : 0 < 2 ^ shift) by (apply Z.pow_pos_nonneg; lia).
  split; [apply Z.div_pos; lia|].
  apply Z.div_lt_upper_bound; [exact Hp|].
  rewrite <- Z.pow_add_r by lia.
  replace (shift + (w - shift)) with w by lia; lia.
Qed.

Lemma addresses_length (image rows cols r_stride c_stride : Z) :
  0 <= rows -> 0 <= cols ->
  Z.of_nat (length (addresses image rows cols r_stride c_stride)) = rows * cols.
Proof.
  intros Hr Hc; unfold addresses.
  assert (H : forall l, length (flat_map
                (fun row_start => offsets row_start c_stride (Z.to_nat cols)) l)
              = (length l * Z.to_nat cols)%nat).
  { induction l as [|a l IH]; simpl; [reflexivity|].
    rewrite length_app, offsets_length, IH; reflexivity. }
  rewrite H, offsets_length; nia.
Qed.

Lemma in_offsets (p stride : Z) (n : nat) (a : Z) :
  In a (offsets p stride n)
  <-> exists k, 0 <= k < Z.of_nat n /\ a = p + k * stride.
Proof.
  unfold offsets; rewrite in_map_iff; split.
  - intros (k & <- & Hk); apply in_seq in Hk; exists (Z.of_nat k); lia.
  - intros (k & Hk & ->); exists (Z.to_nat k); rewrite in_seq; split; [|lia].
    rewrite Z2Nat.id by lia; reflexivity.
Qed.

(** The addresses scanned are those of the samples at (row [i], column [j])
    for [0 <= i < rows] and [0 <= j < cols]. *)
Lemma in_addresses (image rows cols r_stride c_stride : Z) (a : Z) :
  0 <= rows -> 0 <= cols ->
  In a (addresses image rows cols r_stride c_stride)
  <-> exists i j, 0 <= i < rows /\ 0 <= j < cols
                  /\ a = sample_at image r_stride c_stride i j.
Proof.
  intros Hr Hc; unfold addresses, sample_at; rewrite in_flat_map; split.
  - intros (row_start & Hrow & Ha).
    apply in_offsets in Hrow; destruct Hrow as (i & Hi & ->).
    apply in_offsets in Ha; destruct Ha as (j & Hj & ->).
    exists i, j; lia.
  - intros (i & j & Hi & Hj & ->).
    exists (image + i * r_stride); split; apply in_offsets.
    + exists i; lia.
    + exists j; lia.
Qed.

(** The active addresses of a masked image are those of the samples at
    (row [i], column [j]) for [0 <= i < rows] and
    [starts[i] <= j < ends[i]]. *)
Lemma in_masked_addresses (image rows r_stride c_stride : Z)
    (starts ends : list Z) (a : Z) :
  0 <= rows ->
  In a (masked_addresses image rows r_stride c_stride starts ends)
  <-> exists (i : nat) (j : Z),
        Z.of_nat i < rows /\ nth i starts 0 <= j < nth i ends 0
        /\ a = sample_at image r_stride c_stride (Z.of_nat i) j.
Proof.
  intros Hr; unfold masked_addresses, sample_at; rewrite in_flat_map; split.
  - intros (i & Hi & Ha); apply in_seq in Hi.
    apply in_offsets in Ha; destruct Ha as (k & Hk & ->).
    exists i, (nth i starts 0 + k); split; [lia|]; split; [lia | ring].
  - intros (i & j & Hi & Hj & ->).
    exists i; split; [apply in_seq; lia|].
    apply in_offsets; exists (j - nth i starts 0); split; [lia | ring].
Qed.

Lemma addresses_first (image rows cols r_stride c_stride : Z) :
  1 <= rows -> 1 <= cols ->
  exists rest, addresses image rows cols r_stride c_stride = image :: rest.
Proof.
  intros Hr Hc; unfold addresses.
  destruct (Z.to_nat rows) as [|n] eqn:En; [lia|].
  destruct (Z.to_nat cols) as [|m] eqn:Em; [lia|].
  rewrite offsets_S; cbn [flat_map]; rewrite offsets_S.
  eexists; reflexivity.
Qed.

Lemma samples_first {T : Type} (load : Z -> T)
    (image rows cols r_stride c_stride : Z) :
  1 <= rows -> 1 <= cols ->
  exists rest, samples load image rows cols r_stride c_stride = load image :: rest.
Proof.
  intros Hr Hc; unfold samples.
  destruct (addresses_first image rows cols r_stride c_stride Hr Hc) as [rest ->].
  eexists; reflexivity.
Qed.

Lemma masked_addresses_length (image rows r_stride c_stride : Z)
    (starts ends : list Z) (cols : Z) :
  mask_ok rows cols starts ends = true ->
  Z.of_nat (length (masked_addresses image rows r_stride c_stride starts ends))
  = span_total rows starts ends.
Proof.
  intros H; pose proof (mask_ok_spec _ _ _ _ H) as Hs.
  unfold masked_addresses, span_total.
  assert (G : forall n i, (i + n <= Z.to_nat rows)%nat ->
     Z.of_nat (length (flat_map
        (fun k => offsets (image + Z.of_nat k * r_stride + nth k starts 0 * c_stride)
                    c_stride (Z.to_nat (nth k ends 0 - nth k starts 0)))
        (seq i n)))
     = fold_right Z.add 0
         (map (fun k => nth k ends 0 - nth k starts 0) (seq i n))).
  { induction n as [|n IH]; intros i Hi; simpl; [reflexivity|].
    rewrite length_app, offsets_length, Nat2Z.inj_add, IH by lia.
    specialize (Hs i); lia. }
  apply G; lia.
Qed.

Lemma span_total_bound (rows cols : Z) (starts ends : list Z) :
  mask_ok rows cols starts ends = true -> 0 <= rows -> 0 <= cols ->
  0 <= span_total rows starts ends <= rows * cols.
Proof.
  intros H Hr Hc; pose proof (mask_ok_spec _ _ _ _ H) as Hs.
  unfold span_total.
  assert (G : forall n i, (i + n <= Z.to_nat rows)%nat ->
     0 <= fold_right Z.add 0
            (map (fun k => nth k ends 0 - nth k starts 0) (seq i n))
       <= Z.of_nat n * cols).
  { induction n as [|n IH]; intros i Hi; simpl fold_right; [lia|].
    specialize (IH (S i)); specialize (Hs i); nia. }
  specialize (G (Z.to_nat rows) O); rewrite Z2Nat.id in G by lia.
  apply G; lia.
Qed.

(** ** The full-scan oracle *)

Lemma true_min_spec (x : Z) (t : list Z) :
  In (true_min (x :: t)) (x :: t) /\ forall y, In y (x :: t) -> true_min (x :: t) <= y.
Proof.
  simpl true_min. induction t as [|a t [IHin IHle]]; simpl fold_right.
  - split; [left; reflexivity|]. intros y [<-|[]]; lia.
  - split.
    + destruct (Z.min_spec a (fold_right Z.min x t)) as [[_ ->]|[_ ->]].
      * right; left; reflexivity.
      * destruct IHin as [E|E]; [left; exact E | right; right; exact E].
    + intros y [<-|[<-|Hy]].
      * specialize (IHle x (or_introl eq_refl)); lia.
      * lia.
      * specialize (IHle y (or_intror Hy)); lia.
Qed.

Lemma true_max_spec (x : Z) (t : list Z) :
  In (true_max (x :: t)) (x :: t) /\ forall y, In y (x :: t) -> y <= true_max (x :: t).
Proof.
  simpl true_max. induction t as [|a t [IHin IHle]]; simpl fold_right.
  - split; [left; reflexivity|]. intros y [<-|[]]; lia.
  - split.
    + destruct (Z.max_spec a (fold_right Z.max x t)) as [[_ ->]|[_ ->]].
      * destruct IHin as [E|E]; [left; exact E | right; right; exact E].
      * right; left; reflexivity.
    + intros y [<-|[<-|Hy]].
      * specialize (IHle x (or_introl eq_refl)); lia.
      * lia.
      * specialize (IHle y (or_intror Hy)); lia.
Qed.

Lemma least_is_true_min (x : Z) (t : list Z) (m : Z) :
  least_of Z.ltb (x :: t) m -> m = true_min (x :: t).
Proof.
  intros [Hin Hle]; destruct (true_min_spec x t) as [Tin Tle].
  specialize (Hle _ Tin); specialize (Tle _ Hin).
  apply Z.ltb_ge in Hle; lia.
Qed.

Lemma greatest_is_true_max (x : Z) (t : list Z) (m : Z) :
  greatest_of Z.ltb (x :: t) m -> m = true_max (x :: t).
Proof.
  intros [Hin Hle]; destruct (true_max_spec x t) as [Tin Tle].
  specialize (Hle _ Tin); specialize (Tle _ Hin).
  apply Z.ltb_ge in Hle; lia.
Qed.

(** ** The kernels as folds *)

Lemma int_minmax_fold (x : Z) (t : list Z) :
  int_extrema x (x :: t)
    (fold_left (fun st v => minmax_step Z.ltb Z.gtb v st) (x :: t) (x, x)).
Proof.
  destruct (minmax_fold_extrema Z.ltb Z.gtb Z_gtb_ltb Z.ltb_irrefl Z_ltb_trans
              (x :: t) x (or_introl eq_refl)) as (Hmin & Hmax & Hspec).
  repeat split.
  - apply least_is_true_min, Hmin.
  - apply greatest_is_true_max, Hmax.
  - exact Hspec.
Qed.

Lemma float_minmax_fold (x : spec_float) (t : list spec_float) :
  float_extrema x (x :: t)
    (fold_left (fun st v => minmax_step F32.lt F32.gt v st) (x :: t) (x, x)).
Proof.
  destruct (minmax_fold_extrema F32.lt F32.gt F32_gt_lt F32_lt_irrefl F32_lt_trans
              (x :: t) x (or_introl eq_refl)) as (Hmin & Hmax & Hspec).
  repeat split; try (apply Hmin || apply Hmax || exact Hspec).
  - assert (Hn : forall z, In z (x :: t) -> F32.is_nan z = false).
    { rewrite forallb_forall in H; intros z Hz.
      specialize (H z Hz); destruct (F32.is_nan z); [discriminate|reflexivity]. }
    apply F32_lt_total; [apply Hn; exact H0 | apply Hn, Hmin |].
    apply Hmin; exact H0.
  - assert (Hn : forall z, In z (x :: t) -> F32.is_nan z = false).
    { rewrite forallb_forall in H; intros z Hz.
      specialize (H z Hz); destruct (F32.is_nan z); [discriminate|reflexivity]. }
    apply F32_lt_total; [apply Hn, Hmax | apply Hn; exact H0 |].
    apply Hmax; exact H0.
Qed.

(** A pass of in-bounds increments completes, whatever the counters hold. *)
Lemma fold_m_in_bounds (g : Z -> list Z -> outcome (list Z)) (idx : Z -> Z) :
  (forall p h, g p h = incr_bin h (idx p)) ->
  forall (ps : list Z) (h : list Z),
    (forall p, In p ps -> 0 <= idx p < Z.of_nat (length h)) ->
    exists h', fold_m g ps h = Done h' /\ length h' = length h.
Proof.
  intros Hg; induction ps as [|p l IH]; intros h Hidx.
  - exists h; split; reflexivity.
  - cbn [fold_m]; rewrite Hg, incr_bin_Done by (apply Hidx; left; reflexivity).
    cbn [bind].
    destruct (IH (bump h (Z.to_nat (idx p)))) as (h' & Hf & Hl).
    + intros q Hq; rewrite bump_length; apply Hidx; right; exact Hq.
    + exists h'; rewrite bump_length in Hl; auto.
Qed.

Lemma hist_uint8_pixel_split (mem : memory) (p : Z) (h : list Z) (mm : Z * Z) :
  hist_uint8_pixel mem p (h, mm)
  = (h' <- incr_bin h (load_u8 mem p) ;;
     Done (h', minmax_step Z.ltb Z.gtb (load_u8 mem p) mm)).
Proof. reflexivity. Qed.

Lemma hist_uint16_pixel_split (mem : memory) (shift p : Z) (h : list Z) (mm : Z * Z) :
  hist_uint16_pixel mem shift p (h, mm)
  = (h' <- incr_bin h (Z.shiftr (load_u16 mem p) shift) ;;
     Done (h', minmax_step Z.ltb Z.gtb (load_u16 mem p) mm)).
Proof. reflexivity. Qed.

Lemma sample_at_origin (image r_stride c_stride : Z) :
  sample_at image r_stride c_stride 0 0 = image.
Proof. unfold sample_at; lia. Qed.

(** ** min_max *)

(** C1, as amended.  For every non-empty image of a view the loops traverse
    in full ([view_ok]: non-zero strides, [rows * r_stride] and
    [cols * c_stride] below [2^32]) the min/max pass returns the true minimum
    and maximum of all [rows*cols] samples, and is the specification's pass
    seeded at the sample at (row 0, col 0) with strict comparisons: for
    [minmax_float], and for the 8- and 16-bit kernels, which compute the
    extrema alongside the histogram (given a buffer of the required
    length).  For floats the extrema are samples that no sample compares
    below or above; they bound every sample when none is a NaN. *)
Theorem min_max_true_extrema (mem : memory) (image rows cols r_stride c_stride : Z) :
  view_ok rows cols r_stride c_stride = true -> 1 <= rows -> 1 <= cols ->
  (exists mm,
      minmax_float mem image rows cols r_stride c_stride = Done mm
      /\ float_extrema (load_f32 mem (sample_at image r_stride c_stride 0 0))
           (samples (load_f32 mem) image rows cols r_stride c_stride) mm)
  /\ (forall histogram, length histogram = 256%nat ->
      exists h mm,
        hist_uint8 mem image rows cols r_stride c_stride histogram = Done (h, mm)
        /\ int_extrema (load_u8 mem (sample_at image r_stride c_stride 0 0))
             (samples (load_u8 mem) image rows cols r_stride c_stride) mm)
  /\ (forall histogram shift, 0 <= shift <= 16 ->
      length histogram = Z.to_nat (2 ^ (16 - shift)) ->
      exists h mm,
        hist_uint16 mem image rows cols r_stride c_stride histogram shift
        = Done (h, mm)
        /\ int_extrema (load_u16 mem (sample_at image r_stride c_stride 0 0))
             (samples (load_u16 mem) image rows cols r_stride c_stride) mm).
Proof.
  intros Hv Hr Hc; rewrite !sample_at_origin.
  split; [|split].
  - unfold minmax_float; rewrite scan_fold by exact Hv.
    unfold minmax_float_pixel; rewrite fold_m_pure.
    eexists; split; [reflexivity|].
    fold (samples (load_f32 mem) image rows cols r_stride c_stride).
    destruct (samples_first (load_f32 mem) image rows cols r_stride c_stride Hr Hc)
      as [rest ->].
    apply float_minmax_fold.
  - intros histogram Hlen.
    unfold hist_uint8; rewrite scan_fold by exact Hv.
    rewrite (fold_m_hist_split _ _ _ (hist_uint8_pixel_split mem)).
    destruct (fold_m_in_bounds (fun p h => incr_bin h (load_u8 mem p))
                (load_u8 mem) (fun _ _ => eq_refl)
                (addresses image rows cols r_stride c_stride) histogram)
      as (h' & -> & _).
    { intros p _; rewrite Hlen; pose proof (load_u8_range mem p); lia. }
    cbn [bind]; do 2 eexists; split; [reflexivity|].
    fold (samples (load_u8 mem) image rows cols r_stride c_stride).
    destruct (samples_first (load_u8 mem) image rows cols r_stride c_stride Hr Hc)
      as [rest ->].
    apply int_minmax_fold.
  - intros histogram shift Hs Hlen.
    unfold hist_uint16; rewrite scan_fold by exact Hv.
    rewrite (fold_m_hist_split _ _ _ (hist_uint16_pixel_split mem shift)).
    destruct (fold_m_in_bounds
                (fun p h => incr_bin h (Z.shiftr (load_u16 mem p) shift))
                (fun p => Z.shiftr (load_u16 mem p) shift) (fun _ _ => eq_refl)
                (addresses image rows cols r_stride c_stride) histogram)
      as (h' & -> & _).
    { intros p _; rewrite Hlen, Z2Nat.id by (apply Z.pow_nonneg; lia).
      apply shiftr_range; [exact Hs | apply load_u16_range]. }
    cbn [bind]; do 2 eexists; split; [reflexivity|].
    fold (samples (load_u16 mem) image rows cols r_stride c_stride).
    destruct (samples_first (load_u16 mem) image rows cols r_stride c_stride Hr Hc)
      as [rest ->].
    apply int_minmax_fold.
Qed.

(** The claim C1 as stated, for every non-empty image, fails on views the
    loops do not traverse in full.  With a zero row stride (two rows over
    the bytes [5, 3]) the row loop starts at its end pointer and runs no
    iteration: [hist_uint8] returns the seed [5] as minimum although the
    sample [3] is in the image, and [minmax_float] returns [1.0] although
    [-0.5] is.  With a row extent that wraps ([cols = 4097],
    [c_stride = 2^20], so that [cols * c_stride] is [2^20] modulo [2^32])
    the row loop stops after the first sample and misses the [3] of the
    second. *)
Lemma min_max_true_extrema_counterexample :
  ~ (forall (mem : memory) (image rows cols r_stride c_stride : Z),
        1 <= rows < 2 ^ 16 -> 1 <= cols < 2 ^ 16 ->
        0 <= r_stride < 2 ^ 32 -> 0 <= c_stride < 2 ^ 32 ->
        exists h mm,
          hist_uint8 mem image rows cols r_stride c_stride (zeroed 256)
          = Done (h, mm)
          /\ fst mm
             = true_min (samples (load_u8 mem) image rows cols r_stride c_stride))
  /\ (let mem := mem_of_bytes [0; 0; 128; 63; 0; 0; 0; 191] in
      minmax_float mem 0 2 2 0 4 = Done (load_f32 mem 0, load_f32 mem 0)
      /\ In (load_f32 mem 4) (samples (load_f32 mem) 0 2 2 0 4)
      /\ F32.lt (load_f32 mem 4) (load_f32 mem 0) = true)
  /\ (let mem := fun p => if p =? 2 ^ 20 then 3 else 5 in
      hist_uint8 mem 0 1 4097 1 (2 ^ 20) (zeroed 256)
      = Done (bump (zeroed 256) 5, (5, 5))
      /\ true_min (samples (load_u8 mem) 0 1 4097 1 (2 ^ 20)) = 3).
Proof.
  split; [|split].
  - intros H.
    destruct (H (mem_of_bytes [5; 3]) 0 2 2 0 1) as (h & mm & E & Hm); try lia.
    vm_compute in E; inversion E; subst.
    vm_compute in Hm; discriminate Hm.
  - split; [vm_compute; reflexivity|]; split; [|vm_compute; reflexivity].
    vm_compute; right; left; reflexivity.
  - split; vm_compute; reflexivity.
Qed.

(** ** The fixed (natural-range) histograms *)

(** On a zeroed buffer that holds every index the pass can produce, a pass
    that increments one bin per address ends with the bins summing to the
    number of addresses. *)
Lemma fixed_pass_total (idx : Z -> Z) (ps : list Z) (n : nat) :
  (forall p, 0 <= idx p < Z.of_nat n) ->
  Z.of_nat (length ps) < 2 ^ 32 ->
  exists h',
    fold_m (fun p h => incr_bin h (idx p)) ps (zeroed n) = Done h'
    /\ length h' = n /\ bin_total h' = Z.of_nat (length ps).
Proof.
  intros Hidx Hlen.
  destruct (fold_m_count (fun p h => incr_bin h (idx p)) (fun p => Some (idx p))
              (fun _ _ => eq_refl) ps (zeroed n)) as (h' & Hf & Hl & _ & Ht).
  - apply zeroed_nonneg.
  - intros p i _ E; inversion E; subst; rewrite zeroed_length; apply Hidx.
  - rewrite zeroed_total; lia.
  - exists h'; rewrite zeroed_length in Hl; rewrite zeroed_total in Ht.
    repeat split; auto.
    rewrite Ht; simpl; f_equal.
    clear; induction ps; simpl; auto.
Qed.

Lemma view_samples_bound (rows cols r_stride c_stride : Z) :
  view_ok rows cols r_stride c_stride = true ->
  0 <= rows /\ 0 <= cols /\ rows * cols < 2 ^ 32.
Proof.
  intros H; apply view_ok_spec in H; nia.
Qed.

(** C2, as amended.  On a view the loops traverse in full ([view_ok]:
    non-zero strides, [rows * r_stride] and [cols * c_stride] below [2^32])
    and a caller-zeroed histogram of the required length (256 bins for 8-bit
    samples, [2^(16-shift)] for 16-bit samples) the fixed-range kernels
    complete with the bins summing to the number of active samples:
    [rows*cols] without a mask, the sum of the span lengths
    [ends[i] - starts[i]] with a well-formed one ([mask_ok]: one span per
    row, [0 <= starts[i] <= ends[i] <= cols]). *)
Theorem fixed_histogram_sum (mem : memory) (image rows cols r_stride c_stride : Z) :
  view_ok rows cols r_stride c_stride = true ->
  (exists h mm,
      hist_uint8 mem image rows cols r_stride c_stride (zeroed 256) = Done (h, mm)
      /\ bin_total h = rows * cols)
  /\ (forall shift, 0 <= shift <= 16 ->
      exists h mm,
        hist_uint16 mem image rows cols r_stride c_stride
          (zeroed (Z.to_nat (2 ^ (16 - shift)))) shift = Done (h, mm)
        /\ bin_total h = rows * cols)
  /\ (forall starts ends, mask_ok rows cols starts ends = true ->
      (exists h mm,
          masked_hist_uint8 mem image rows cols r_stride c_stride starts ends
            (zeroed 256) = Done (h, mm)
          /\ bin_total h = span_total rows starts ends)
      /\ (forall shift, 0 <= shift <= 16 ->
          exists h mm,
            masked_hist_uint16 mem image rows cols r_stride c_stride starts ends
              (zeroed (Z.to_nat (2 ^ (16 - shift)))) shift = Done (h, mm)
            /\ bin_total h = span_total rows starts ends)).
Proof.
  intros Hv; destruct (view_samples_bound _ _ _ _ Hv) as (Hr & Hc & Hrc).
  assert (H8 : forall p, 0 <= load_u8 mem p < Z.of_nat 256)
    by (intros p; pose proof (load_u8_range mem p); lia).
  assert (H16 : forall shift, 0 <= shift <= 16 -> forall p,
             0 <= Z.shiftr (load_u16 mem p) shift
             < Z.of_nat (Z.to_nat (2 ^ (16 - shift)))).
  { intros shift Hs p; rewrite Z2Nat.id by (apply Z.pow_nonneg; lia).
    apply shiftr_range; [exact Hs | apply load_u16_range]. }
  split; [|split].
  - unfold hist_uint8; rewrite scan_fold by exact Hv.
    rewrite (fold_m_hist_split _ _ _ (hist_uint8_pixel_split mem)).
    destruct (fixed_pass_total (load_u8 mem)
                (addresses image rows cols r_stride c_stride) 256 H8)
      as (h' & -> & _ & Ht).
    { rewrite addresses_length; lia. }
    cbn [bind]; do 2 eexists; split; [reflexivity|].
    rewrite Ht; apply addresses_length; lia.
  - intros shift Hs.
    unfold hist_uint16; rewrite scan_fold by exact Hv.
    rewrite (fold_m_hist_split _ _ _ (hist_uint16_pixel_split mem shift)).
    destruct (fixed_pass_total (fun p => Z.shiftr (load_u16 mem p) shift)
                (addresses image rows cols r_stride c_stride) _ (H16 shift Hs))
      as (h' & -> & _ & Ht).
    { rewrite addresses_length; lia. }
    cbn [bind]; do 2 eexists; split; [reflexivity|].
    rewrite Ht; apply addresses_length; lia.
  - intros starts ends Hm.
    pose proof (masked_addresses_length image rows r_stride c_stride starts ends
                  cols Hm) as Hl.
    pose proof (span_total_bound rows cols starts ends Hm Hr Hc) as Hb.
    split.
    + unfold masked_hist_uint8; rewrite (masked_scan_fold _ _ _ _ _ _ _ _ Hv Hm).
      rewrite (fold_m_hist_split _ _ _ (hist_uint8_pixel_split mem)).
      destruct (fixed_pass_total (load_u8 mem)
                  (masked_addresses image rows r_stride c_stride starts ends)
                  256 H8) as (h' & -> & _ & Ht); [lia|].
      cbn [bind]; do 2 eexists; split; [reflexivity | lia].
    + intros shift Hs.
      unfold masked_hist_uint16; rewrite (masked_scan_fold _ _ _ _ _ _ _ _ Hv Hm).
      rewrite (fold_m_hist_split _ _ _ (hist_uint16_pixel_split mem shift)).
      destruct (fixed_pass_total (fun p => Z.shiftr (load_u16 mem p) shift)
                  (masked_addresses image rows r_stride c_stride starts ends)
                  _ (H16 shift Hs)) as (h' & -> & _ & Ht); [lia|].
      cbn [bind]; do 2 eexists; split; [reflexivity | lia].
Qed.

(** The claim C2 as stated, for every image, fails on views the loops do not
    traverse in full.  With a zero row stride the row loop runs no iteration
    and the kernels return the zeroed histogram: bin sum 0 for the 2 x 2
    samples of [hist_uint16], and for the 4 active samples of
    [masked_hist_uint8] under the full mask.  With a row extent that wraps
    ([cols = 4097], [c_stride = 2^20]) [hist_uint8] counts one sample of
    4097. *)
Lemma fixed_histogram_sum_counterexample :
  ~ (forall (mem : memory) (image rows cols r_stride c_stride : Z),
        0 <= rows < 2 ^ 16 -> 0 <= cols < 2 ^ 16 ->
        0 <= r_stride < 2 ^ 32 -> 0 <= c_stride < 2 ^ 32 ->
        exists h mm,
          hist_uint16 mem image rows cols r_stride c_stride (zeroed 256) 8
          = Done (h, mm)
          /\ bin_total h = rows * cols)
  /\ (let mem := mem_of_bytes [5; 3] in
      mask_ok 2 2 [0; 0] [2; 2] = true
      /\ span_total 2 [0; 0] [2; 2] = 4
      /\ masked_hist_uint8 mem 0 2 2 0 1 [0; 0] [2; 2] (zeroed 256)
         = Done (zeroed 256, (5, 5))
      /\ bin_total (zeroed 256) = 0)
  /\ (let mem := fun _ : Z => 5 in
      hist_uint8 mem 0 1 4097 1 (2 ^ 20) (zeroed 256)
      = Done (bump (zeroed 256) 5, (5, 5))
      /\ bin_total (bump (zeroed 256) 5) = 1).
Proof.
  split; [|split].
  - intros H.
    destruct (H (mem_of_bytes [5; 0; 3; 0]) 0 2 2 0 2) as (h & mm & E & Ht);
      try lia.
    vm_compute in E; inversion E; subst.
    vm_compute in Ht; discriminate Ht.
  - repeat split; vm_compute; reflexivity.
  - split; vm_compute; reflexivity.
Qed.

(** ** Invariants through the loop nests *)

Section NestInvariants.

Context {St : Type}.
Variable P : St -> Prop.
Variable body : Z -> St -> outcome St.
Hypothesis body_inv : forall p s s', P s -> body p s = Done s' -> P s'.

Lemma scan_inv (image rows cols r_stride c_stride : Z) (s s' : St) :
  P s -> scan image rows cols r_stride c_stride body s = Done s' -> P s'.
Proof.
  unfold scan; apply ptr_loop_inv.
  intros row_start s0 s1; apply ptr_loop_inv; exact body_inv.
Qed.

Lemma masked_scan_inv (image rows cols r_stride c_stride : Z)
    (starts ends : list Z) (s s' : St) :
  P s ->
  masked_scan image rows cols r_stride c_stride starts ends body s = Done s' ->
  P s'.
Proof.
  unfold masked_scan; intros Hs H.
  apply bind_Done_inv in H; destruct H as ([i s1] & H & E).
  inversion E; subst; cbn [snd].
  refine (ptr_loop_inv (fun st : nat * St => P (snd st)) _ _ _ _ _ _ _ _ _ H);
    [|exact Hs].
  intros p [k s0] [k' s0'] Hs0 Hb; cbn [snd] in *.
  apply bind_Done_inv in Hb; destruct Hb as (s2 & Hb & E2).
  inversion E2; subst.
  eapply ptr_loop_inv; [exact body_inv | exact Hs0 | exact Hb].
Qed.

Hypothesis body_in_bounds : forall p s, P s -> body p s <> OutOfBounds.

Lemma scan_in_bounds (image rows cols r_stride c_stride : Z) (s : St) :
  P s -> scan image rows cols r_stride c_stride body s <> OutOfBounds.
Proof.
  unfold scan; apply ptr_loop_in_bounds.
  - intros row_start s0 s1; apply ptr_loop_inv; exact body_inv.
  - intros row_start s0; apply ptr_loop_in_bounds; assumption.
Qed.

Lemma masked_scan_in_bounds (image rows cols r_stride c_stride : Z)
    (starts ends : list Z) (s : St) :
  P s ->
  masked_scan image rows cols r_stride c_stride starts ends body s
  <> OutOfBounds.
Proof.
  unfold masked_scan; intros Hs H.
  match type of H with bind ?c _ = _ => destruct c as [r| | |] eqn:E end;
    try discriminate.
  revert E.
  apply (ptr_loop_in_bounds (fun st : nat * St => P (snd st))); [| |exact Hs].
  - intros p [k s0] [k' s0'] Hs0 Hb; cbn [snd] in *.
    apply bind_Done_inv in Hb; destruct Hb as (s2 & Hb & E2).
    inversion E2; subst.
    eapply ptr_loop_inv; [exact body_inv | exact Hs0 | exact Hb].
  - intros p [k s0] Hs0 Hb; cbn [snd] in Hs0.
    pose proof (ptr_loop_in_bounds P body body_inv body_in_bounds max_iter
                  (p + u32 (nth k starts 0 * c_stride))
                  (p + u32 (nth k ends 0 * c_stride)) c_stride s0 Hs0) as Hn.
    destruct (ptr_loop max_iter _ _ c_stride body s0);
      [discriminate Hb | apply Hn; reflexivity
       | discriminate Hb | discriminate Hb].
Qed.

End NestInvariants.

(** ** Bounds of the fixed-path stores *)

Lemma incr_bin_in_bounds (h : list Z) (i : Z) :
  0 <= i < Z.of_nat (length h) -> incr_bin h i <> OutOfBounds.
Proof. intros H; rewrite incr_bin_Done by exact H; discriminate. Qed.

Lemma hist_uint8_pixel_length (mem : memory) (p : Z) (s s' : hist_state) :
  hist_uint8_pixel mem p s = Done s' -> length (fst s') = length (fst s).
Proof.
  destruct s as [h mm]; rewrite hist_uint8_pixel_split; intros H.
  apply bind_Done_inv in H; destruct H as (h' & H & E); inversion E; subst.
  simpl; eapply incr_bin_length; eauto.
Qed.

Lemma hist_uint16_pixel_length (mem : memory) (shift p : Z) (s s' : hist_state) :
  hist_uint16_pixel mem shift p s = Done s' -> length (fst s') = length (fst s).
Proof.
  destruct s as [h mm]; rewrite hist_uint16_pixel_split; intros H.
  apply bind_Done_inv in H; destruct H as (h' & H & E); inversion E; subst.
  simpl; eapply incr_bin_length; eauto.
Qed.

Lemma hist_uint8_pixel_in_bounds (mem : memory) (p : Z) (s : hist_state) :
  length (fst s) = 256%nat -> hist_uint8_pixel mem p s <> OutOfBounds.
Proof.
  destruct s as [h mm]; cbn [fst]; intros Hl; rewrite hist_uint8_pixel_split.
  rewrite incr_bin_Done; [discriminate|].
  rewrite Hl; pose proof (load_u8_range mem p); lia.
Qed.

Lemma hist_uint16_pixel_in_bounds (mem : memory) (shift p : Z) (s : hist_state) :
  0 <= shift <= 16 -> length (fst s) = Z.to_nat (2 ^ (16 - shift)) ->
  hist_uint16_pixel mem shift p s <> OutOfBounds.
Proof.
  destruct s as [h mm]; cbn [fst]; intros Hs Hl; rewrite hist_uint16_pixel_split.
  rewrite incr_bin_Done; [discriminate|].
  rewrite Hl, Z2Nat.id by (apply Z.pow_nonneg; lia).
  apply shiftr_range; [exact Hs | apply load_u16_range].
Qed.

(** C9. Every store of the fixed-path kernels is at index [value >> shift]
    (shift 0 for 8-bit samples), which is below [2^(w - shift)] for samples of
    width [w]; so with a histogram of [2^(w - shift)] bins (256 for 8-bit
    samples) no kernel run, masked or not, on any image, ever stores out of
    bounds. *)
Theorem fixed_histogram_in_bounds (mem : memory) (histogram : list Z) (shift : Z) :
  0 <= shift <= 16 ->
  (forall w s v, 0 <= s <= w -> 0 <= v < 2 ^ w ->
                 0 <= Z.shiftr v s < 2 ^ (w - s))
  /\ (forall p mm,
      hist_uint8_pixel mem p (histogram, mm)
      = (h' <- incr_bin histogram (Z.shiftr (load_u8 mem p) 0) ;;
         Done (h', minmax_step Z.ltb Z.gtb (load_u8 mem p) mm))
      /\ 0 <= Z.shiftr (load_u8 mem p) 0 < 2 ^ (8 - 0))
  /\ (forall p mm,
      hist_uint16_pixel mem shift p (histogram, mm)
      = (h' <- incr_bin histogram (Z.shiftr (load_u16 mem p) shift) ;;
         Done (h', minmax_step Z.ltb Z.gtb (load_u16 mem p) mm))
      /\ 0 <= Z.shiftr (load_u16 mem p) shift < 2 ^ (16 - shift))
  /\ (forall image rows cols r_stride c_stride starts ends,
      (length histogram = Z.to_nat (2 ^ (8 - 0)) ->
       hist_uint8 mem image rows cols r_stride c_stride histogram <> OutOfBounds
       /\ masked_hist_uint8 mem image rows cols r_stride c_stride starts ends
            histogram <> OutOfBounds)
      /\ (length histogram = Z.to_nat (2 ^ (16 - shift)) ->
          hist_uint16 mem image rows cols r_stride c_stride histogram shift
          <> OutOfBounds
          /\ masked_hist_uint16 mem image rows cols r_stride c_stride starts ends
               histogram shift <> OutOfBounds)).
Proof.
  intros Hs; split; [|split; [|split]].
  - intros w s v; apply shiftr_range.
  - intros p mm; split; [reflexivity|].
    apply shiftr_range; [lia | apply load_u8_range].
  - intros p mm; split; [reflexivity|].
    apply shiftr_range; [exact Hs | apply load_u16_range].
  - intros image rows cols r_stride c_stride starts ends; split; intros Hl.
    + change (Z.to_nat (2 ^ (8 - 0))) with 256%nat in Hl.
      split.
      * apply (scan_in_bounds (fun s : hist_state => length (fst s) = 256%nat));
          [| |exact Hl].
        -- intros p s s' H E; rewrite (hist_uint8_pixel_length _ _ _ _ E); exact H.
        -- intros p s; apply hist_uint8_pixel_in_bounds.
      * apply (masked_scan_in_bounds
                 (fun s : hist_state => length (fst s) = 256%nat)); [| |exact Hl].
        -- intros p s s' H E; rewrite (hist_uint8_pixel_length _ _ _ _ E); exact H.
        -- intros p s; apply hist_uint8_pixel_in_bounds.
    + split.
      * apply (scan_in_bounds
                 (fun s : hist_state =>
                    length (fst s) = Z.to_nat (2 ^ (16 - shift)))); [| |exact Hl].
        -- intros p s s' H E; rewrite (hist_uint16_pixel_length _ _ _ _ _ E); exact H.
        -- intros p s; apply hist_uint16_pixel_in_bounds; exact Hs.
      * apply (masked_scan_in_bounds
                 (fun s : hist_state =>
                    length (fst s) = Z.to_nat (2 ^ (16 - shift)))); [| |exact Hl].
        -- intros p s s' H E; rewrite (hist_uint16_pixel_length _ _ _ _ _ E); exact H.
        -- intros p s; apply hist_uint16_pixel_in_bounds; exact Hs.
Qed.

(** ** The invariant [working_min <= working_max] *)

Lemma int_minmax_step (v mn mx : Z) :
  mn <= mx -> minmax_step Z.ltb Z.gtb v (mn, mx) = (Z.min v mn, Z.max v mx).
Proof.
  intros H; unfold minmax_step; rewrite Z.gtb_ltb.
  destruct (Z.ltb_spec v mn); [|destruct (Z.ltb_spec mx v)]; f_equal; lia.
Qed.

Lemma int_minmax_step_le (v : Z) (mm : Z * Z) :
  fst mm <= snd mm ->
  fst (minmax_step Z.ltb Z.gtb v mm) <= snd (minmax_step Z.ltb Z.gtb v mm).
Proof.
  destruct mm as [mn mx]; cbn [fst snd]; intros H.
  rewrite int_minmax_step by exact H; cbn [fst snd]; lia.
Qed.

Lemma int_minmax_trace_le (samples : list Z) (mm : Z * Z) :
  fst mm <= snd mm ->
  Forall (fun st => fst st <= snd st) (minmax_trace Z.ltb Z.gtb mm samples).
Proof.
  revert mm; induction samples as [|v l IH]; intros mm H; cbn [minmax_trace];
    constructor.
  - apply int_minmax_step_le, H.
  - apply IH, int_minmax_step_le, H.
Qed.

(** Each integer pixel body updates the working pair by [minmax_step]. *)
Lemma hist_uint8_pixel_minmax (mem : memory) (p : Z) (s s' : hist_state) :
  hist_uint8_pixel mem p s = Done s' ->
  snd s' = minmax_step Z.ltb Z.gtb (load_u8 mem p) (snd s).
Proof.
  destruct s as [h mm]; unfold hist_uint8_pixel; intros H.
  apply bind_Done_inv in H; destruct H as (h' & _ & E); inversion E; reflexivity.
Qed.

Lemma ranged_hist_uint8_pixel_minmax (mem : memory) (hist_min hist_max p : Z)
    (s s' : hist_state) :
  ranged_hist_uint8_pixel mem hist_min hist_max p s = Done s' ->
  snd s' = minmax_step Z.ltb Z.gtb (load_u8 mem p) (snd s).
Proof.
  destruct s as [h mm]; unfold ranged_hist_uint8_pixel; intros H.
  apply bind_Done_inv in H; destruct H as (h' & _ & E); inversion E; reflexivity.
Qed.

Lemma hist_uint16_pixel_minmax (mem : memory) (shift p : Z) (s s' : hist_state) :
  hist_uint16_pixel mem shift p s = Done s' ->
  snd s' = minmax_step Z.ltb Z.gtb (load_u16 mem p) (snd s).
Proof.
  destruct s as [h mm]; unfold hist_uint16_pixel; intros H.
  apply bind_Done_inv in H; destruct H as (h' & _ & E); inversion E; reflexivity.
Qed.

Lemma ranged_hist_uint16_pixel_minmax (mem : memory) (bin_factor : spec_float)
    (last_bin hist_min hist_max p : Z) (s s' : hist_state) :
  ranged_hist_uint16_pixel mem bin_factor last_bin hist_min hist_max p s = Done s' ->
  snd s' = minmax_step Z.ltb Z.gtb (load_u16 mem p) (snd s).
Proof.
  destruct s as [h mm]; unfold ranged_hist_uint16_pixel; intros H.
  apply bind_Done_inv in H; destruct H as (h' & _ & E); inversion E; reflexivity.
Qed.

(** The invariant as a predicate on the state of the integer kernels. *)
Lemma ordered_pixel (body : Z -> hist_state -> outcome hist_state) (load : Z -> Z) :
  (forall p s s', body p s = Done s' ->
                  snd s' = minmax_step Z.ltb Z.gtb (load p) (snd s)) ->
  forall p s s',
    fst (snd s) <= snd (snd s) -> body p s = Done s' ->
    fst (snd s') <= snd (snd s').
Proof.
  intros Hb p s s' H E; rewrite (Hb p s s' E); apply int_minmax_step_le, H.
Qed.

(** C10. In the integer kernels [working_min <= working_max] holds after
    every per-sample update of a scan seeded with one sample for both; while
    it holds the update is [min := min(val, min)], [max := max(val, max)], so
    the minimum only decreases, the maximum only increases and the [else if]
    misses no update of the maximum; and every integer kernel that returns
    returns [min <= max]. *)
Theorem working_min_le_max :
  (forall seed samples,
      Forall (fun st => fst st <= snd st)
        (minmax_trace Z.ltb Z.gtb (seed, seed) samples))
  /\ (forall v mn mx,
      mn <= mx ->
      minmax_step Z.ltb Z.gtb v (mn, mx) = (Z.min v mn, Z.max v mx))
  /\ (forall mem image rows cols r_stride c_stride starts ends histogram
        shift n_bins hist_min hist_max h mm,
      In (Done (h, mm))
        [ hist_uint8 mem image rows cols r_stride c_stride histogram;
          ranged_hist_uint8 mem image rows cols r_stride c_stride histogram
            hist_min hist_max;
          masked_hist_uint8 mem image rows cols r_stride c_stride starts ends
            histogram;
          masked_ranged_hist_uint8 mem image rows cols r_stride c_stride
            starts ends histogram hist_min hist_max;
          hist_uint16 mem image rows cols r_stride c_stride histogram shift;
          ranged_hist_uint16 mem image rows cols r_stride c_stride histogram
            n_bins hist_min hist_max;
          masked_hist_uint16 mem image rows cols r_stride c_stride starts ends
            histogram shift;
          masked_ranged_hist_uint16 mem image rows cols r_stride c_stride
            starts ends histogram n_bins hist_min hist_max ] ->
      fst mm <= snd mm).
Proof.
  split; [|split].
  - intros seed samples; apply int_minmax_trace_le; cbn [fst snd]; lia.
  - exact int_minmax_step.
  - intros mem image rows cols r_stride c_stride starts ends histogram
      shift n_bins hist_min hist_max h mm Hin.
    change (fst (snd (h, mm)) <= snd (snd (h, mm))).
    cbn [In] in Hin.
    destruct Hin as [H|[H|[H|[H|[H|[H|[H|[H|[]]]]]]]]]; revert H;
      unfold hist_uint8, ranged_hist_uint8, masked_hist_uint8,
        masked_ranged_hist_uint8, hist_uint16, ranged_hist_uint16,
        masked_hist_uint16, masked_ranged_hist_uint16.
    + apply (scan_inv (fun s : hist_state => fst (snd s) <= snd (snd s)));
        [apply (ordered_pixel _ _ (hist_uint8_pixel_minmax mem))
        | cbn [fst snd]; lia].
    + apply (scan_inv (fun s : hist_state => fst (snd s) <= snd (snd s)));
        [apply (ordered_pixel _ _
                  (ranged_hist_uint8_pixel_minmax mem hist_min hist_max))
        | cbn [fst snd]; lia].
    + apply (masked_scan_inv (fun s : hist_state => fst (snd s) <= snd (snd s)));
        [apply (ordered_pixel _ _ (hist_uint8_pixel_minmax mem))
        | cbn [fst snd]; lia].
    + apply (masked_scan_inv (fun s : hist_state => fst (snd s) <= snd (snd s)));
        [apply (ordered_pixel _ _
                  (ranged_hist_uint8_pixel_minmax mem hist_min hist_max))
        | cbn [fst snd]; lia].
    + apply (scan_inv (fun s : hist_state => fst (snd s) <= snd (snd s)));
        [apply (ordered_pixel _ _ (hist_uint16_pixel_minmax mem shift))
        | cbn [fst snd]; lia].
    + apply (scan_inv (fun s : hist_state => fst (snd s) <= snd (snd s)));
        [apply (ordered_pixel _ _
                  (ranged_hist_uint16_pixel_minmax mem _ _ hist_min hist_max))
        | cbn [fst snd]; lia].
    + apply (masked_scan_inv (fun s : hist_state => fst (snd s) <= snd (snd s)));
        [apply (ordered_pixel _ _ (hist_uint16_pixel_minmax mem shift))
        | cbn [fst snd]; lia].
    + apply (masked_scan_inv (fun s : hist_state => fst (snd s) <= snd (snd s)));
        [apply (ordered_pixel _ _
                  (ranged_hist_uint16_pixel_minmax mem _ _ hist_min hist_max))
        | cbn [fst snd]; lia].
Qed.

(** ** Masks *)

Lemma flat_map_seq_ext {A : Type} (f g : nat -> list A) (n i : nat) :
  (forall k, (i <= k < i + n)%nat -> f k = g k) ->
  flat_map f (seq i n) = flat_map g (seq i n).
Proof.
  revert i; induction n as [|n IH]; intros i H; simpl; [reflexivity|].
  rewrite (H i) by lia; f_equal; apply IH; intros k Hk; apply H; lia.
Qed.

Lemma flat_map_offsets (f : Z -> list Z) (p stride : Z) (n : nat) :
  flat_map f (offsets p stride n)
  = flat_map (fun k => f (p + Z.of_nat k * stride)) (seq 0 n).
Proof.
  unfold offsets; generalize (seq 0 n); intros l.
  induction l as [|k l IH]; simpl; [reflexivity | rewrite IH; reflexivity].
Qed.

Lemma full_mask_ok (rows cols : Z) :
  0 <= rows -> 0 <= cols ->
  mask_ok rows cols (fst (full_mask rows cols)) (snd (full_mask rows cols)) = true.
Proof.
  intros Hr Hc; unfold mask_ok, full_mask; cbn [fst snd].
  rewrite !repeat_length, Z2Nat.id, Z.eqb_refl by exact Hr; cbn [andb].
  apply forallb_forall; intros i Hi; apply in_seq in Hi.
  unfold span_ok.
  rewrite nth_repeat, (nth_repeat_lt cols) by lia.
  apply Z.leb_le in Hc; rewrite Hc; simpl; rewrite Z.leb_refl; reflexivity.
Qed.

(** The full mask addresses the same samples as no mask, in the same
    order. *)
Lemma full_mask_addresses (image rows cols r_stride c_stride : Z) :
  masked_addresses image rows r_stride c_stride
    (fst (full_mask rows cols)) (snd (full_mask rows cols))
  = addresses image rows cols r_stride c_stride.
Proof.
  unfold masked_addresses, addresses, full_mask; cbn [fst snd].
  rewrite flat_map_offsets.
  apply flat_map_seq_ext; intros k Hk.
  rewrite nth_repeat, (nth_repeat_lt cols) by lia.
  f_equal; lia.
Qed.

Lemma full_mask_first (rows cols : Z) : nth 0 (fst (full_mask rows cols)) 0 = 0.
Proof. unfold full_mask; cbn [fst]; apply nth_repeat. Qed.

(** A mask whose every span is empty addresses no sample. *)
Lemma empty_mask_addresses (image rows r_stride c_stride : Z) (starts : list Z) :
  masked_addresses image rows r_stride c_stride starts starts = [].
Proof.
  unfold masked_addresses; generalize (seq 0 (Z.to_nat rows)); intros l.
  induction l as [|k l IH]; simpl; [reflexivity|].
  rewrite Z.sub_diag; simpl; exact IH.
Qed.

(** ** masked_min_max against min_max *)

(** C7. For every non-empty image, [masked_minmax_float] under the mask whose
    every row span is the full row [[0, cols)] returns exactly the (min, max)
    pair of [minmax_float]; the masked 8- and 16-bit kernels likewise return
    what their unmasked kernels return. *)
Theorem masked_full_equals_unmasked (mem : memory)
    (image rows cols r_stride c_stride : Z) :
  view_ok rows cols r_stride c_stride = true -> 1 <= rows -> 1 <= cols ->
  let starts := fst (full_mask rows cols) in
  let ends := snd (full_mask rows cols) in
  masked_minmax_float mem image rows cols r_stride c_stride starts ends
  = minmax_float mem image rows cols r_stride c_stride
  /\ (forall histogram,
      masked_hist_uint8 mem image rows cols r_stride c_stride starts ends histogram
      = hist_uint8 mem image rows cols r_stride c_stride histogram)
  /\ (forall histogram shift,
      masked_hist_uint16 mem image rows cols r_stride c_stride starts ends
        histogram shift
      = hist_uint16 mem image rows cols r_stride c_stride histogram shift).
Proof.
  intros Hv Hr Hc starts ends.
  assert (Hm : mask_ok rows cols starts ends = true)
    by (apply full_mask_ok; lia).
  assert (H0 : image + u32 (nth 0 starts 0 * c_stride) = image).
  { unfold starts; rewrite full_mask_first, Z.mul_0_l.
    change (u32 0) with 0; lia. }
  split; [|split]; intros;
    unfold masked_minmax_float, minmax_float, masked_hist_uint8, hist_uint8,
      masked_hist_uint16, hist_uint16;
    rewrite H0, (masked_scan_fold _ _ _ _ _ _ _ _ Hv Hm), scan_fold by exact Hv;
    unfold starts, ends; rewrite full_mask_addresses; reflexivity.
Qed.

(** ** The seed of the masked kernels *)


(** The masked kernels read their seed at (row 0, column [starts[0]]). *)
Lemma masked_seed_address (image rows cols r_stride c_stride : Z)
    (starts ends : list Z) :
  view_ok rows cols r_stride c_stride = true ->
  mask_ok rows cols starts ends = true ->
  image + u32 (nth 0 starts 0 * c_stride)
  = sample_at image r_stride c_stride 0 (nth 0 starts 0).
Proof.
  intros Hv Hm; unfold sample_at.
  destruct (view_ok_spec _ _ _ _ Hv) as (Hr & Hc & Hrs & Hcs & Hro & Hco).
  assert (H : 0 <= nth 0 starts 0 <= cols).
  { destruct (Z.eq_dec rows 0) as [E|E].
    - unfold mask_ok in Hm; apply andb_prop in Hm; destruct Hm as [Hm _].
      apply andb_prop in Hm; destruct Hm as [Hm _]; apply Z.eqb_eq in Hm.
      destruct starts; [simpl; lia | simpl in Hm; lia].
    - destruct (mask_ok_spec _ _ _ _ Hm 0%nat); lia. }
  rewrite u32_small by nia; lia.
Qed.



(** The working pair of a completed integer pass is the fold of the update
    over the samples, from the seed. *)
Lemma fold_m_hist_minmax (body : Z -> hist_state -> outcome hist_state)
    (g : Z -> list Z -> outcome (list Z)) (load : Z -> Z) :
  (forall p h mm,
      body p (h, mm)
      = (h' <- g p h ;; Done (h', minmax_step Z.ltb Z.gtb (load p) mm))) ->
  forall ps h mm h' mm',
    fold_m body ps (h, mm) = Done (h', mm') ->
    mm' = fold_left (fun st v => minmax_step Z.ltb Z.gtb v st) (map load ps) mm.
Proof.
  intros Hb ps h mm h' mm' H.
  rewrite (fold_m_hist_split body g load Hb) in H.
  apply bind_Done_inv in H; destruct H as (h1 & _ & E); inversion E; reflexivity.
Qed.


(** ** Per-bin counts of a completed pass *)

Lemma nth_le_total (h : list Z) (j : nat) :
  Forall (fun c => 0 <= c) h -> 0 <= nth j h 0 <= bin_total h.
Proof.
  intros H; revert j; induction H as [|c t Hc Ht IH]; intros j.
  - destruct j; simpl; unfold bin_total; simpl; lia.
  - assert (Htot : 0 <= bin_total t) by (specialize (IH O); lia).
    unfold bin_total in *; destruct j as [|j]; simpl; [lia|].
    specialize (IH j); lia.
Qed.

Lemma count_cons {A : Type} (test : A -> bool) (a : A) (l : list A) :
  count test (a :: l) = (if test a then 1 else 0) + count test l.
Proof.
  unfold count; simpl; destruct (test a); simpl length; lia.
Qed.

Lemma count_nonneg {A : Type} (test : A -> bool) (l : list A) : 0 <= count test l.
Proof. unfold count; lia. Qed.

Lemma count_le_length {A : Type} (test : A -> bool) (l : list A) :
  count test l <= Z.of_nat (length l).
Proof. unfold count; pose proof (filter_length_le test l); lia. Qed.

Lemma count_map {A B : Type} (f : A -> B) (test : B -> bool) (l : list A) :
  count test (map f l) = count (fun a => test (f a)) l.
Proof.
  induction l as [|a l IH]; [reflexivity|].
  simpl map; rewrite !count_cons, IH; reflexivity.
Qed.


(** A pass whose body routes each address to a bin, to no bin, or faults:
    when it completes from non-negative counters that cannot wrap, every bin
    has grown by the number of addresses routed to it. *)
Lemma fold_m_bins (g : Z -> list Z -> outcome (list Z))
    (route : Z -> outcome (option Z)) :
  (forall p h, g p h = (o <- route p ;;
                        match o with
                        | Some i => incr_bin h i
                        | None => Done h
                        end)) ->
  forall (ps : list Z) (h h' : list Z),
    Forall (fun c => 0 <= c) h ->
    bin_total h + Z.of_nat (length ps) < 2 ^ 32 ->
    fold_m g ps h = Done h' ->
    length h' = length h
    /\ forall j, (j < length h)%nat ->
         nth j h' 0 = nth j h 0 + count (fun p => routed_to j (route p)) ps.
Proof.
  intros Hg; induction ps as [|p l IH]; intros h h' Hnn Hsum Hf.
  - simpl in Hf; inversion Hf; subst; split; [reflexivity|].
    intros j _; unfold count; simpl; lia.
  - cbn [fold_m] in Hf; cbn [length] in Hsum.
    apply bind_Done_inv in Hf; destruct Hf as (h1 & Hp & Hf).
    rewrite Hg in Hp; apply bind_Done_inv in Hp; destruct Hp as (o & Ho & Hp).
    destruct o as [i|].
    + apply incr_bin_inv in Hp; destruct Hp as [Hi ->].
      destruct (bump_total h (Z.to_nat i) Hnn) as [Hnn' Htot]; [lia | lia |].
      destruct (IH _ _ Hnn' ltac:(lia) Hf) as [Hl Hc].
      rewrite bump_length in Hl, Hc; split; [exact Hl|].
      intros j Hj; rewrite (Hc j Hj), count_cons, Ho; cbn [routed_to].
      destruct (Z.eqb_spec i (Z.of_nat j)) as [E|E].
      * subst i; rewrite Nat2Z.id, bump_nth_same by exact Hj.
        pose proof (nth_le_total h j Hnn); rewrite u32_small by lia; lia.
      * rewrite bump_nth_other by lia; lia.
    + inversion Hp; subst h1.
      destruct (IH _ _ Hnn ltac:(lia) Hf) as [Hl Hc]; split; [exact Hl|].
      intros j Hj; rewrite (Hc j Hj), count_cons, Ho; cbn [routed_to]; lia.
Qed.

(** ** The ranged pixel bodies through their routes *)

Lemma ranged_hist_uint8_pixel_route (mem : memory) (hist_min hist_max p : Z)
    (h : list Z) (mm : Z * Z) :
  ranged_hist_uint8_pixel mem hist_min hist_max p (h, mm)
  = (h' <- (o <- ranged_route_uint8 hist_min hist_max (load_u8 mem p) ;;
            store h o) ;;
     Done (h', minmax_step Z.ltb Z.gtb (load_u8 mem p) mm)).
Proof.
  unfold ranged_hist_uint8_pixel, ranged_route_uint8.
  destruct ((load_u8 mem p >=? hist_min) && (load_u8 mem p <=? hist_max));
    reflexivity.
Qed.

Lemma ranged_hist_uint16_pixel_route (mem : memory) (bin_factor : spec_float)
    (last_bin hist_min hist_max p : Z) (h : list Z) (mm : Z * Z) :
  ranged_hist_uint16_pixel mem bin_factor last_bin hist_min hist_max p (h, mm)
  = (h' <- (o <- ranged_route_uint16 bin_factor last_bin hist_min hist_max
                   (load_u16 mem p) ;;
            store h o) ;;
     Done (h', minmax_step Z.ltb Z.gtb (load_u16 mem p) mm)).
Proof.
  unfold ranged_hist_uint16_pixel, ranged_route_uint16.
  destruct ((load_u16 mem p >=? hist_min) && (load_u16 mem p <? hist_max)).
  - destruct (ranged_bin_uint16 bin_factor hist_min (load_u16 mem p)); reflexivity.
  - destruct (load_u16 mem p =? hist_max); reflexivity.
Qed.

Lemma ranged_hist_float_pixel_route (mem : memory) (bin_factor : spec_float)
    (last_bin : Z) (hist_min hist_max : spec_float) (p : Z) (h : list Z) :
  ranged_hist_float_pixel mem bin_factor last_bin hist_min hist_max p h
  = (o <- ranged_route_float bin_factor last_bin hist_min hist_max
            (load_f32 mem p) ;;
     store h o).
Proof.
  unfold ranged_hist_float_pixel, ranged_route_float.
  destruct (F32.ge (load_f32 mem p) hist_min && F32.lt (load_f32 mem p) hist_max).
  - destruct (ranged_bin_float bin_factor hist_min (load_f32 mem p)); reflexivity.
  - destruct (F32.eq (load_f32 mem p) hist_max); reflexivity.
Qed.

(** A completed routed pass over a zeroed buffer leaves in every bin the
    number of samples routed to it. *)
Lemma routed_pass_bins {T : Type} (g : Z -> list Z -> outcome (list Z))
    (load : Z -> T) (route : T -> outcome (option Z)) :
  (forall p h, g p h = (o <- route (load p) ;; store h o)) ->
  forall (ps : list Z) (n : nat) (h' : list Z),
    Z.of_nat (length ps) < 2 ^ 32 ->
    fold_m g ps (zeroed n) = Done h' ->
    bins_count route (map load ps) n h'.
Proof.
  intros Hg ps n h' Hlen Hf; unfold bins_count.
  destruct (fold_m_bins g (fun p => route (load p)) Hg ps (zeroed n) h'
              (zeroed_nonneg n)) as [Hl Hc].
  - rewrite zeroed_total; lia.
  - exact Hf.
  - rewrite zeroed_length in Hl, Hc; split; [exact Hl|].
    intros j Hj; rewrite (Hc j Hj), count_map.
    unfold zeroed; rewrite nth_repeat; lia.
Qed.

Lemma routed_hist_pass_bins (body : Z -> hist_state -> outcome hist_state)
    (load : Z -> Z) (route : Z -> outcome (option Z)) :
  (forall p h mm,
      body p (h, mm)
      = (h' <- (o <- route (load p) ;; store h o) ;;
         Done (h', minmax_step Z.ltb Z.gtb (load p) mm))) ->
  forall (ps : list Z) (n : nat) (mm : Z * Z) (h' : list Z) (mm' : Z * Z),
    Z.of_nat (length ps) < 2 ^ 32 ->
    fold_m body ps (zeroed n, mm) = Done (h', mm') ->
    bins_count route (map load ps) n h'.
Proof.
  intros Hb ps n mm h' mm' Hlen Hf.
  rewrite (fold_m_hist_split body _ load Hb) in Hf.
  apply bind_Done_inv in Hf; destruct Hf as (h1 & Hf & E).
  inversion E; subst h1.
  exact (routed_pass_bins _ load route (fun _ _ => eq_refl) ps n h' Hlen Hf).
Qed.



Lemma spec_ranged_bin_unit (hist_min hist_max v : Z) :
  hist_min <= v < hist_max ->
  spec_ranged_bin (hist_max - hist_min + 1) hist_min hist_max v = v - hist_min.
Proof.
  intros H; unfold spec_ranged_bin; symmetry.
  apply (Z.div_unique _ _ _ (v - hist_min)); [lia | ring].
Qed.

(** The six ranged kernels as routed passes. *)
Section RangedRuns.

Variables (mem : memory) (image rows cols r_stride c_stride : Z).
Hypothesis Hview : view_ok rows cols r_stride c_stride = true.

Lemma view_addresses_bound :
  Z.of_nat (length (addresses image rows cols r_stride c_stride)) < 2 ^ 32.
Proof.
  destruct (view_samples_bound _ _ _ _ Hview) as (Hr & Hc & Hrc).
  rewrite addresses_length; lia.
Qed.

Lemma mask_addresses_bound (starts ends : list Z) :
  mask_ok rows cols starts ends = true ->
  Z.of_nat (length (masked_addresses image rows r_stride c_stride starts ends))
  < 2 ^ 32.
Proof.
  intros Hm; destruct (view_samples_bound _ _ _ _ Hview) as (Hr & Hc & Hrc).
  rewrite (masked_addresses_length _ _ _ _ _ _ cols Hm).
  pose proof (span_total_bound rows cols starts ends Hm Hr Hc); lia.
Qed.

Lemma ranged_hist_uint8_bins (n : nat) (hist_min hist_max : Z) (h : list Z)
    (mm : Z * Z) :
  ranged_hist_uint8 mem image rows cols r_stride c_stride (zeroed n)
    hist_min hist_max = Done (h, mm) ->
  bins_count (ranged_route_uint8 hist_min hist_max)
    (samples (load_u8 mem) image rows cols r_stride c_stride) n h.
Proof.
  unfold ranged_hist_uint8; rewrite scan_fold by exact Hview.
  apply (routed_hist_pass_bins _ _ _
           (ranged_hist_uint8_pixel_route mem hist_min hist_max)).
  apply view_addresses_bound.
Qed.

Lemma ranged_hist_uint16_bins (n : nat) (n_bins hist_min hist_max : Z)
    (h : list Z) (mm : Z * Z) :
  ranged_hist_uint16 mem image rows cols r_stride c_stride (zeroed n)
    n_bins hist_min hist_max = Done (h, mm) ->
  bins_count
    (ranged_route_uint16 (bin_factor_uint16 n_bins hist_min hist_max)
       (n_bins - 1) hist_min hist_max)
    (samples (load_u16 mem) image rows cols r_stride c_stride) n h.
Proof.
  unfold ranged_hist_uint16; rewrite scan_fold by exact Hview.
  apply (routed_hist_pass_bins _ _ _
           (ranged_hist_uint16_pixel_route mem _ _ hist_min hist_max)).
  apply view_addresses_bound.
Qed.

Lemma ranged_hist_float_bins (n : nat) (n_bins : Z)
    (hist_min hist_max : spec_float) (h : list Z) :
  ranged_hist_float mem image rows cols r_stride c_stride (zeroed n)
    n_bins hist_min hist_max = Done h ->
  bins_count
    (ranged_route_float (bin_factor_float n_bins hist_min hist_max)
       (n_bins - 1) hist_min hist_max)
    (samples (load_f32 mem) image rows cols r_stride c_stride) n h.
Proof.
  unfold ranged_hist_float; rewrite scan_fold by exact Hview.
  apply (routed_pass_bins _ _ _
           (ranged_hist_float_pixel_route mem _ _ hist_min hist_max)).
  apply view_addresses_bound.
Qed.

Variables starts ends : list Z.
Hypothesis Hmask : mask_ok rows cols starts ends = true.

Lemma masked_ranged_hist_uint8_bins (n : nat) (hist_min hist_max : Z)
    (h : list Z) (mm : Z * Z) :
  masked_ranged_hist_uint8 mem image rows cols r_stride c_stride starts ends
    (zeroed n) hist_min hist_max = Done (h, mm) ->
  bins_count (ranged_route_uint8 hist_min hist_max)
    (masked_samples (load_u8 mem) image rows r_stride c_stride starts ends) n h.
Proof.
  unfold masked_ranged_hist_uint8.
  rewrite (masked_scan_fold image rows cols r_stride c_stride starts ends _
             Hview Hmask).
  apply (routed_hist_pass_bins _ _ _
           (ranged_hist_uint8_pixel_route mem hist_min hist_max)).
  apply mask_addresses_bound, Hmask.
Qed.

Lemma masked_ranged_hist_uint16_bins (n : nat) (n_bins hist_min hist_max : Z)
    (h : list Z) (mm : Z * Z) :
  masked_ranged_hist_uint16 mem image rows cols r_stride c_stride starts ends
    (zeroed n) n_bins hist_min hist_max = Done (h, mm) ->
  bins_count
    (ranged_route_uint16 (bin_factor_uint16 n_bins hist_min hist_max)
       (n_bins - 1) hist_min hist_max)
    (masked_samples (load_u16 mem) image rows r_stride c_stride starts ends)
    n h.
Proof.
  unfold masked_ranged_hist_uint16.
  rewrite (masked_scan_fold image rows cols r_stride c_stride starts ends _
             Hview Hmask).
  apply (routed_hist_pass_bins _ _ _
           (ranged_hist_uint16_pixel_route mem _ _ hist_min hist_max)).
  apply mask_addresses_bound, Hmask.
Qed.

Lemma masked_ranged_hist_float_bins (n : nat) (n_bins : Z)
    (hist_min hist_max : spec_float) (h : list Z) :
  masked_ranged_hist_float mem image rows cols r_stride c_stride starts ends
    (zeroed n) n_bins hist_min hist_max = Done h ->
  bins_count
    (ranged_route_float (bin_factor_float n_bins hist_min hist_max)
       (n_bins - 1) hist_min hist_max)
    (masked_samples (load_f32 mem) image rows r_stride c_stride starts ends)
    n h.
Proof.
  unfold masked_ranged_hist_float.
  rewrite (masked_scan_fold image rows cols r_stride c_stride starts ends _
             Hview Hmask).
  apply (routed_pass_bins _ _ _
           (ranged_hist_float_pixel_route mem _ _ hist_min hist_max)).
  apply mask_addresses_bound, Hmask.
Qed.

End RangedRuns.

(** ** Single-precision rounding

    Upper bounds on the rounding of [SpecFloat] at precision 24, enough to
    bound the bin index of the 16-bit ranged kernels: a division and a
    multiplication of normal floats each exceed the exact result by a factor
    of at most [(1 + 2^-24)]. *)

Lemma digits2_pos_size (p : positive) : digits2_pos p = Pos.size p.
Proof. induction p; simpl; congruence. Qed.

Lemma digits2_pos_bounds (p : positive) :
  2 ^ (Zpos (digits2_pos p) - 1) <= Zpos p < 2 ^ Zpos (digits2_pos p).
Proof.
  induction p as [p IH|p IH|]; cbn [digits2_pos].
  - rewrite Pos2Z.inj_succ.
    replace (Z.succ (Zpos (digits2_pos p)) - 1) with (Zpos (digits2_pos p) - 1 + 1) by lia.
    rewrite Z.pow_succ_r, Z.pow_add_r by lia.
    change (2 ^ 1) with 2. lia.
  - rewrite Pos2Z.inj_succ.
    replace (Z.succ (Zpos (digits2_pos p)) - 1) with (Zpos (digits2_pos p) - 1 + 1) by lia.
    rewrite Z.pow_succ_r, Z.pow_add_r by lia.
    change (2 ^ 1) with 2. lia.
  - simpl. lia.
Qed.

Lemma pow2_lt_mono_inv (a b : Z) : 0 <= a -> 0 <= b -> 2 ^ a < 2 ^ b -> a < b.
Proof.
  intros Ha Hb H. destruct (Z.lt_ge_cases a b) as [|Hge]; [assumption|].
  pose proof (Z.pow_le_mono_r 2 b a ltac:(lia) Hge). lia.
Qed.

Lemma digits2_pos_unique (p : positive) (k : Z) :
  2 ^ (k - 1) <= Zpos p < 2 ^ k -> Zpos (digits2_pos p) = k.
Proof.
  intros [Hlo Hhi]. pose proof (digits2_pos_bounds p) as [Dlo Dhi].
  assert (Hk : 0 < k).
  { destruct (Z.lt_ge_cases 0 k); [assumption|].
    assert (2 ^ k <= 1).
    { destruct (Z.eq_dec k 0) as [->|]; [simpl; lia|].
      rewrite Z.pow_neg_r by lia. lia. }
    lia. }
  assert (Zpos (digits2_pos p) - 1 < k).
  { apply pow2_lt_mono_inv; lia. }
  assert (k - 1 < Zpos (digits2_pos p)).
  { apply pow2_lt_mono_inv; lia. }
  lia.
Qed.

Lemma iter_pos_nat {A : Type} (f : A -> A) (p : positive) (x : A) :
  iter_pos f p x = Nat.iter (Pos.to_nat p) f x.
Proof.
  revert x; induction p as [p IH|p IH|]; intros x; cbn [iter_pos].
  - rewrite !IH, Pos2Nat.inj_xI.
    replace (S (2 * Pos.to_nat p)) with (Pos.to_nat p + (Pos.to_nat p + 1))%nat by lia.
    rewrite !Nat.iter_add. reflexivity.
  - rewrite !IH, Pos2Nat.inj_xO.
    replace (2 * Pos.to_nat p)%nat with (Pos.to_nat p + Pos.to_nat p)%nat by lia.
    rewrite Nat.iter_add. reflexivity.
  - reflexivity.
Qed.

Lemma shr_1_spec (mrs : shr_record) :
  0 <= shr_m mrs ->
  shr_m (shr_1 mrs) = shr_m mrs / 2
  /\ 2 * half_units (shr_1 mrs) <= half_units mrs.
Proof.
  destruct mrs as [m r s]; unfold half_units; cbn [shr_m shr_r].
  intros Hm; destruct m as [|[p|p|]|p]; try lia; cbn [shr_1 shr_m shr_r Z.b2z].
  - split; [symmetry; apply Z.div_0_l; lia | destruct r; simpl; lia].
  - split; [|destruct r; simpl; lia].
    rewrite Pos2Z.inj_xI. apply (Z.div_unique _ _ _ 1); lia.
  - split; [|destruct r; simpl; lia].
    rewrite Pos2Z.inj_xO. apply (Z.div_unique _ _ _ 0); lia.
  - split; [reflexivity | destruct r; simpl; lia].
Qed.

Lemma shr_iter_spec (k : nat) (mrs : shr_record) :
  0 <= shr_m mrs ->
  shr_m (Nat.iter k shr_1 mrs) = shr_m mrs / 2 ^ Z.of_nat k
  /\ 2 ^ Z.of_nat k * half_units (Nat.iter k shr_1 mrs) <= half_units mrs.
Proof.
  intros Hm; induction k as [|k [IHm IHh]].
  - change (Nat.iter 0 shr_1 mrs) with mrs.
    change (2 ^ Z.of_nat 0) with 1; rewrite Z.div_1_r; lia.
  - rewrite Nat.iter_succ.
    assert (H0 : 0 <= shr_m (Nat.iter k shr_1 mrs)).
    { rewrite IHm; apply Z.div_pos; [lia | apply Z.pow_pos_nonneg; lia]. }
    destruct (shr_1_spec _ H0) as [Sm Sh].
    rewrite Nat2Z.inj_succ, Z.pow_succ_r by lia.
    split.
    + rewrite Sm, IHm, Z.div_div by (try apply Z.pow_pos_nonneg; lia).
      f_equal; lia.
    + assert (0 < 2 ^ Z.of_nat k) by (apply Z.pow_pos_nonneg; lia). nia.
Qed.

Lemma shr_spec (mrs : shr_record) (e n : Z) :
  0 <= shr_m mrs -> 0 <= n ->
  snd (shr mrs e n) = e + n
  /\ shr_m (fst (shr mrs e n)) = shr_m mrs / 2 ^ n
  /\ 2 ^ n * half_units (fst (shr mrs e n)) <= half_units mrs.
Proof.
  intros Hm Hn; destruct n as [|p|p]; try lia; cbn [shr fst snd].
  - change (2 ^ 0) with 1; rewrite Z.div_1_r; lia.
  - rewrite iter_pos_nat.
    destruct (shr_iter_spec (Pos.to_nat p) mrs Hm) as [Sm Sh].
    rewrite positive_nat_Z in Sm, Sh. auto.
Qed.

Lemma round_nearest_even_spec (mrs : shr_record) :
  let m := round_nearest_even (shr_m mrs) (loc_of_shr_record mrs) in
  shr_m mrs <= m <= shr_m mrs + 1 /\ 2 * m <= half_units mrs + 1.
Proof.
  destruct mrs as [m [|] [|]]; unfold half_units;
    cbn [shr_m shr_r loc_of_shr_record round_nearest_even Z.b2z];
    try destruct (Z.even m); lia.
Qed.

Lemma fexp_normal (t : Z) : -149 <= t - 24 -> fexp 24 128 t = t - 24.
Proof. intros H; unfold fexp, emin; lia. Qed.

Lemma shr_fexp_spec (m e : Z) (l : location) :
  0 < m -> 24 <= Zdigits2 m -> -149 <= Zdigits2 m + e - 24 ->
  let n := Zdigits2 m - 24 in
  snd (shr_fexp 24 128 m e l) = e + n
  /\ shr_m (fst (shr_fexp 24 128 m e l)) = m / 2 ^ n
  /\ 2 ^ n * half_units (fst (shr_fexp 24 128 m e l))
     <= half_units (shr_record_of_loc m l).
Proof.
  intros Hm Hd He n; unfold shr_fexp.
  rewrite fexp_normal by lia.
  replace (Zdigits2 m + e - 24 - e) with n by (unfold n; lia).
  assert (Hs : shr_m (shr_record_of_loc m l) = m) by (destruct l as [|[]]; reflexivity).
  pose proof (shr_spec (shr_record_of_loc m l) e n) as H.
  rewrite Hs in H; apply H; [lia | unfold n; lia].
Qed.

Lemma Zdigits2_bounds (m : Z) :
  0 < m -> 2 ^ (Zdigits2 m - 1) <= m < 2 ^ Zdigits2 m.
Proof.
  destruct m as [|p|p]; try lia; intros _; apply digits2_pos_bounds.
Qed.

Lemma Zdigits2_unique (m k : Z) :
  2 ^ (k - 1) <= m < 2 ^ k -> 0 < m -> Zdigits2 m = k.
Proof.
  destruct m as [|p|p]; try lia; intros H _; apply digits2_pos_unique, H.
Qed.

Lemma div_pow2_range (m d : Z) :
  24 <= d -> 2 ^ (d - 1) <= m < 2 ^ d ->
  2 ^ 23 <= m / 2 ^ (d - 24) < 2 ^ 24.
Proof.
  intros Hd [Hlo Hhi].
  assert (Hp : 0 < 2 ^ (d - 24)) by (apply Z.pow_pos_nonneg; lia).
  assert (E1 : 2 ^ (d - 1) = 2 ^ 23 * 2 ^ (d - 24))
    by (rewrite <- Z.pow_add_r by lia; f_equal; lia).
  assert (E2 : 2 ^ d = 2 ^ 24 * 2 ^ (d - 24))
    by (rewrite <- Z.pow_add_r by lia; f_equal; lia).
  split.
  - apply Z.div_le_lower_bound; [exact Hp | lia].
  - apply Z.div_lt_upper_bound; [exact Hp | lia].
Qed.

(** Rounding to nearest of a positive mantissa of at least 24 digits, in the
    normal range: the result is a normal float at most half a unit in the
    last place above the half-unit lower bound of the rounded value. *)
Lemma binary_round_aux_upper (sx : bool) (mx ex : Z) (lx : location) :
  0 < mx -> 24 <= Zdigits2 mx ->
  -149 <= Zdigits2 mx + ex - 24 -> Zdigits2 mx + ex - 24 + 1 <= 104 ->
  exists m e,
    binary_round_aux 24 128 sx mx ex lx = S754_finite sx m e
    /\ 2 ^ 23 <= Zpos m < 2 ^ 24
    /\ ex + (Zdigits2 mx - 24) <= e <= ex + (Zdigits2 mx - 24) + 1
    /\ 2 * Zpos m * 2 ^ (e - ex)
       <= half_units (shr_record_of_loc mx lx) + 2 ^ (Zdigits2 mx - 24).
Proof.
  intros Hm Hd Hlo Hhi.
  set (n := Zdigits2 mx - 24).
  destruct (shr_fexp_spec mx ex lx Hm Hd Hlo) as (Se & Sm & Sh).
  fold n in Se, Sm, Sh.
  unfold binary_round_aux.
  destruct (shr_fexp 24 128 mx ex lx) as [mrs' e'] eqn:E1.
  cbn [fst snd] in Se, Sm, Sh; subst e'.
  pose proof (div_pow2_range mx (Zdigits2 mx) Hd (Zdigits2_bounds mx Hm)) as Hm1.
  fold n in Hm1; rewrite <- Sm in Hm1.
  destruct (round_nearest_even_spec mrs') as [Hr1 Hr2].
  set (m2 := round_nearest_even (shr_m mrs') (loc_of_shr_record mrs')) in *.
  assert (Hn : 0 <= n) by (unfold n; lia).
  assert (Hpn : 0 < 2 ^ n) by (apply Z.pow_pos_nonneg; lia).
  destruct (Z.eq_dec m2 (2 ^ 24)) as [E24|N24].
  - (* the rounding reaches 2^24: one more shift *)
    rewrite E24.
    replace (shr_fexp 24 128 (2 ^ 24) (ex + n) loc_Exact)
      with ({| shr_m := 2 ^ 23; shr_r := false; shr_s := false |}, ex + n + 1).
    2:{ unfold shr_fexp. rewrite fexp_normal by (simpl Zdigits2; lia).
        change (Zdigits2 (2 ^ 24)) with 25.
        replace (25 + (ex + n) - 24 - (ex + n)) with 1 by lia.
        reflexivity. }
    cbn [shr_m]. change (2 ^ 23) with (Zpos 8388608).
    replace (ex + n + 1 <=? 128 - 24) with true
      by (symmetry; apply Z.leb_le; unfold n; lia).
    exists 8388608%positive, (ex + n + 1); repeat split; try lia.
    replace (ex + n + 1 - ex) with (n + 1) by lia.
    rewrite Z.pow_add_r by lia. change (2 ^ 1) with 2. nia.
  - (* the rounded mantissa keeps 24 digits *)
    assert (D2 : Zdigits2 m2 = 24) by (apply Zdigits2_unique; simpl; lia).
    replace (shr_fexp 24 128 m2 (ex + n) loc_Exact)
      with ({| shr_m := m2; shr_r := false; shr_s := false |}, ex + n).
    2:{ unfold shr_fexp. rewrite fexp_normal by lia. rewrite D2.
        replace (24 + (ex + n) - 24 - (ex + n)) with 0 by lia.
        reflexivity. }
    cbn [shr_m].
    destruct m2 as [|p|p] eqn:Ep; try lia.
    replace (ex + n <=? 128 - 24) with true
      by (symmetry; apply Z.leb_le; unfold n; lia).
    exists p, (ex + n); repeat split; try lia.
    replace (ex + n - ex) with n by lia. nia.
Qed.

Lemma binary_round_aux_exact (sx : bool) (m : positive) (e : Z) :
  Zpos (digits2_pos m) = 24 -> -149 <= e <= 104 ->
  binary_round_aux 24 128 sx (Zpos m) e loc_Exact = S754_finite sx m e.
Proof.
  intros Hd He; unfold binary_round_aux.
  assert (E : shr_fexp 24 128 (Zpos m) e loc_Exact
              = ({| shr_m := Zpos m; shr_r := false; shr_s := false |}, e)).
  { unfold shr_fexp; cbn [Zdigits2]; rewrite Hd, fexp_normal by lia.
    replace (24 + e - 24 - e) with 0 by lia; reflexivity. }
  rewrite E; cbn [shr_m loc_of_shr_record round_nearest_even].
  rewrite E; cbn [shr_m].
  replace (e <=? 128 - 24) with true by (symmetry; apply Z.leb_le; lia).
  reflexivity.
Qed.

Lemma pos_iter_xO (p d : positive) :
  Zpos (Pos.iter xO p d) = Zpos p * 2 ^ Zpos d.
Proof.
  induction d as [|d IH] using Pos.peano_ind.
  - cbn [Pos.iter]; rewrite Pos2Z.inj_xO; change (2 ^ 1) with 2; lia.
  - rewrite Pos.iter_succ, Pos2Z.inj_xO, IH, Pos2Z.inj_succ, Z.pow_succ_r by lia.
    lia.
Qed.

(** The float of an integer below [2^24]: the integer, normalised to 24
    digits. *)
Lemma of_Z_normal (k : Z) :
  1 <= k < 2 ^ 24 ->
  exists m,
    F32.of_Z k = S754_finite false m (Zdigits2 k - 24)
    /\ Zpos (digits2_pos m) = 24
    /\ Zpos m = k * 2 ^ (24 - Zdigits2 k)
    /\ 1 <= Zdigits2 k <= 24.
Proof.
  intros Hk; destruct k as [|p|p]; try lia.
  pose proof (digits2_pos_bounds p) as Hb.
  cbn [Zdigits2].
  set (dk := Zpos (digits2_pos p)) in *.
  assert (Hdk : 1 <= dk <= 24).
  { split; [unfold dk; lia|].
    destruct (Z.lt_ge_cases 24 dk) as [H|H]; [|exact H].
    assert (2 ^ 24 <= 2 ^ (dk - 1)) by (apply Z.pow_le_mono_r; lia). lia. }
  unfold F32.of_Z, binary_normalize, binary_round, F32.prec, F32.emax.
  fold dk; rewrite fexp_normal by lia.
  unfold shl_align.
  destruct (dk + 0 - 24 - 0) as [|q|q] eqn:E; try lia.
  - (* already 24 digits *)
    assert (dk = 24) by lia.
    exists p; rewrite binary_round_aux_exact by (fold dk; lia).
    replace (dk - 24) with 0 by lia.
    repeat split; try (fold dk; lia).
    replace (24 - dk) with 0 by lia; lia.
  - (* shifted left to 24 digits *)
    assert (Hq : Zpos q = 24 - dk) by lia.
    assert (Hv : Zpos (Pos.iter xO p q) = Zpos p * 2 ^ (24 - dk))
      by (rewrite pos_iter_xO, Hq; reflexivity).
    assert (Hp : 0 < 2 ^ (24 - dk)) by (apply Z.pow_pos_nonneg; lia).
    assert (E23 : 2 ^ 23 = 2 ^ (dk - 1) * 2 ^ (24 - dk))
      by (rewrite <- Z.pow_add_r by lia; f_equal; lia).
    assert (E24 : 2 ^ 24 = 2 ^ dk * 2 ^ (24 - dk))
      by (rewrite <- Z.pow_add_r by lia; f_equal; lia).
    assert (Hd : Zpos (digits2_pos (Pos.iter xO p q)) = 24).
    { apply digits2_pos_unique; rewrite Hv.
      change (24 - 1) with 23; rewrite E23, E24; nia. }
    exists (Pos.iter xO p q).
    rewrite binary_round_aux_exact by (try exact Hd; lia).
    replace (dk + 0 - 24) with (dk - 24) by lia.
    repeat split; try assumption; lia.
Qed.

(** The location of a remainder: the half-unit lower bound of the quotient
    it yields is below twice the exact quotient. *)
Lemma new_location_half_units (m2 q r : Z) :
  0 < m2 -> 0 <= r < m2 ->
  half_units (shr_record_of_loc q (new_location m2 r)) * m2
  <= 2 * (m2 * q + r).
Proof.
  intros Hm Hr; unfold half_units, new_location, new_location_even,
    new_location_odd.
  destruct (Z.even m2); destruct (Z.eqb_spec r 0) as [E|E];
    cbn [shr_record_of_loc shr_m shr_r Z.b2z]; try nia.
  - destruct (Z.compare_spec (2 * r) m2);
      cbn [shr_record_of_loc shr_m shr_r Z.b2z]; nia.
  - destruct (Z.compare_spec (2 * r + 1) m2);
      cbn [shr_record_of_loc shr_m shr_r Z.b2z]; nia.
Qed.

(** Division of two normal floats with 24-digit mantissas: the quotient is a
    normal float at most [(1 + 2^-24)] times the exact quotient. *)
Lemma div_upper (mx : positive) (ex : Z) (my : positive) (ey : Z) :
  Zpos (digits2_pos mx) = 24 -> Zpos (digits2_pos my) = 24 ->
  -100 <= ex - ey <= 100 ->
  exists mq g,
    F32.div (S754_finite false mx ex) (S754_finite false my ey)
    = S754_finite false mq (ex - ey - 24 + g)
    /\ 2 ^ 23 <= Zpos mq < 2 ^ 24
    /\ 0 <= g <= 2
    /\ Zpos mq * 2 ^ g * Zpos my <= Zpos mx * (2 ^ 24 + 1).
Proof.
  intros Dx Dy He.
  pose proof (digits2_pos_bounds mx) as Bx; rewrite Dx in Bx.
  pose proof (digits2_pos_bounds my) as By; rewrite Dy in By.
  change (24 - 1) with 23 in Bx, By.
  unfold F32.div, F32.prec, F32.emax, SFdiv, SFdiv_core_binary.
  cbn [Zdigits2 xorb]; rewrite Dx, Dy.
  rewrite fexp_normal by lia.
  replace (Z.min (24 + ex - (24 + ey) - 24) (ex - ey)) with (ex - ey - 24) by lia.
  replace (ex - ey - (ex - ey - 24)) with 24 by lia.
  rewrite Z.shiftl_mul_pow2 by lia.
  pose proof (Z_div_mod (Zpos mx * 2 ^ 24) (Zpos my) ltac:(lia)) as Hdm.
  destruct (Z.div_eucl (Zpos mx * 2 ^ 24) (Zpos my)) as [q r].
  destruct Hdm as [Hq Hr].
  assert (Hq23 : 2 ^ 23 <= q) by nia.
  assert (Hq25 : q < 2 ^ 25) by nia.
  assert (Hdq : Zdigits2 q = 24 \/ Zdigits2 q = 25).
  { destruct (Z.lt_ge_cases q (2 ^ 24)).
    - left; apply Zdigits2_unique; simpl; lia.
    - right; apply Zdigits2_unique; simpl; lia. }
  destruct (binary_round_aux_upper false q (ex - ey - 24)
              (new_location (Zpos my) r)) as (mq & e & Hb & Hmq & Hee & Hu);
    try lia.
  pose proof (new_location_half_units (Zpos my) q r ltac:(lia) Hr) as Hh.
  pose proof (Zdigits2_bounds q ltac:(lia)) as Bq.
  exists mq, (e - (ex - ey - 24)).
  replace (ex - ey - 24 + (e - (ex - ey - 24))) with e by lia.
  split; [exact Hb|]; split; [exact Hmq|]; split; [lia|].
  set (G := 2 ^ (e - (ex - ey - 24))) in *.
  set (hu := half_units (shr_record_of_loc q (new_location (Zpos my) r))) in *.
  assert (Hk : 2 ^ (Zdigits2 q - 24) * 2 ^ 23 <= q).
  { rewrite <- Z.pow_add_r by lia.
    replace (Zdigits2 q - 24 + 23) with (Zdigits2 q - 1) by lia.
    apply Bq. }
  assert (HG : 0 < G) by (apply Z.pow_pos_nonneg; lia).
  (* 2 mq G my <= hu my + 2^k my <= 2 mx 2^24 + 2 mx *)
  set (k := 2 ^ (Zdigits2 q - 24)) in *.
  assert (H1 : 2 * Zpos mq * G * Zpos my <= (hu + k) * Zpos my)
    by (apply Z.mul_le_mono_nonneg_r; lia).
  assert (H2 : k * 2 ^ 23 * Zpos my <= q * Zpos my)
    by (apply Z.mul_le_mono_nonneg_r; lia).
  replace (Zpos mq * G * Zpos my * 2)
    with (2 * Zpos mq * G * Zpos my) in * by ring.
  rewrite Z.mul_add_distr_r in H1.
  replace (k * 2 ^ 23 * Zpos my) with (k * Zpos my * 2 ^ 23) in H2 by ring.
  replace (Zpos my * q) with (q * Zpos my) in * by ring.
  replace (2 * Zpos mq * G * Zpos my) with (2 * (Zpos mq * G * Zpos my)) in H1
    by ring.
  lia.
Qed.

(** Multiplication of two normal floats with 24-digit mantissas: the product
    is a normal float at most [(1 + 2^-24)] times the exact product. *)
Lemma mul_upper (mx : positive) (ex : Z) (my : positive) (ey : Z) :
  Zpos (digits2_pos mx) = 24 -> Zpos (digits2_pos my) = 24 ->
  -150 <= ex + ey <= 50 ->
  exists mp h,
    F32.mul (S754_finite false mx ex) (S754_finite false my ey)
    = S754_finite false mp (ex + ey + h)
    /\ 2 ^ 23 <= Zpos mp < 2 ^ 24
    /\ 23 <= h <= 25
    /\ Zpos mp * 2 ^ h * 2 ^ 24 <= Zpos mx * Zpos my * (2 ^ 24 + 1).
Proof.
  intros Dx Dy He.
  pose proof (digits2_pos_bounds mx) as Bx; rewrite Dx in Bx.
  pose proof (digits2_pos_bounds my) as By; rewrite Dy in By.
  change (24 - 1) with 23 in Bx, By.
  unfold F32.mul, F32.prec, F32.emax, SFmul; cbn [xorb].
  set (P := Zpos (mx * my)).
  assert (HP : P = Zpos mx * Zpos my) by reflexivity.
  assert (HP46 : 2 ^ 46 <= P) by (change (2 ^ 46) with (2 ^ 23 * 2 ^ 23); nia).
  assert (HP48 : P < 2 ^ 48) by (change (2 ^ 48) with (2 ^ 24 * 2 ^ 24); nia).
  assert (Hd : Zdigits2 P = 47 \/ Zdigits2 P = 48).
  { destruct (Z.lt_ge_cases P (2 ^ 47)).
    - left; apply Zdigits2_unique; simpl; lia.
    - right; apply Zdigits2_unique; simpl; lia. }
  destruct (binary_round_aux_upper false P (ex + ey) loc_Exact)
    as (mp & e & Hb & Hmp & Hee & Hu); try lia.
  unfold half_units in Hu; cbn [shr_record_of_loc shr_m shr_r Z.b2z] in Hu.
  exists mp, (e - (ex + ey)).
  replace (ex + ey + (e - (ex + ey))) with e by lia.
  split; [exact Hb|]; split; [exact Hmp|]; split; [lia|].
  set (H := 2 ^ (e - (ex + ey))) in *.
  assert (Hk : 2 ^ (Zdigits2 P - 24) * 2 ^ 23 <= P).
  { rewrite <- Z.pow_add_r by lia.
    replace (Zdigits2 P - 24 + 23) with (Zdigits2 P - 1) by lia.
    apply Zdigits2_bounds; lia. }
  lia.
Qed.

Lemma Zdigits2_le_of_lt (a b : Z) : 0 < a -> a < b -> Zdigits2 a <= Zdigits2 b.
Proof.
  intros Ha Hab.
  pose proof (Zdigits2_bounds a Ha) as [La _].
  pose proof (Zdigits2_bounds b ltac:(lia)) as [_ Ub].
  assert (0 < Zdigits2 a) by (destruct a; simpl; lia).
  assert (0 < Zdigits2 b) by (destruct b; simpl; lia).
  assert (Zdigits2 a - 1 < Zdigits2 b) by (apply pow2_lt_mono_inv; lia).
  lia.
Qed.

Lemma Zdigits2_le_16 (a : Z) : 0 < a < 2 ^ 16 -> 1 <= Zdigits2 a <= 16.
Proof.
  intros Ha.
  pose proof (Zdigits2_bounds a ltac:(lia)) as [La _].
  assert (0 < Zdigits2 a) by (destruct a; simpl; lia).
  assert (Zdigits2 a - 1 < 16) by (apply pow2_lt_mono_inv; lia).
  lia.
Qed.

(** The arithmetic behind the bound of the bin index: two roundings, each
    by a factor of at most [(1 + 2^-24)], do not lift [n*d/r] to [n] when
    [d < r < 2^16]. *)
Lemma two_roundings_below (n r d A B C U T X Y Zc G W : Z) :
  0 < n -> 0 < d < r -> r < 2 ^ 16 ->
  0 < X -> 0 < Y -> 0 < Zc -> 0 < G -> 0 <= T -> 0 <= U ->
  A = n * X -> B = r * Y -> C = d * Zc ->
  U * B <= A * (2 ^ 24 + 1) ->
  T * 2 ^ 24 * G <= U * C * (2 ^ 24 + 1) ->
  W * G * Y = X * Zc * 2 ^ 24 ->
  T < n * W.
Proof.
  intros Hn Hd Hr HX HY HZ HG HT HU -> -> -> HUB HTU HW.
  assert (H3 : d * ((2 ^ 24 + 1) * (2 ^ 24 + 1)) < r * (2 ^ 24 * 2 ^ 24)) by lia.
  remember (2 ^ 24) as K eqn:EK.
  assert (HK : 0 < K) by (subst K; lia).
  assert (H1 : T * K * G * (r * Y) <= U * (d * Zc) * (K + 1) * (r * Y))
    by (apply Z.mul_le_mono_nonneg_r; [nia | exact HTU]).
  assert (H2 : U * (r * Y) * ((d * Zc) * (K + 1))
               <= n * X * (K + 1) * ((d * Zc) * (K + 1)))
    by (apply Z.mul_le_mono_nonneg_r; [nia | exact HUB]).
  assert (H4 : n * X * Zc * (d * ((K + 1) * (K + 1)))
               < n * X * Zc * (r * (K * K)))
    by (apply Z.mul_lt_mono_pos_l; [nia | exact H3]).
  assert (H5 : T * (G * Y * (r * K)) < n * W * (G * Y * (r * K))).
  { replace (n * W * (G * Y * (r * K))) with (n * (W * G * Y) * (r * K)) by ring.
    rewrite HW.
    replace (T * (G * Y * (r * K))) with (T * K * G * (r * Y)) by ring.
    replace (n * (X * Zc * K) * (r * K)) with (n * X * Zc * (r * (K * K))) by ring.
    eapply Z.le_lt_trans; [exact H1|].
    replace (U * (d * Zc) * (K + 1) * (r * Y))
      with (U * (r * Y) * ((d * Zc) * (K + 1))) by ring.
    eapply Z.le_lt_trans; [exact H2|].
    replace (n * X * (K + 1) * ((d * Zc) * (K + 1)))
      with (n * X * Zc * (d * ((K + 1) * (K + 1)))) by ring.
    exact H4. }
  apply Z.mul_lt_mono_pos_r in H5; [exact H5|].
  repeat apply Z.mul_pos_pos; lia.
Qed.

(** The bin index of the 16-bit ranged kernels is within the histogram: for
    [1 <= n_bins] and a sample within [[hist_min, hist_max)], the cast is
    defined and yields an index in [[0, n_bins - 1]]. *)
Lemma ranged_bin_uint16_range (n_bins hist_min hist_max v : Z) :
  1 <= n_bins < 2 ^ 16 -> 0 <= hist_min -> hist_max < 2 ^ 16 ->
  hist_min <= v < hist_max ->
  exists i,
    ranged_bin_uint16 (bin_factor_uint16 n_bins hist_min hist_max) hist_min v
    = Done i
    /\ 0 <= i <= n_bins - 1.
Proof.
  intros Hn Hmin Hmax Hv.
  unfold ranged_bin_uint16, bin_factor_uint16.
  set (r := hist_max - hist_min); set (d := v - hist_min).
  assert (Hr : 1 <= r < 2 ^ 16) by (unfold r; lia).
  assert (Hd : 0 <= d < r) by (unfold d, r; lia).
  destruct (of_Z_normal n_bins ltac:(lia)) as (mn & En & Dn & Vn & _).
  destruct (of_Z_normal r ltac:(lia)) as (mr & Er & Dr & Vr & _).
  pose proof (Zdigits2_le_16 n_bins ltac:(lia)) as Ln.
  pose proof (Zdigits2_le_16 r ltac:(lia)) as Lr.
  set (dn := Zdigits2 n_bins) in *; set (dr := Zdigits2 r) in *.
  destruct (div_upper mn (dn - 24) mr (dr - 24) Dn Dr ltac:(lia))
    as (mq & g & Eq & Hmq & Hg & Hq).
  rewrite En, Er, Eq.
  destruct (Z.eq_dec d 0) as [E0|N0].
  - rewrite E0; exists 0; split; [reflexivity | lia].
  - destruct (of_Z_normal d ltac:(lia)) as (md & Ed & Dd & Vd & _).
    pose proof (Zdigits2_le_16 d ltac:(lia)) as Ld.
    pose proof (Zdigits2_le_of_lt d r ltac:(lia) ltac:(lia)) as Ldr.
    set (dd := Zdigits2 d) in *.
    assert (Dq : Zpos (digits2_pos mq) = 24)
      by (apply digits2_pos_unique; exact Hmq).
    destruct (mul_upper mq (dn - 24 - (dr - 24) - 24 + g) md (dd - 24) Dq Dd
                ltac:(lia)) as (mp & h & Ep & Hmp & Hh & Hp).
    fold dr in Ldr.
    rewrite Ed, Ep.
    set (ep := dn - 24 - (dr - 24) - 24 + g + (dd - 24) + h).
    assert (Hep : ep <= -5) by (unfold ep; lia).
    unfold F32.to_u16, F32.trunc_mag.
    replace (0 <=? ep) with false by (symmetry; apply Z.leb_gt; lia).
    rewrite Z.shiftr_div_pow2 by lia.
    assert (Hpow : 0 < 2 ^ (- ep)) by (apply Z.pow_pos_nonneg; lia).
    assert (Hlt : Zpos mp / 2 ^ (- ep) < n_bins).
    { apply Z.div_lt_upper_bound; [exact Hpow|].
      assert (H2h : 0 < 2 ^ h) by (apply Z.pow_pos_nonneg; lia).
      assert (H2g : 0 < 2 ^ g) by (apply Z.pow_pos_nonneg; lia).
      assert (HX : 0 < 2 ^ (24 - dn)) by (apply Z.pow_pos_nonneg; lia).
      assert (HY : 0 < 2 ^ (24 - dr)) by (apply Z.pow_pos_nonneg; lia).
      assert (HZ : 0 < 2 ^ (24 - dd)) by (apply Z.pow_pos_nonneg; lia).
      assert (HU : Zpos mp * 2 ^ h * 2 ^ 24 * 2 ^ g
                   <= Zpos mq * 2 ^ g * Zpos md * (2 ^ 24 + 1)).
      { pose proof (Z.mul_le_mono_nonneg_r _ _ (2 ^ g) ltac:(lia) Hp) as Hp'.
        replace (Zpos mq * 2 ^ g * Zpos md * (2 ^ 24 + 1))
          with (Zpos mq * Zpos md * (2 ^ 24 + 1) * 2 ^ g) by ring.
        exact Hp'. }
      assert (HW : 2 ^ (- ep + h) * 2 ^ g * 2 ^ (24 - dr)
                   = 2 ^ (24 - dn) * 2 ^ (24 - dd) * 2 ^ 24).
      { rewrite <- !Z.pow_add_r by lia. f_equal. unfold ep. lia. }
      assert (HT : Zpos mp * 2 ^ h < n_bins * 2 ^ (- ep + h)).
      { apply (two_roundings_below n_bins r d (Zpos mn) (Zpos mr) (Zpos md)
                 (Zpos mq * 2 ^ g) (Zpos mp * 2 ^ h)
                 (2 ^ (24 - dn)) (2 ^ (24 - dr)) (2 ^ (24 - dd)) (2 ^ g));
          first [ assumption | lia | apply Z.mul_nonneg_nonneg; lia ]. }
      rewrite Z.pow_add_r in HT by lia. nia. }
    assert (H0 : 0 <= Zpos mp / 2 ^ (- ep)) by (apply Z.div_pos; lia).
    replace (Zpos mp / 2 ^ (- ep) <? 2 ^ 16) with true
      by (symmetry; apply Z.ltb_lt; lia).
    eexists; split; [reflexivity | lia].
Qed.

(** ** The bin mapping of the ranged kernels *)

(** C3, as amended.  A sample [v] with [hist_min <= v < hist_max] is sent
    - by the 16-bit and float kernels to the bin of index
      [(uint16_t) (bin_factor * (v - hist_min))] with
      [bin_factor = (float) n_bins / (hist_max - hist_min)], both evaluated in
      single precision; for the 16-bit kernels with [n_bins >= 1] that index
      lies in [[0, n_bins - 1]];
    - by the 8-bit kernels, which take no [n_bins], to bin [v - hist_min],
      which lies in [[0, hist_max - hist_min - 1]] and is the specification's
      bin for [n_bins = hist_max - hist_min + 1];
    and, on a view the loops traverse in full ([view_ok]: non-zero strides,
    [rows * r_stride] and [cols * c_stride] below [2^32]) with a well-formed
    span mask ([mask_ok]), a run of any of the six ranged kernels that
    completes from a zeroed buffer leaves in every bin the number of active
    samples sent to it. *)
Theorem ranged_bin_mapping (mem : memory) (image rows cols r_stride c_stride : Z)
    (starts ends : list Z) (n : nat) (n_bins : Z) :
  view_ok rows cols r_stride c_stride = true ->
  mask_ok rows cols starts ends = true ->
  (forall hist_min hist_max last_bin v,
      hist_min <= v < hist_max ->
      ranged_route_uint16 (bin_factor_uint16 n_bins hist_min hist_max)
        last_bin hist_min hist_max v
      = (i <- F32.to_u16
                (F32.mul (F32.div (F32.of_Z n_bins)
                            (F32.of_Z (hist_max - hist_min)))
                   (F32.of_Z (v - hist_min))) ;;
         Done (Some i)))
  /\ (forall hist_min hist_max last_bin v,
      1 <= n_bins < 2 ^ 16 -> 0 <= hist_min -> hist_max < 2 ^ 16 ->
      hist_min <= v < hist_max ->
      exists i,
        ranged_route_uint16 (bin_factor_uint16 n_bins hist_min hist_max)
          last_bin hist_min hist_max v = Done (Some i)
        /\ 0 <= i <= n_bins - 1)
  /\ (forall hist_min hist_max last_bin v,
      F32.ge v hist_min = true -> F32.lt v hist_max = true ->
      ranged_route_float (bin_factor_float n_bins hist_min hist_max)
        last_bin hist_min hist_max v
      = (i <- F32.to_u16
                (F32.mul (F32.div (F32.of_Z n_bins) (F32.sub hist_max hist_min))
                   (F32.sub v hist_min)) ;;
         Done (Some i)))
  /\ (forall hist_min hist_max v,
      hist_min <= v < hist_max ->
      ranged_route_uint8 hist_min hist_max v = Done (Some (v - hist_min))
      /\ 0 <= v - hist_min <= hist_max - hist_min - 1
      /\ v - hist_min
         = spec_ranged_bin (hist_max - hist_min + 1) hist_min hist_max v)
  /\ (forall hist_min hist_max h mm,
      (ranged_hist_uint8 mem image rows cols r_stride c_stride (zeroed n)
         hist_min hist_max = Done (h, mm) ->
       bins_count (ranged_route_uint8 hist_min hist_max)
         (samples (load_u8 mem) image rows cols r_stride c_stride) n h)
      /\ (masked_ranged_hist_uint8 mem image rows cols r_stride c_stride
            starts ends (zeroed n) hist_min hist_max = Done (h, mm) ->
          bins_count (ranged_route_uint8 hist_min hist_max)
            (masked_samples (load_u8 mem) image rows r_stride c_stride
               starts ends) n h)
      /\ (ranged_hist_uint16 mem image rows cols r_stride c_stride (zeroed n)
            n_bins hist_min hist_max = Done (h, mm) ->
          bins_count
            (ranged_route_uint16 (bin_factor_uint16 n_bins hist_min hist_max)
               (n_bins - 1) hist_min hist_max)
            (samples (load_u16 mem) image rows cols r_stride c_stride) n h)
      /\ (masked_ranged_hist_uint16 mem image rows cols r_stride c_stride
            starts ends (zeroed n) n_bins hist_min hist_max = Done (h, mm) ->
          bins_count
            (ranged_route_uint16 (bin_factor_uint16 n_bins hist_min hist_max)
               (n_bins - 1) hist_min hist_max)
            (masked_samples (load_u16 mem) image rows r_stride c_stride
               starts ends) n h))
  /\ (forall hist_min hist_max h,
      (ranged_hist_float mem image rows cols r_stride c_stride (zeroed n)
         n_bins hist_min hist_max = Done h ->
       bins_count
         (ranged_route_float (bin_factor_float n_bins hist_min hist_max)
            (n_bins - 1) hist_min hist_max)
         (samples (load_f32 mem) image rows cols r_stride c_stride) n h)
      /\ (masked_ranged_hist_float mem image rows cols r_stride c_stride
            starts ends (zeroed n) n_bins hist_min hist_max = Done h ->
          bins_count
            (ranged_route_float (bin_factor_float n_bins hist_min hist_max)
               (n_bins - 1) hist_min hist_max)
            (masked_samples (load_f32 mem) image rows r_stride c_stride
               starts ends) n h)).
Proof.
  intros Hv Hm; repeat apply conj.
  - intros hist_min hist_max last_bin v [H0 H1].
    unfold ranged_route_uint16.
    apply Z.geb_le in H0; apply Z.ltb_lt in H1; rewrite H0, H1; reflexivity.
  - intros hist_min hist_max last_bin v Hn Hlo Hhi Hin.
    destruct (ranged_bin_uint16_range n_bins hist_min hist_max v Hn Hlo Hhi Hin)
      as (i & Ei & Hi).
    exists i; split; [|exact Hi].
    unfold ranged_route_uint16.
    replace (v >=? hist_min) with true by (symmetry; apply Z.geb_le; lia).
    replace (v <? hist_max) with true by (symmetry; apply Z.ltb_lt; lia).
    cbn [andb]; rewrite Ei; reflexivity.
  - intros hist_min hist_max last_bin v H0 H1.
    unfold ranged_route_float; rewrite H0, H1; reflexivity.
  - intros hist_min hist_max v H; unfold ranged_route_uint8.
    replace (v >=? hist_min) with true by (symmetry; apply Z.geb_le; lia).
    replace (v <=? hist_max) with true by (symmetry; apply Z.leb_le; lia).
    split; [reflexivity|]; split; [lia|].
    symmetry; apply spec_ranged_bin_unit, H.
  - intros hist_min hist_max h mm; repeat apply conj.
    + apply ranged_hist_uint8_bins, Hv.
    + apply masked_ranged_hist_uint8_bins; assumption.
    + apply ranged_hist_uint16_bins, Hv.
    + apply masked_ranged_hist_uint16_bins; assumption.
  - intros hist_min hist_max h; split.
    + apply ranged_hist_float_bins, Hv.
    + apply masked_ranged_hist_float_bins; assumption.
Qed.

(** The claim C3 as stated fails on the 8-bit kernel: with the [n_bins = 25]
    bins of a caller's histogram, range [(10, 30)] and the sample [20], the
    specification's bin is [floor(25/20 * 10) = 12], and the kernel
    increments bin [20 - 10 = 10]. *)
Lemma ranged_bin_mapping_counterexample :
  ~ (forall (n_bins : nat) (hist_min hist_max : Z) (mem : memory),
        hist_min <= load_u8 mem 0 < hist_max ->
        exists mm,
          ranged_hist_uint8 mem 0 1 1 1 1 (zeroed n_bins) hist_min hist_max
          = Done (bump (zeroed n_bins)
                    (Z.to_nat (spec_ranged_bin (Z.of_nat n_bins) hist_min
                                 hist_max (load_u8 mem 0))),
                  mm)).
Proof.
  intros H.
  destruct (H 25%nat 10 30 (mem_of_bytes [20])) as [mm E].
  - change (10 <= 20 < 30); lia.
  - vm_compute in E; discriminate E.
Qed.

(** ** The sample equal to [hist_max] *)



(** ** The range-drop property *)

Lemma filter_all_length {A : Type} (f : A -> bool) (l : list A) :
  length (filter f l) = length l <-> forall a, In a l -> f a = true.
Proof.
  induction l as [|a l IH]; simpl; [tauto|].
  pose proof (filter_length_le f l) as Hle.
  destruct (f a) eqn:E; simpl.
  - split.
    + intros H x [<-|Hx]; [exact E | apply IH; [lia | exact Hx]].
    + intros H; f_equal; apply IH; auto.
  - split; [lia|].
    intros H; rewrite (H a (or_introl eq_refl)) in E; discriminate.
Qed.

(** A routed pass that faults on no sample and stores within the buffer
    completes from a zeroed buffer, with the bins summing to the number of
    samples it routes to a bin. *)
Lemma routed_pass_total (g : Z -> list Z -> outcome (list Z)) (load : Z -> Z)
    (route : Z -> outcome (option Z)) (inside : Z -> bool) (n : nat) :
  (forall p h, g p h = (o <- route (load p) ;; store h o)) ->
  (forall p, if inside (load p)
             then exists i, route (load p) = Done (Some i)
                            /\ 0 <= i < Z.of_nat n
             else route (load p) = Done None) ->
  forall ps,
    Z.of_nat (length ps) < 2 ^ 32 ->
    exists h',
      fold_m g ps (zeroed n) = Done h'
      /\ bin_total h' = count inside (map load ps).
Proof.
  intros Hg Hr ps Hlen.
  set (sel := fun p => match route (load p) with Done o => o | _ => None end).
  destruct (fold_m_count g sel) with (ps := ps) (h := zeroed n)
    as (h' & Hf & _ & _ & Ht).
  - intros p h; rewrite Hg; unfold sel.
    specialize (Hr p); destruct (inside (load p)).
    + destruct Hr as (i & -> & _); reflexivity.
    + rewrite Hr; reflexivity.
  - apply zeroed_nonneg.
  - intros p i _; unfold sel; rewrite zeroed_length.
    specialize (Hr p); destruct (inside (load p)).
    + destruct Hr as (j & -> & Hj); intros E; inversion E; subst; exact Hj.
    + rewrite Hr; discriminate.
  - rewrite zeroed_total; lia.
  - exists h'; split; [exact Hf|].
    rewrite Ht, zeroed_total, count_map; unfold count; simpl; f_equal; f_equal.
    apply filter_ext; intros p; unfold sel.
    specialize (Hr p); destruct (inside (load p)).
    + destruct Hr as (j & -> & _); reflexivity.
    + rewrite Hr; reflexivity.
Qed.

Lemma routed_hist_pass_total (body : Z -> hist_state -> outcome hist_state)
    (load : Z -> Z) (route : Z -> outcome (option Z)) (inside : Z -> bool)
    (n : nat) :
  (forall p h mm,
      body p (h, mm)
      = (h' <- (o <- route (load p) ;; store h o) ;;
         Done (h', minmax_step Z.ltb Z.gtb (load p) mm))) ->
  (forall p, if inside (load p)
             then exists i, route (load p) = Done (Some i)
                            /\ 0 <= i < Z.of_nat n
             else route (load p) = Done None) ->
  forall ps mm,
    Z.of_nat (length ps) < 2 ^ 32 ->
    exists h' mm',
      fold_m body ps (zeroed n, mm) = Done (h', mm')
      /\ bin_total h' = count inside (map load ps).
Proof.
  intros Hb Hr ps mm Hlen.
  rewrite (fold_m_hist_split body _ load Hb).
  destruct (routed_pass_total _ load route inside n (fun _ _ => eq_refl) Hr
              ps Hlen) as (h' & -> & Ht).
  cbn [bind]; do 2 eexists; split; [reflexivity | exact Ht].
Qed.

Lemma range_drop_of_count (lo hi : Z) (l h : list Z) :
  bin_total h = count (fun v => (lo <=? v) && (v <=? hi)) l ->
  range_drop lo hi l h.
Proof.
  intros Ht; unfold range_drop, in_range_count; unfold count in Ht.
  pose proof (filter_length_le (fun v => (lo <=? v) && (v <=? hi)) l).
  split; [exact Ht|]; split; [lia|].
  rewrite Ht, Nat2Z.inj_iff, filter_all_length.
  split; intros H0 v Hin; specialize (H0 v Hin).
  - apply andb_prop in H0; destruct H0 as [H1 H2].
    apply Z.leb_le in H1; apply Z.leb_le in H2; lia.
  - apply andb_true_intro; split; apply Z.leb_le; lia.
Qed.

(** The 8-bit ranged route: within the range to a bin of the buffer, outside
    it to none. *)
Lemma ranged_route_uint8_total (hist_min hist_max : Z) (n : nat) (v : Z) :
  hist_max - hist_min < Z.of_nat n ->
  if (hist_min <=? v) && (v <=? hist_max)
  then exists i, ranged_route_uint8 hist_min hist_max v = Done (Some i)
                 /\ 0 <= i < Z.of_nat n
  else ranged_route_uint8 hist_min hist_max v = Done None.
Proof.
  intros Hn; unfold ranged_route_uint8; rewrite Z.geb_leb.
  destruct (Z.leb_spec hist_min v); destruct (Z.leb_spec v hist_max);
    cbn [andb]; try reflexivity.
  eexists; split; [reflexivity | lia].
Qed.

(** The 16-bit ranged route, likewise, by the bound on the bin index. *)
Lemma ranged_route_uint16_total (n_bins hist_min hist_max v : Z) :
  1 <= n_bins < 2 ^ 16 -> 0 <= hist_min <= hist_max -> hist_max < 2 ^ 16 ->
  if (hist_min <=? v) && (v <=? hist_max)
  then exists i,
         ranged_route_uint16 (bin_factor_uint16 n_bins hist_min hist_max)
           (n_bins - 1) hist_min hist_max v = Done (Some i)
         /\ 0 <= i < Z.of_nat (Z.to_nat n_bins)
  else ranged_route_uint16 (bin_factor_uint16 n_bins hist_min hist_max)
         (n_bins - 1) hist_min hist_max v = Done None.
Proof.
  intros Hn Hm Hx; unfold ranged_route_uint16; rewrite Z.geb_leb.
  destruct (Z.leb_spec hist_min v); destruct (Z.leb_spec v hist_max);
    cbn [andb].
  - destruct (Z.ltb_spec v hist_max).
    + destruct (ranged_bin_uint16_range n_bins hist_min hist_max v)
        as (i & -> & Hi); try lia.
      exists i; split; [reflexivity | lia].
    + replace (v =? hist_max) with true by (symmetry; apply Z.eqb_eq; lia).
      eexists; split; [reflexivity | lia].
  - replace (v <? hist_max) with false by (symmetry; apply Z.ltb_ge; lia).
    replace (v =? hist_max) with false by (symmetry; apply Z.eqb_neq; lia).
    reflexivity.
  - replace (v =? hist_max) with false by (symmetry; apply Z.eqb_neq; lia).
    reflexivity.
  - replace (v =? hist_max) with false by (symmetry; apply Z.eqb_neq; lia).
    reflexivity.
Qed.

(** X11. The integer ranged kernels have the range-drop property on a view the
    loops traverse in full ([view_ok]: non-zero strides, [rows * r_stride]
    and [cols * c_stride] below [2^32]) with a well-formed span mask
    ([mask_ok]): on a zeroed histogram (with a bin for every value of the
    range for 8-bit samples, of [n_bins] bins and [hist_min <= hist_max] for
    16-bit samples) they complete, the bins sum to the number of active
    samples within [[hist_min, hist_max]], and to the number of active
    samples exactly when all are within it. *)
Lemma ranged_integer_range_drop (mem : memory)
    (image rows cols r_stride c_stride : Z) (starts ends : list Z)
    (hist_min hist_max : Z) :
  view_ok rows cols r_stride c_stride = true ->
  mask_ok rows cols starts ends = true ->
  (forall n : nat,
      hist_max - hist_min < Z.of_nat n ->
      (exists h mm,
          ranged_hist_uint8 mem image rows cols r_stride c_stride (zeroed n)
            hist_min hist_max = Done (h, mm)
          /\ range_drop hist_min hist_max
               (samples (load_u8 mem) image rows cols r_stride c_stride) h)
      /\ (exists h mm,
            masked_ranged_hist_uint8 mem image rows cols r_stride c_stride
              starts ends (zeroed n) hist_min hist_max = Done (h, mm)
            /\ range_drop hist_min hist_max
                 (masked_samples (load_u8 mem) image rows r_stride c_stride
                    starts ends) h))
  /\ (forall n_bins,
      1 <= n_bins < 2 ^ 16 -> 0 <= hist_min <= hist_max -> hist_max < 2 ^ 16 ->
      (exists h mm,
          ranged_hist_uint16 mem image rows cols r_stride c_stride
            (zeroed (Z.to_nat n_bins)) n_bins hist_min hist_max = Done (h, mm)
          /\ range_drop hist_min hist_max
               (samples (load_u16 mem) image rows cols r_stride c_stride) h)
      /\ (exists h mm,
            masked_ranged_hist_uint16 mem image rows cols r_stride c_stride
              starts ends (zeroed (Z.to_nat n_bins)) n_bins hist_min hist_max
            = Done (h, mm)
            /\ range_drop hist_min hist_max
                 (masked_samples (load_u16 mem) image rows r_stride c_stride
                    starts ends) h)).
Proof.
  intros Hv Hm.
  pose proof (view_addresses_bound image rows cols r_stride c_stride Hv) as Ha.
  pose proof (mask_addresses_bound image rows cols r_stride c_stride Hv
                starts ends Hm) as Hma.
  split.
  - intros n Hn; split.
    + unfold ranged_hist_uint8; rewrite scan_fold by exact Hv.
      destruct (routed_hist_pass_total _ _ _
                  (fun v => (hist_min <=? v) && (v <=? hist_max)) n
                  (ranged_hist_uint8_pixel_route mem hist_min hist_max)
                  (fun p => ranged_route_uint8_total hist_min hist_max n
                              (load_u8 mem p) Hn)
                  (addresses image rows cols r_stride c_stride)
                  (load_u8 mem image, load_u8 mem image) Ha)
        as (h & mm & E & Ht).
      exists h, mm; split; [exact E | apply range_drop_of_count, Ht].
    + unfold masked_ranged_hist_uint8.
      rewrite (masked_scan_fold image rows cols r_stride c_stride starts ends _
                 Hv Hm).
      match goal with
      | |- context [fold_m _ _ (_, ?seed)] =>
          destruct (routed_hist_pass_total _ _ _
                      (fun v => (hist_min <=? v) && (v <=? hist_max)) n
                      (ranged_hist_uint8_pixel_route mem hist_min hist_max)
                      (fun p => ranged_route_uint8_total hist_min hist_max n
                                  (load_u8 mem p) Hn)
                      (masked_addresses image rows r_stride c_stride starts ends)
                      seed Hma)
            as (h & mm & E & Ht)
      end.
      exists h, mm; split; [exact E | apply range_drop_of_count, Ht].
  - intros n_bins Hn Hmm Hx; split.
    + unfold ranged_hist_uint16; rewrite scan_fold by exact Hv.
      destruct (routed_hist_pass_total _ _ _
                  (fun v => (hist_min <=? v) && (v <=? hist_max))
                  (Z.to_nat n_bins)
                  (ranged_hist_uint16_pixel_route mem _ _ hist_min hist_max)
                  (fun p => ranged_route_uint16_total n_bins hist_min hist_max
                              (load_u16 mem p) Hn Hmm Hx)
                  (addresses image rows cols r_stride c_stride)
                  (load_u16 mem image, load_u16 mem image) Ha)
        as (h & mm & E & Ht).
      exists h, mm; split; [exact E | apply range_drop_of_count, Ht].
    + unfold masked_ranged_hist_uint16.
      rewrite (masked_scan_fold image rows cols r_stride c_stride starts ends _
                 Hv Hm).
      match goal with
      | |- context [fold_m _ _ (_, ?seed)] =>
          destruct (routed_hist_pass_total _ _ _
                      (fun v => (hist_min <=? v) && (v <=? hist_max))
                      (Z.to_nat n_bins)
                      (ranged_hist_uint16_pixel_route mem _ _ hist_min hist_max)
                      (fun p => ranged_route_uint16_total n_bins hist_min
                                  hist_max (load_u16 mem p) Hn Hmm Hx)
                      (masked_addresses image rows r_stride c_stride starts ends)
                      seed Hma)
            as (h & mm & E & Ht)
      end.
      exists h, mm; split; [exact E | apply range_drop_of_count, Ht].
Qed.

(** C6.  The float ranged kernels do not have the range-drop property: the
    1x1 image holding [0.0], with [hist_min = -16777216.0], [hist_max = 1.0]
    and [n_bins = 4] on a zeroed histogram of 4 bins.  The sample lies within
    the range; [hist_max - hist_min] rounds to [16777216.0], so
    [bin_factor * (val - hist_min)] is exactly [4.0] and the store is at
    index [4 = n_bins], outside the histogram: the sample is counted in no
    bin. *)
Theorem ranged_hist_float_in_range_sample_lost :
  let mem := mem_of_bytes [0; 0; 0; 0] in
  let hist_min := F32.of_bits 0xCB800000 in
  let hist_max := F32.of_bits 0x3F800000 in
  view_ok 1 1 4 4 = true
  /\ F32.ge (load_f32 mem 0) hist_min = true
  /\ F32.lt (load_f32 mem 0) hist_max = true
  /\ ranged_bin_float (bin_factor_float 4 hist_min hist_max) hist_min
       (load_f32 mem 0) = Done 4
  /\ ranged_hist_float mem 0 1 1 4 4 (zeroed 4) 4 hist_min hist_max = OutOfBounds
  /\ masked_ranged_hist_float mem 0 1 1 4 4 [0] [1] (zeroed 4) 4 hist_min hist_max
     = OutOfBounds.
Proof. vm_compute; repeat split. Qed.

(** ** The histogram-length check of the entry points *)

(** C5.  For a [uint16] image with [is_twelve_bit] false, [py_hist_min_max]
    accepts exactly the histograms of [bin_count<uint16_t>()] elements, while
    [py_masked_hist_min_max] tests the length against [bin_count<uint8_t>()]:
    whenever the two counts differ it rejects the histogram of the right
    length, with the message that asks for that very length, and routes a
    histogram of [bin_count<uint8_t>()] elements to the kernel. *)
Theorem masked_hist_length_check (bin_count : Py.elt_kind -> Z) (rows cols : Z) :
  bin_count Py.UInt8 <> bin_count Py.UInt16 ->
  let im := Py.image_info Py.UInt16 rows cols in
  let mask := Py.mask_info rows cols in
  let min_max := Py.min_max_info Py.UInt16 in
  (forall n,
      Py.py_hist_min_max bin_count im (Py.hist_info n) min_max false
      = if n =? bin_count Py.UInt16
        then inr (Py.hist_min_max Py.UInt16 false)
        else inl (Py.hist_length (bin_count Py.UInt16) Py.UInt16))
  /\ Py.py_masked_hist_min_max bin_count im mask
       (Py.hist_info (bin_count Py.UInt16)) min_max false
     = inl (Py.hist_length (bin_count Py.UInt16) Py.UInt16)
  /\ Py.py_masked_hist_min_max bin_count im mask
       (Py.hist_info (bin_count Py.UInt8)) min_max false
     = inr (Py.masked_hist_min_max Py.UInt16 false).
Proof.
  intros Hne im mask min_max; repeat apply conj.
  - intros n; unfold Py.py_hist_min_max; cbn.
    destruct (n =? bin_count Py.UInt16); reflexivity.
  - unfold Py.py_masked_hist_min_max; cbn.
    destruct (Z.eqb_spec (bin_count Py.UInt16) (bin_count Py.UInt8)) as [E|_];
      [congruence | reflexivity].
  - unfold Py.py_masked_hist_min_max; cbn.
    rewrite Z.eqb_refl; reflexivity.
Qed.

(** * The theorems at concrete inputs

    The images are those of the specification's examples: the 2x2 row-major
    image [[10, 20], [30, 255]], as 8-bit samples, as little-endian 16-bit
    samples, and a 2x2 float image [[1.0, 2.0], [-0.5, 4.0]]. *)

Lemma min_max_true_extrema_witness :
  view_ok 2 2 2 1 = true /\ 1 <= 2
  /\ exists h mm,
       hist_uint8 (mem_of_bytes [10; 20; 30; 255]) 0 2 2 2 1 (zeroed 256)
       = Done (h, mm)
       /\ int_extrema 10 [10; 20; 30; 255] mm.
Proof.
  split; [reflexivity|]; split; [lia|].
  destruct (min_max_true_extrema (mem_of_bytes [10; 20; 30; 255]) 0 2 2 2 1)
    as (_ & H & _); [reflexivity | lia | lia |].
  exact (H (zeroed 256) eq_refl).
Defined.

Lemma fixed_histogram_sum_witness :
  view_ok 2 2 2 1 = true
  /\ exists h mm,
       hist_uint8 (mem_of_bytes [10; 20; 30; 255]) 0 2 2 2 1 (zeroed 256)
       = Done (h, mm)
       /\ bin_total h = 2 * 2.
Proof.
  split; [reflexivity|].
  destruct (fixed_histogram_sum (mem_of_bytes [10; 20; 30; 255]) 0 2 2 2 1)
    as (H & _); [reflexivity | exact H].
Defined.

Lemma fixed_histogram_in_bounds_witness :
  0 <= 4 <= 16
  /\ hist_uint16 (mem_of_bytes [10; 0; 20; 0; 30; 0; 255; 15]) 0 2 2 4 2
       (zeroed 4096) 4 <> OutOfBounds.
Proof.
  split; [lia|].
  destruct (fixed_histogram_in_bounds
              (mem_of_bytes [10; 0; 20; 0; 30; 0; 255; 15]) (zeroed 4096) 4)
    as (_ & _ & _ & H); [lia|].
  destruct (H 0 2 2 4 2 [] []) as [_ H16].
  destruct (H16 eq_refl) as [Hu _]; exact Hu.
Defined.

Lemma working_min_le_max_witness :
  10 <= 20
  /\ minmax_step Z.ltb Z.gtb 5 (10, 20) = (Z.min 5 10, Z.max 5 20)
  /\ fst (10, 255) <= snd (10, 255).
Proof.
  destruct working_min_le_max as (_ & Hstep & Hrun).
  split; [lia|]; split; [apply Hstep; lia|].
  eapply (Hrun (mem_of_bytes [10; 20; 30; 255]) 0 2 2 2 1 [] [] (zeroed 256)
            0 0 0 0).
  left; vm_compute; reflexivity.
Defined.

Lemma masked_full_equals_unmasked_witness :
  let mem := mem_of_bytes [0; 0; 128; 63; 0; 0; 0; 64; 0; 0; 0; 191; 0; 0; 128; 64] in
  view_ok 2 2 8 4 = true /\ 1 <= 2
  /\ masked_minmax_float mem 0 2 2 8 4 [0; 0] [2; 2] = minmax_float mem 0 2 2 8 4.
Proof.
  intros mem; split; [reflexivity|]; split; [lia|].
  destruct (masked_full_equals_unmasked mem 0 2 2 8 4) as (H & _);
    [reflexivity | lia | lia | exact H].
Defined.


Lemma ranged_bin_mapping_witness :
  view_ok 2 2 4 2 = true /\ mask_ok 2 2 [0; 1] [1; 2] = true /\ 10 <= 20 < 30
  /\ ranged_route_uint16 (bin_factor_uint16 2 10 30) 1 10 30 20 = Done (Some 1).
Proof.
  split; [reflexivity|]; split; [reflexivity|]; split; [lia|].
  destruct (ranged_bin_mapping (mem_of_bytes [10; 0; 20; 0; 30; 0; 255; 0])
              0 2 2 4 2 [0; 1] [1; 2] 2 2) as (H & _);
    [reflexivity | reflexivity |].
  rewrite (H 10 30 1 20) by lia; vm_compute; reflexivity.
Defined.


Lemma masked_hist_length_check_witness :
  Py.spec_bin_count Py.UInt8 <> Py.spec_bin_count Py.UInt16
  /\ Py.py_hist_min_max Py.spec_bin_count (Py.image_info Py.UInt16 2 2)
       (Py.hist_info 256) (Py.min_max_info Py.UInt16) false
     = inl (Py.hist_length 65536 Py.UInt16)
  /\ Py.py_masked_hist_min_max Py.spec_bin_count (Py.image_info Py.UInt16 2 2)
       (Py.mask_info 2 2) (Py.hist_info 256) (Py.min_max_info Py.UInt16) false
     = inr (Py.masked_hist_min_max Py.UInt16 false).
Proof.
  assert (Hne : Py.spec_bin_count Py.UInt8 <> Py.spec_bin_count Py.UInt16)
    by (vm_compute; discriminate).
  destruct (masked_hist_length_check Py.spec_bin_count 2 2 Hne) as (Hu & _ & Hm).
  split; [exact Hne|]; split; [exact (Hu 256) | exact Hm].
Defined.

(** ** The specification's example scenarios *)

Example example_min_max :
  exists h,
    hist_uint8 (mem_of_bytes [10; 20; 30; 255]) 0 2 2 2 1 (zeroed 256)
    = Done (h, (10, 255))
    /\ map (fun j => nth j h 0) [10; 20; 30; 255]%nat = [1; 1; 1; 1]
    /\ bin_total h = 4.
Proof. eexists; vm_compute; repeat split. Qed.

Example example_masked_min_max :
  exists h,
    masked_hist_uint8 (mem_of_bytes [10; 20; 30; 255]) 0 2 2 2 1 [0; 1] [1; 2]
      (zeroed 256)
    = Done (h, (10, 255))
    /\ bin_total h = 2.
Proof. eexists; vm_compute; repeat split. Qed.

Example example_ranged_uint16 :
  ranged_hist_uint16 (mem_of_bytes [10; 0; 20; 0; 30; 0; 255; 0]) 0 2 2 4 2
    (zeroed 2) 2 10 30
  = Done ([1; 2], (10, 255)).
Proof. vm_compute; reflexivity. Qed.

(** The same scenario on 8-bit samples, as the specification gives it: the
    8-bit kernel has no [n_bins] and stores at [val - hist_min]. *)
Example example_ranged_uint8 :
  ranged_hist_uint8 (mem_of_bytes [10; 20; 30; 255]) 0 2 2 2 1 (zeroed 2) 10 30
  = OutOfBounds
  /\ ranged_hist_uint8 (mem_of_bytes [10; 20; 30; 255]) 0 2 2 2 1 (zeroed 21)
       10 30
     = Done (bump (bump (bump (zeroed 21) 0) 10) 20, (10, 255)).
Proof. vm_compute; split; reflexivity. Qed.

(** Single-precision rounding of the bin index: with [n_bins = 2] over the
    range [(0, 82)] the sample [41] has the exact bin [floor(2/82 * 41) = 1],
    and the 16-bit kernel counts it in bin 0. *)
Example example_rounded_bin :
  spec_ranged_bin 2 0 82 41 = 1
  /\ ranged_route_uint16 (bin_factor_uint16 2 0 82) 1 0 82 41 = Done (Some 0).
Proof. vm_compute; split; reflexivity. Qed.

(** A leading NaN stays the minimum and the maximum. *)
Example example_leading_nan :
  minmax_float (mem_of_bytes [0; 0; 192; 127; 0; 0; 128; 63]) 0 1 2 8 4
  = Done (S754_nan, S754_nan).
Proof. vm_compute; reflexivity. Qed.

(** * The entry points *)

(** Case analysis on the equality tests of an entry point. *)
Ltac split_tests :=
  repeat match goal with
         | |- context [Z.eqb ?a ?b] => destruct (Z.eqb_spec a b); cbn [negb]
         | |- context [String.eqb ?a ?b] =>
             destruct (String.eqb_spec a b); cbn [negb]
         end.

Ltac accepted_or_thrown :=
  unfold Py.throw, PyStats.throw;
  try discriminate;
  let H := fresh in
  intros H; inversion H; subst; clear H.

(** X1. [py_hist_min_max] accepts a call exactly when the image is 2-D of an
    unsigned integer kind [T] (only [uint16] when [is_twelve_bit]), the
    histogram is 1-D [uint32] of [bin_count<T>()] elements and the min/max
    buffer is 1-D of two elements of the image's format; the kernel it then
    calls is the instantiation at [T]: every pointer cast is to the type the
    buffer declares, and a float image is never accepted. *)
Theorem py_hist_min_max_accepted (bin_count : Py.elt_kind -> Z)
    (im hist min_max : Py.buffer_info) (is_twelve_bit : bool)
    (c : Py.kernel_call) :
  Py.py_hist_min_max bin_count im hist min_max is_twelve_bit = inr c
  <-> exists T,
      c = Py.hist_min_max T is_twelve_bit
      /\ In T [Py.UInt8; Py.UInt16; Py.UInt32; Py.UInt64]
      /\ (is_twelve_bit = true -> T = Py.UInt16)
      /\ Py.ndim im = 2 /\ Py.format im = Py.format_descriptor T
      /\ Py.ndim hist = 1 /\ Py.format hist = Py.format_descriptor Py.UInt32
      /\ nth 0 (Py.shape hist) 0 = bin_count T
      /\ Py.ndim min_max = 1 /\ nth 0 (Py.shape min_max) 0 = 2
      /\ Py.format min_max = Py.format_descriptor T.
Proof.
  split.
  - unfold Py.py_hist_min_max; destruct is_twelve_bit; split_tests;
      accepted_or_thrown;
      eexists; (split; [reflexivity|]);
      (split; [simpl; tauto|]);
      (split; [first [reflexivity | discriminate]|]);
      repeat split; congruence.
  - intros (T & -> & HT & Hb & H1 & H2 & H3 & H4 & H5 & H6 & H7 & H8).
    unfold Py.py_hist_min_max.
    rewrite H1, H3, H4, H6, H7, H8, H2, H5.
    destruct is_twelve_bit.
    + rewrite (Hb eq_refl). simpl. rewrite Z.eqb_refl. reflexivity.
    + simpl in HT; destruct HT as [<-|[<-|[<-|[<-|[]]]]];
        simpl; rewrite Z.eqb_refl; reflexivity.
Qed.

(** X2. With a valid mask (2-D, [uint8]) [py_masked_hist_min_max] decides as
    [py_hist_min_max] does, same exception or the masked instantiation of the
    same kernel, on every call outside the [uint16], not-twelve-bit branch
    (or when the two bin counts that branch confuses agree); and it rejects
    an invalid mask of a 2-D image before looking at any other argument. *)
Theorem masked_hist_entry_agrees (bin_count : Py.elt_kind -> Z)
    (im mask hist min_max : Py.buffer_info) (is_twelve_bit : bool) :
  (Py.ndim mask = 2 -> Py.format mask = Py.format_descriptor Py.UInt8 ->
   is_twelve_bit = true
   \/ Py.format im <> Py.format_descriptor Py.UInt16
   \/ bin_count Py.UInt8 = bin_count Py.UInt16 ->
   Py.py_masked_hist_min_max bin_count im mask hist min_max is_twelve_bit
   = match Py.py_hist_min_max bin_count im hist min_max is_twelve_bit with
     | inl e => inl e
     | inr c => inr (PyStats.masked_hist_call c)
     end)
  /\ (Py.ndim im = 2 -> Py.ndim mask <> 2 ->
      Py.py_masked_hist_min_max bin_count im mask hist min_max is_twelve_bit
      = inl Py.mask_not_2d)
  /\ (Py.ndim im = 2 -> Py.ndim mask = 2 ->
      Py.format mask <> Py.format_descriptor Py.UInt8 ->
      Py.py_masked_hist_min_max bin_count im mask hist min_max is_twelve_bit
      = inl Py.mask_format).
Proof.
  split; [|split].
  - intros H1 H2 H3.
    unfold Py.py_masked_hist_min_max, Py.py_hist_min_max.
    rewrite H1, H2.
    destruct is_twelve_bit.
    + split_tests; first [reflexivity | congruence].
    + destruct H3 as [H3|[H3|H3]]; [discriminate | |].
      * split_tests; first [reflexivity | congruence].
      * rewrite H3; split_tests; first [reflexivity | congruence].
  - intros H1 H2; unfold Py.py_masked_hist_min_max; rewrite H1.
    destruct (Z.eqb_spec (Py.ndim mask) 2); [contradiction | reflexivity].
  - intros H1 H2 H3; unfold Py.py_masked_hist_min_max; rewrite H1, H2.
    destruct (String.eqb_spec (Py.format mask) (Py.format_descriptor Py.UInt8));
      [contradiction | reflexivity].
Qed.

Lemma masked_hist_entry_agrees_witness :
  Py.py_masked_hist_min_max Py.spec_bin_count (Py.image_info Py.UInt8 3 4)
    (Py.mask_info 3 4) (Py.hist_info 256) (Py.min_max_info Py.UInt8) false
  = inr (Py.masked_hist_min_max Py.UInt8 false)
  /\ Py.py_masked_hist_min_max Py.spec_bin_count (Py.image_info Py.UInt8 3 4)
       (Py.hist_info 12) (Py.hist_info 256) (Py.min_max_info Py.UInt8) false
     = inl Py.mask_not_2d
  /\ Py.py_masked_hist_min_max Py.spec_bin_count (Py.image_info Py.UInt8 3 4)
       (Py.image_info Py.UInt16 3 4) (Py.hist_info 256)
       (Py.min_max_info Py.UInt8) false
     = inl Py.mask_format.
Proof.
  split; [|split].
  - apply (proj1 (masked_hist_entry_agrees Py.spec_bin_count
                    (Py.image_info Py.UInt8 3 4) (Py.mask_info 3 4)
                    (Py.hist_info 256) (Py.min_max_info Py.UInt8) false));
      [reflexivity | reflexivity | right; left; discriminate].
  - apply (proj1 (proj2 (masked_hist_entry_agrees Py.spec_bin_count
                           (Py.image_info Py.UInt8 3 4) (Py.hist_info 12)
                           (Py.hist_info 256) (Py.min_max_info Py.UInt8) false)));
      [reflexivity | discriminate].
  - apply (proj2 (proj2 (masked_hist_entry_agrees Py.spec_bin_count
                           (Py.image_info Py.UInt8 3 4)
                           (Py.image_info Py.UInt16 3 4) (Py.hist_info 256)
                           (Py.min_max_info Py.UInt8) false)));
      [reflexivity | reflexivity | discriminate].
Defined.

(** X3. [py_min_max] accepts a call exactly when the image is 2-D of one of
    the six supported kinds [T] and the min/max buffer is 1-D of two elements
    of the image's format; the kernel it then calls is the instantiation at
    [T]. *)
Theorem py_min_max_accepted (im min_max : Py.buffer_info)
    (c : PyStats.kernel_call) :
  PyStats.py_min_max im min_max = inr c
  <-> exists T,
      c = PyStats.k_min_max T
      /\ Py.ndim im = 2 /\ Py.format im = Py.format_descriptor T
      /\ Py.ndim min_max = 1 /\ nth 0 (Py.shape min_max) 0 = 2
      /\ Py.format min_max = Py.format_descriptor T.
Proof.
  split.
  - unfold PyStats.py_min_max; split_tests; accepted_or_thrown;
      eexists; (split; [reflexivity|]); repeat split; congruence.
  - intros (T & -> & H1 & H2 & H3 & H4 & H5).
    unfold PyStats.py_min_max; rewrite H1, H3, H4, H5, H2.
    destruct T; reflexivity.
Qed.

(** X4. [py_masked_min_max] repeats the checks of [py_min_max] before it
    looks at the mask: an exception of [py_min_max] about the image or the
    min/max buffer is thrown whatever the mask; with a 2-D [uint8] mask the
    two decide alike (the masked instantiation at the same kind, or the
    unsupported-format exception in its own wording); and an accepted call
    has a 2-D [uint8] mask. *)
Theorem py_masked_min_max_after_py_min_max (im mask min_max : Py.buffer_info) :
  (forall e, PyStats.py_min_max im min_max = inl (PyStats.shared e) ->
             PyStats.py_masked_min_max im mask min_max
             = inl (PyStats.shared e))
  /\ (Py.ndim mask = 2 -> Py.format mask = Py.format_descriptor Py.UInt8 ->
      PyStats.py_masked_min_max im mask min_max
      = match PyStats.py_min_max im min_max with
        | inl PyStats.unsupported_buffers =>
            inl PyStats.unsupported_im_min_max_buffers
        | inl e => inl e
        | inr c => inr (PyStats.masked_call c)
        end)
  /\ (forall c, PyStats.py_masked_min_max im mask min_max = inr c ->
                Py.ndim mask = 2
                /\ Py.format mask = Py.format_descriptor Py.UInt8
                /\ exists T, c = PyStats.k_masked_min_max T
                             /\ PyStats.py_min_max im min_max
                                = inr (PyStats.k_min_max T)).
Proof.
  split; [|split].
  - intros e; unfold PyStats.py_masked_min_max, PyStats.py_min_max.
    split_tests; unfold PyStats.throw; intros H; first [exact H | discriminate].
  - intros H1 H2; unfold PyStats.py_masked_min_max, PyStats.py_min_max.
    rewrite H1, H2; split_tests; first [reflexivity | congruence].
  - intros c; unfold PyStats.py_masked_min_max, PyStats.py_min_max.
    split_tests; accepted_or_thrown;
      (split; [assumption|]); (split; [assumption|]);
      eexists; split; reflexivity.
Qed.

Lemma py_masked_min_max_after_py_min_max_witness :
  PyStats.py_masked_min_max (Py.image_info Py.UInt16 3 4) (Py.hist_info 12)
    (Py.hist_info 2)
  = inl (PyStats.shared Py.im_min_max_format)
  /\ PyStats.py_masked_min_max (Py.image_info Py.Float32 3 4) (Py.mask_info 3 4)
       (Py.min_max_info Py.Float32)
     = inr (PyStats.k_masked_min_max Py.Float32).
Proof.
  split.
  - apply (proj1 (py_masked_min_max_after_py_min_max
                    (Py.image_info Py.UInt16 3 4) (Py.hist_info 12)
                    (Py.hist_info 2))); reflexivity.
  - apply (proj1 (proj2 (py_masked_min_max_after_py_min_max
                           (Py.image_info Py.Float32 3 4) (Py.mask_info 3 4)
                           (Py.min_max_info Py.Float32)))); reflexivity.
Defined.

(** X5. [py_ranged_hist] accepts a call exactly when the image is 2-D of one
    of the six supported kinds [T], the range buffer has the image's format
    and the histogram is 1-D [uint32]: neither the rank or length of the range
    buffer nor the length of the histogram is tested, and that length,
    whatever it is, becomes the kernel's [n_bins].  [with_overflow_bins] only
    selects the instantiation: both settings accept the same calls and throw
    the same exceptions. *)
Theorem py_ranged_hist_accepted (im range hist : Py.buffer_info)
    (with_overflow_bins : bool) :
  (forall c,
      PyStats.py_ranged_hist im range hist with_overflow_bins = inr c
      <-> exists T,
          c = PyStats.k_ranged_hist T with_overflow_bins
                (nth 0 (Py.shape hist) 0)
          /\ Py.ndim im = 2 /\ Py.format im = Py.format_descriptor T
          /\ Py.format range = Py.format_descriptor T
          /\ Py.ndim hist = 1
          /\ Py.format hist = Py.format_descriptor Py.UInt32)
  /\ (forall e,
      PyStats.py_ranged_hist im range hist with_overflow_bins = inl e
      <-> PyStats.py_ranged_hist im range hist (negb with_overflow_bins)
          = inl e).
Proof.
  split.
  - intros c; split.
    + unfold PyStats.py_ranged_hist; destruct with_overflow_bins;
        split_tests; accepted_or_thrown;
        eexists; (split; [reflexivity|]); repeat split; congruence.
    + intros (T & -> & H1 & H2 & H3 & H4 & H5).
      unfold PyStats.py_ranged_hist; rewrite H1, H3, H4, H5, H2.
      destruct T, with_overflow_bins; reflexivity.
  - intros e; unfold PyStats.py_ranged_hist; destruct with_overflow_bins;
      cbn [negb]; split_tests; unfold PyStats.throw;
      (split; intros H; first [exact H | discriminate]).
Qed.

(** X6. [py_masked_ranged_hist] never tests the mask: whatever the mask
    buffer, it decides as [py_ranged_hist] does on the other arguments (same
    exception, or the masked instantiation with the same [n_bins]).  So a
    mask that is not 2-D, which [py_masked_min_max] and
    [py_masked_hist_min_max] reject, is handed to the ranged kernel. *)
Theorem py_masked_ranged_hist_ignores_mask (im mask range hist : Py.buffer_info)
    (with_overflow_bins : bool) :
  PyStats.py_masked_ranged_hist im mask range hist with_overflow_bins
  = match PyStats.py_ranged_hist im range hist with_overflow_bins with
    | inl e => inl e
    | inr c => inr (PyStats.masked_call c)
    end
  /\ (Py.ndim mask <> 2 ->
      forall (bin_count : Py.elt_kind -> Z) (T : Py.elt_kind)
             (rows cols n : Z) (is_twelve_bit : bool),
        PyStats.py_masked_ranged_hist (Py.image_info T rows cols) mask
          (Py.min_max_info T) (Py.hist_info n) with_overflow_bins
        = inr (PyStats.k_masked_ranged_hist T with_overflow_bins n)
        /\ PyStats.py_masked_min_max (Py.image_info T rows cols) mask
             (Py.min_max_info T)
           = inl (PyStats.shared Py.mask_not_2d)
        /\ Py.py_masked_hist_min_max bin_count (Py.image_info T rows cols) mask
             (Py.hist_info n) (Py.min_max_info T) is_twelve_bit
           = inl Py.mask_not_2d).
Proof.
  split.
  - unfold PyStats.py_masked_ranged_hist, PyStats.py_ranged_hist.
    destruct with_overflow_bins; split_tests; reflexivity.
  - intros Hm bin_count T rows cols n is_twelve_bit.
    split; [|split].
    + destruct T, with_overflow_bins; reflexivity.
    + unfold PyStats.py_masked_min_max.
      destruct (Z.eqb_spec (Py.ndim mask) 2) as [E|_]; [contradiction|].
      destruct T; reflexivity.
    + unfold Py.py_masked_hist_min_max.
      destruct (Z.eqb_spec (Py.ndim mask) 2) as [E|_]; [contradiction|].
      reflexivity.
Qed.

Lemma py_masked_ranged_hist_ignores_mask_witness :
  PyStats.py_masked_ranged_hist (Py.image_info Py.Float32 3 4)
    (Py.hist_info 12) (Py.min_max_info Py.Float32) (Py.hist_info 0) false
  = inr (PyStats.k_masked_ranged_hist Py.Float32 false 0)
  /\ PyStats.py_masked_min_max (Py.image_info Py.Float32 3 4) (Py.hist_info 12)
       (Py.min_max_info Py.Float32)
     = inl (PyStats.shared Py.mask_not_2d)
  /\ Py.py_masked_hist_min_max Py.spec_bin_count
       (Py.image_info Py.Float32 3 4) (Py.hist_info 12) (Py.hist_info 0)
       (Py.min_max_info Py.Float32) false
     = inl Py.mask_not_2d.
Proof.
  apply (proj2 (py_masked_ranged_hist_ignores_mask
                  (Py.image_info Py.Float32 3 4) (Py.hist_info 12)
                  (Py.min_max_info Py.Float32) (Py.hist_info 0) false)).
  discriminate.
Defined.

(** * Further properties of the kernels *)

(** ** Per-bin counts of the fixed-range kernels *)

(** A pass that increments bin [idx p] for every address [p]: from
    non-negative counters that cannot wrap, every bin grows by the number of
    addresses sent to it. *)
Lemma indexed_pass_bins (g : Z -> list Z -> outcome (list Z)) (idx : Z -> Z)
    (ps : list Z) (h : list Z) :
  (forall p h, g p h = incr_bin h (idx p)) ->
  (forall p, In p ps -> 0 <= idx p < Z.of_nat (length h)) ->
  Forall (fun c => 0 <= c) h ->
  bin_total h + Z.of_nat (length ps) < 2 ^ 32 ->
  exists h',
    fold_m g ps h = Done h' /\ length h' = length h
    /\ forall j, (j < length h)%nat ->
         nth j h' 0 = nth j h 0 + count (fun p => idx p =? Z.of_nat j) ps.
Proof.
  intros Hg Hi Hnn Hsum.
  destruct (fold_m_in_bounds g idx Hg ps h Hi) as (h' & Hf & Hl).
  exists h'; split; [exact Hf|]; split; [exact Hl|].
  destruct (fold_m_bins g (fun p => Done (Some (idx p)))
              ltac:(intros; rewrite Hg; reflexivity) ps h h' Hnn Hsum Hf)
    as [_ Hc].
  exact Hc.
Qed.

Lemma indexed_hist_pass_bins (body : Z -> hist_state -> outcome hist_state)
    (g : Z -> list Z -> outcome (list Z)) (load idx : Z -> Z)
    (ps : list Z) (h : list Z) (mm : Z * Z) :
  (forall p h mm,
      body p (h, mm)
      = (h' <- g p h ;; Done (h', minmax_step Z.ltb Z.gtb (load p) mm))) ->
  (forall p h, g p h = incr_bin h (idx (load p))) ->
  (forall p, In p ps -> 0 <= idx (load p) < Z.of_nat (length h)) ->
  Forall (fun c => 0 <= c) h ->
  bin_total h + Z.of_nat (length ps) < 2 ^ 32 ->
  exists h' mm',
    fold_m body ps (h, mm) = Done (h', mm') /\ length h' = length h
    /\ forall j, (j < length h)%nat ->
         nth j h' 0
         = nth j h 0 + count (fun v => idx v =? Z.of_nat j) (map load ps).
Proof.
  intros Hb Hg Hi Hnn Hsum.
  rewrite (fold_m_hist_split body g load Hb).
  destruct (indexed_pass_bins g (fun p => idx (load p)) ps h Hg Hi Hnn Hsum)
    as (h' & -> & Hl & Hc).
  cbn [bind]; do 2 eexists; split; [reflexivity|]; split; [exact Hl|].
  intros j Hj; rewrite (Hc j Hj), count_map; reflexivity.
Qed.

(** X7. On a view the loops traverse in full ([view_ok]: non-zero strides,
    [rows * r_stride] and [cols * c_stride] below [2^32]), with a well-formed
    span mask ([mask_ok]) for the masked kernels and a histogram of the
    required length (256 bins, or [2^(16-shift)]), the fixed-range kernels
    add to every bin of the caller's histogram the number of active samples
    that belong to it: bin [j] grows by the number of samples equal to [j]
    (8-bit) or with [val >> shift = j] (16-bit).  The buffer is never
    cleared, so successive calls accumulate; the counters are assumed not to
    wrap. *)
Theorem fixed_histogram_bins (mem : memory)
    (image rows cols r_stride c_stride : Z) (starts ends histogram : list Z) :
  view_ok rows cols r_stride c_stride = true ->
  mask_ok rows cols starts ends = true ->
  Forall (fun c => 0 <= c) histogram ->
  bin_total histogram + rows * cols < 2 ^ 32 ->
  (length histogram = 256%nat ->
   (exists h mm,
       hist_uint8 mem image rows cols r_stride c_stride histogram = Done (h, mm)
       /\ length h = 256%nat
       /\ forall j, (j < 256)%nat ->
            nth j h 0
            = nth j histogram 0
              + count (fun v => v =? Z.of_nat j)
                  (samples (load_u8 mem) image rows cols r_stride c_stride))
   /\ (exists h mm,
          masked_hist_uint8 mem image rows cols r_stride c_stride starts ends
            histogram = Done (h, mm)
          /\ length h = 256%nat
          /\ forall j, (j < 256)%nat ->
               nth j h 0
               = nth j histogram 0
                 + count (fun v => v =? Z.of_nat j)
                     (masked_samples (load_u8 mem) image rows r_stride c_stride
                        starts ends)))
  /\ (forall shift, 0 <= shift <= 16 ->
      length histogram = Z.to_nat (2 ^ (16 - shift)) ->
      (exists h mm,
          hist_uint16 mem image rows cols r_stride c_stride histogram shift
          = Done (h, mm)
          /\ length h = length histogram
          /\ forall j, (j < length histogram)%nat ->
               nth j h 0
               = nth j histogram 0
                 + count (fun v => Z.shiftr v shift =? Z.of_nat j)
                     (samples (load_u16 mem) image rows cols r_stride c_stride))
      /\ (exists h mm,
             masked_hist_uint16 mem image rows cols r_stride c_stride
               starts ends histogram shift = Done (h, mm)
             /\ length h = length histogram
             /\ forall j, (j < length histogram)%nat ->
                  nth j h 0
                  = nth j histogram 0
                    + count (fun v => Z.shiftr v shift =? Z.of_nat j)
                        (masked_samples (load_u16 mem) image rows r_stride
                           c_stride starts ends))).
Proof.
  intros Hv Hm Hnn Hsum.
  destruct (view_samples_bound _ _ _ _ Hv) as (Hr & Hc & Hrc).
  assert (Ha : bin_total histogram
               + Z.of_nat (length (addresses image rows cols r_stride c_stride))
               < 2 ^ 32) by (rewrite addresses_length; lia).
  assert (Hma : bin_total histogram
                + Z.of_nat (length (masked_addresses image rows r_stride
                                      c_stride starts ends)) < 2 ^ 32).
  { rewrite (masked_addresses_length _ _ _ _ _ _ cols Hm).
    pose proof (span_total_bound rows cols starts ends Hm Hr Hc); lia. }
  split.
  - intros Hlen.
    assert (H8 : forall p, 0 <= load_u8 mem p < Z.of_nat (length histogram))
      by (intros p; pose proof (load_u8_range mem p); rewrite Hlen; lia).
    split.
    + unfold hist_uint8; rewrite scan_fold by exact Hv.
      destruct (indexed_hist_pass_bins _ _ (load_u8 mem) (fun v => v)
                  (addresses image rows cols r_stride c_stride) histogram
                  (load_u8 mem image, load_u8 mem image)
                  (hist_uint8_pixel_split mem) (fun _ _ => eq_refl)
                  (fun p _ => H8 p) Hnn Ha) as (h & mm & E & Hl & Hb).
      exists h, mm; rewrite <- Hlen; auto.
    + unfold masked_hist_uint8.
      rewrite (masked_scan_fold image rows cols r_stride c_stride starts ends _
                 Hv Hm).
      match goal with
      | |- context [fold_m _ _ (_, ?seed)] =>
          destruct (indexed_hist_pass_bins _ _ (load_u8 mem) (fun v => v)
                      (masked_addresses image rows r_stride c_stride starts ends)
                      histogram seed
                      (hist_uint8_pixel_split mem) (fun _ _ => eq_refl)
                      (fun p _ => H8 p) Hnn Hma) as (h & mm & E & Hl & Hb)
      end.
      exists h, mm; rewrite <- Hlen; auto.
  - intros shift Hs Hlen.
    assert (H16 : forall p, 0 <= Z.shiftr (load_u16 mem p) shift
                            < Z.of_nat (length histogram)).
    { intros p; rewrite Hlen, Z2Nat.id by (apply Z.pow_nonneg; lia).
      apply shiftr_range; [exact Hs | apply load_u16_range]. }
    split.
    + unfold hist_uint16; rewrite scan_fold by exact Hv.
      destruct (indexed_hist_pass_bins _ _ (load_u16 mem)
                  (fun v => Z.shiftr v shift)
                  (addresses image rows cols r_stride c_stride) histogram
                  (load_u16 mem image, load_u16 mem image)
                  (hist_uint16_pixel_split mem shift) (fun _ _ => eq_refl)
                  (fun p _ => H16 p) Hnn Ha) as (h & mm & E & Hl & Hb).
      exists h, mm; auto.
    + unfold masked_hist_uint16.
      rewrite (masked_scan_fold image rows cols r_stride c_stride starts ends _
                 Hv Hm).
      match goal with
      | |- context [fold_m _ _ (_, ?seed)] =>
          destruct (indexed_hist_pass_bins _ _ (load_u16 mem)
                      (fun v => Z.shiftr v shift)
                      (masked_addresses image rows r_stride c_stride starts ends)
                      histogram seed
                      (hist_uint16_pixel_split mem shift) (fun _ _ => eq_refl)
                      (fun p _ => H16 p) Hnn Hma) as (h & mm & E & Hl & Hb)
      end.
      exists h, mm; auto.
Qed.

Lemma fixed_histogram_bins_witness :
  let mem := mem_of_bytes [10; 20; 10; 255] in
  view_ok 2 2 2 1 = true /\ mask_ok 2 2 [0; 1] [1; 2] = true
  /\ exists h mm,
       hist_uint8 mem 0 2 2 2 1 (zeroed 256) = Done (h, mm)
       /\ length h = 256%nat
       /\ forall j, (j < 256)%nat ->
            nth j h 0
            = nth j (zeroed 256) 0
              + count (fun v => v =? Z.of_nat j)
                  (samples (load_u8 mem) 0 2 2 2 1).
Proof.
  intros mem; split; [reflexivity|]; split; [reflexivity|].
  destruct (fixed_histogram_bins mem 0 2 2 2 1 [0; 1] [1; 2] (zeroed 256))
    as (H & _);
    [reflexivity | reflexivity | apply zeroed_nonneg
     | rewrite zeroed_total; lia |].
  destruct (H eq_refl) as (Hu & _); exact Hu.
Defined.

(** ** Passes whose pixel body cannot fault *)

Lemma fold_m_total {St : Type} (P : St -> Prop) (body : Z -> St -> outcome St) :
  (forall p s, P s -> exists s', body p s = Done s' /\ P s') ->
  forall (ps : list Z) (s : St),
    P s -> exists s', fold_m body ps s = Done s' /\ P s'.
Proof.
  intros Hb; induction ps as [|p l IH]; intros s Hs.
  - exists s; split; [reflexivity | exact Hs].
  - cbn [fold_m]; destruct (Hb p s Hs) as (s1 & -> & Hs1); cbn [bind].
    exact (IH s1 Hs1).
Qed.

(** A loop whose body, under an invariant, returns or runs away returns or
    runs away itself: it ends neither in [OutOfBounds] nor in [BadCast]. *)
Lemma ptr_loop_safe {St : Type} (P : St -> Prop) (body : Z -> St -> outcome St) :
  (forall p s, P s ->
     (exists s', body p s = Done s' /\ P s') \/ body p s = OutOfFuel) ->
  forall fuel p stop stride s,
    P s ->
    (exists s', ptr_loop fuel p stop stride body s = Done s' /\ P s')
    \/ ptr_loop fuel p stop stride body s = OutOfFuel.
Proof.
  intros Hb; induction fuel as [|fuel IH]; intros p stop stride s Hs.
  - cbn [ptr_loop]; destruct (p =? stop); [left; exists s; auto | right; auto].
  - rewrite ptr_loop_S; destruct (p =? stop); [left; exists s; auto|].
    destruct (Hb p s Hs) as [(s1 & -> & Hs1)| ->]; cbn [bind];
      [apply IH; exact Hs1 | right; reflexivity].
Qed.

Lemma scan_safe {St : Type} (P : St -> Prop) (body : Z -> St -> outcome St)
    (image rows cols r_stride c_stride : Z) (s : St) :
  (forall p s, P s -> exists s', body p s = Done s' /\ P s') ->
  P s ->
  scan image rows cols r_stride c_stride body s <> OutOfBounds
  /\ scan image rows cols r_stride c_stride body s <> BadCast.
Proof.
  intros Hb Hs; unfold scan.
  match goal with
  | |- ?o <> _ /\ _ =>
      assert (H : (exists s', o = Done s' /\ P s') \/ o = OutOfFuel)
  end.
  { apply ptr_loop_safe; [|exact Hs].
    intros row s0 Hs0; apply ptr_loop_safe; [|exact Hs0].
    intros p s1 Hs1; left; exact (Hb p s1 Hs1). }
  destruct H as [(s' & -> & _)| ->]; split; discriminate.
Qed.

Lemma masked_scan_safe {St : Type} (P : St -> Prop)
    (body : Z -> St -> outcome St) (image rows cols r_stride c_stride : Z)
    (starts ends : list Z) (s : St) :
  (forall p s, P s -> exists s', body p s = Done s' /\ P s') ->
  P s ->
  masked_scan image rows cols r_stride c_stride starts ends body s
  <> OutOfBounds
  /\ masked_scan image rows cols r_stride c_stride starts ends body s
     <> BadCast.
Proof.
  intros Hb Hs; unfold masked_scan.
  match goal with
  | |- bind ?o _ <> _ /\ _ =>
      assert (H : (exists r, o = Done r /\ P (snd r)) \/ o = OutOfFuel)
  end.
  { apply (ptr_loop_safe (fun st : nat * St => P (snd st))); [|exact Hs].
    intros row [i s0] Hs0; cbn [snd] in Hs0.
    destruct (ptr_loop_safe P body (fun p s1 Hs1 => or_introl (Hb p s1 Hs1))
                max_iter (row + u32 (nth i starts 0 * c_stride))
                (row + u32 (nth i ends 0 * c_stride)) c_stride s0 Hs0)
      as [(s1 & -> & Hs1)| ->]; cbn [bind];
      [left; eexists; split; [reflexivity | exact Hs1] | right; reflexivity]. }
  destruct H as [(r & -> & _)| ->]; split; discriminate.
Qed.

(** The pixel body of a ranged kernel whose route stays within the buffer
    returns, and leaves the buffer's length as it is. *)
Lemma routed_pixel_total {T : Type} (route : T -> outcome (option Z))
    (n : Z) (v : T) (h : list Z) :
  (route v = Done None
   \/ exists i, route v = Done (Some i) /\ 0 <= i < n) ->
  n <= Z.of_nat (length h) ->
  exists h', (o <- route v ;; store h o) = Done h'
             /\ length h' = length h.
Proof.
  intros [->|(i & -> & Hi)] Hn; cbn [bind store].
  - exists h; auto.
  - rewrite incr_bin_Done by lia.
    eexists; split; [reflexivity | apply bump_length].
Qed.

Lemma routed_hist_pixel_total (body : Z -> hist_state -> outcome hist_state)
    (load : Z -> Z) (route : Z -> outcome (option Z)) (n : Z) :
  (forall p h mm,
      body p (h, mm)
      = (h' <- (o <- route (load p) ;; store h o) ;;
         Done (h', minmax_step Z.ltb Z.gtb (load p) mm))) ->
  (forall v, route v = Done None
             \/ exists i, route v = Done (Some i) /\ 0 <= i < n) ->
  forall p (s : hist_state),
    n <= Z.of_nat (length (fst s)) ->
    exists s', body p s = Done s' /\ n <= Z.of_nat (length (fst s')).
Proof.
  intros Hb Hr p [h mm] Hn; cbn [fst] in Hn.
  rewrite Hb.
  destruct (routed_pixel_total route n (load p) h (Hr (load p)) Hn)
    as (h' & -> & Hl).
  cbn [bind]; eexists; split; [reflexivity|]; cbn [fst]; lia.
Qed.

(** The 8-bit route, whatever the order of the range bounds. *)
Lemma ranged_route_uint8_safe (hist_min hist_max v : Z) :
  ranged_route_uint8 hist_min hist_max v = Done None
  \/ exists i, ranged_route_uint8 hist_min hist_max v = Done (Some i)
               /\ 0 <= i < hist_max - hist_min + 1.
Proof.
  unfold ranged_route_uint8; rewrite Z.geb_leb.
  destruct (Z.leb_spec hist_min v); destruct (Z.leb_spec v hist_max);
    cbn [andb]; auto.
  right; eexists; split; [reflexivity | lia].
Qed.

(** The 16-bit route, whatever the order of the range bounds: when
    [hist_max <= hist_min] no sample takes the first branch, and
    [bin_factor], a quotient by zero or by a negative number, is never
    used. *)
Lemma ranged_route_uint16_safe (n_bins hist_min hist_max v : Z) :
  1 <= n_bins < 2 ^ 16 -> 0 <= hist_min -> hist_max < 2 ^ 16 ->
  ranged_route_uint16 (bin_factor_uint16 n_bins hist_min hist_max)
    (n_bins - 1) hist_min hist_max v = Done None
  \/ exists i,
      ranged_route_uint16 (bin_factor_uint16 n_bins hist_min hist_max)
        (n_bins - 1) hist_min hist_max v = Done (Some i)
      /\ 0 <= i < n_bins.
Proof.
  intros Hn Hlo Hhi; unfold ranged_route_uint16; rewrite Z.geb_leb.
  destruct (Z.leb_spec hist_min v); destruct (Z.ltb_spec v hist_max);
    cbn [andb].
  - destruct (ranged_bin_uint16_range n_bins hist_min hist_max v)
      as (i & -> & Hi); try lia.
    right; exists i; split; [reflexivity | lia].
  - destruct (v =? hist_max); [right; eexists; split; [reflexivity | lia]
                              | left; reflexivity].
  - destruct (v =? hist_max); [right; eexists; split; [reflexivity | lia]
                              | left; reflexivity].
  - destruct (v =? hist_max); [right; eexists; split; [reflexivity | lia]
                              | left; reflexivity].
Qed.

(** X8. The 8- and 16-bit ranged kernels never store outside the histogram and
    never cast out of range, on any image, view or mask and whatever the
    order of [hist_min] and [hist_max]: with a buffer of at least
    [hist_max - hist_min + 1] bins for 8-bit samples, of at least [n_bins]
    bins ([1 <= n_bins]) for 16-bit samples. *)
Theorem ranged_integer_kernels_in_bounds (mem : memory)
    (image rows cols r_stride c_stride : Z) (starts ends histogram : list Z)
    (hist_min hist_max : Z) :
  (hist_max - hist_min + 1 <= Z.of_nat (length histogram) ->
   forall o,
     In o [ ranged_hist_uint8 mem image rows cols r_stride c_stride histogram
              hist_min hist_max;
            masked_ranged_hist_uint8 mem image rows cols r_stride c_stride
              starts ends histogram hist_min hist_max ] ->
     o <> OutOfBounds /\ o <> BadCast)
  /\ (forall n_bins,
      1 <= n_bins < 2 ^ 16 -> 0 <= hist_min -> hist_max < 2 ^ 16 ->
      n_bins <= Z.of_nat (length histogram) ->
      forall o,
        In o [ ranged_hist_uint16 mem image rows cols r_stride c_stride
                 histogram n_bins hist_min hist_max;
               masked_ranged_hist_uint16 mem image rows cols r_stride c_stride
                 starts ends histogram n_bins hist_min hist_max ] ->
        o <> OutOfBounds /\ o <> BadCast).
Proof.
  split.
  - intros Hlen o [<-|[<-|[]]].
    + unfold ranged_hist_uint8.
      apply (scan_safe
               (fun s : hist_state =>
                  hist_max - hist_min + 1 <= Z.of_nat (length (fst s))));
        [|exact Hlen].
      apply (routed_hist_pixel_total _ (load_u8 mem)
               (ranged_route_uint8 hist_min hist_max));
        [apply ranged_hist_uint8_pixel_route | apply ranged_route_uint8_safe].
    + unfold masked_ranged_hist_uint8.
      apply (masked_scan_safe
               (fun s : hist_state =>
                  hist_max - hist_min + 1 <= Z.of_nat (length (fst s))));
        [|exact Hlen].
      apply (routed_hist_pixel_total _ (load_u8 mem)
               (ranged_route_uint8 hist_min hist_max));
        [apply ranged_hist_uint8_pixel_route | apply ranged_route_uint8_safe].
  - intros n_bins Hn Hlo Hhi Hlen o [<-|[<-|[]]].
    + unfold ranged_hist_uint16.
      apply (scan_safe
               (fun s : hist_state => n_bins <= Z.of_nat (length (fst s))));
        [|exact Hlen].
      apply (routed_hist_pixel_total _ (load_u16 mem)
               (ranged_route_uint16 (bin_factor_uint16 n_bins hist_min hist_max)
                  (n_bins - 1) hist_min hist_max));
        [ apply ranged_hist_uint16_pixel_route
        | intros v; apply ranged_route_uint16_safe; assumption ].
    + unfold masked_ranged_hist_uint16.
      apply (masked_scan_safe
               (fun s : hist_state => n_bins <= Z.of_nat (length (fst s))));
        [|exact Hlen].
      apply (routed_hist_pixel_total _ (load_u16 mem)
               (ranged_route_uint16 (bin_factor_uint16 n_bins hist_min hist_max)
                  (n_bins - 1) hist_min hist_max));
        [ apply ranged_hist_uint16_pixel_route
        | intros v; apply ranged_route_uint16_safe; assumption ].
Qed.

Lemma ranged_integer_kernels_in_bounds_witness :
  let mem := mem_of_bytes [10; 0; 20; 0; 30; 0; 255; 0] in
  ranged_hist_uint16 mem 0 2 2 4 2 (zeroed 3) 3 30 10 <> OutOfBounds
  /\ ranged_hist_uint16 mem 0 2 2 4 2 (zeroed 3) 3 30 10 <> BadCast.
Proof.
  intros mem.
  apply (proj2 (ranged_integer_kernels_in_bounds mem 0 2 2 4 2 [] []
                  (zeroed 3) 30 10) 3); try (simpl; lia).
  left; reflexivity.
Defined.

(** ** Minimum and maximum of the ranged and the masked kernels *)

(** An integer pass whose histogram update cannot fault under an invariant
    of the buffer completes; its working pair is the fold of the update. *)
Lemma hist_pass_minmax (body : Z -> hist_state -> outcome hist_state)
    (g : Z -> list Z -> outcome (list Z)) (load : Z -> Z)
    (P : list Z -> Prop) :
  (forall p h mm,
      body p (h, mm)
      = (h' <- g p h ;; Done (h', minmax_step Z.ltb Z.gtb (load p) mm))) ->
  (forall p h, P h -> exists h', g p h = Done h' /\ P h') ->
  forall (ps : list Z) (h : list Z) (mm : Z * Z),
    P h ->
    exists h',
      fold_m body ps (h, mm)
      = Done (h', fold_left (fun st v => minmax_step Z.ltb Z.gtb v st)
                    (map load ps) mm)
      /\ P h'.
Proof.
  intros Hb Hg ps h mm Hh.
  rewrite (fold_m_hist_split body g load Hb).
  destruct (fold_m_total P g Hg ps h Hh) as (h' & -> & Hh').
  cbn [bind]; exists h'; split; [reflexivity | exact Hh'].
Qed.

Lemma routed_hist_pass_minmax (body : Z -> hist_state -> outcome hist_state)
    (load : Z -> Z) (route : Z -> outcome (option Z)) (n : Z) :
  (forall p h mm,
      body p (h, mm)
      = (h' <- (o <- route (load p) ;; store h o) ;;
         Done (h', minmax_step Z.ltb Z.gtb (load p) mm))) ->
  (forall v, route v = Done None
             \/ exists i, route v = Done (Some i) /\ 0 <= i < n) ->
  forall (ps : list Z) (h : list Z) (mm : Z * Z),
    n <= Z.of_nat (length h) ->
    exists h',
      fold_m body ps (h, mm)
      = Done (h', fold_left (fun st v => minmax_step Z.ltb Z.gtb v st)
                    (map load ps) mm)
      /\ n <= Z.of_nat (length h').
Proof.
  intros Hb Hr.
  apply (hist_pass_minmax body _ load
           (fun h0 : list Z => n <= Z.of_nat (length h0)) Hb).
  intros p h0 Hh0.
  destruct (routed_pixel_total route n (load p) h0 (Hr (load p)) Hh0)
    as (h1 & E & Hl).
  exists h1; split; [exact E | lia].
Qed.

(** The same for the fixed-range updates [histogram[idx]++]. *)
Lemma indexed_hist_pass_minmax (body : Z -> hist_state -> outcome hist_state)
    (load idx : Z -> Z) (n : nat) :
  (forall p h mm,
      body p (h, mm)
      = (h' <- incr_bin h (idx p) ;;
         Done (h', minmax_step Z.ltb Z.gtb (load p) mm))) ->
  (forall p, 0 <= idx p < Z.of_nat n) ->
  forall (ps : list Z) (h : list Z) (mm : Z * Z),
    length h = n ->
    exists h',
      fold_m body ps (h, mm)
      = Done (h', fold_left (fun st v => minmax_step Z.ltb Z.gtb v st)
                    (map load ps) mm)
      /\ length h' = n.
Proof.
  intros Hb Hi.
  apply (hist_pass_minmax body (fun p h0 => incr_bin h0 (idx p)) load
           (fun h0 : list Z => length h0 = n) Hb).
  intros p h0 Hh0; rewrite incr_bin_Done by (rewrite Hh0; apply Hi).
  eexists; split; [reflexivity | rewrite bump_length; exact Hh0].
Qed.

Lemma int_minmax_seed (x : Z) : minmax_step Z.ltb Z.gtb x (x, x) = (x, x).
Proof.
  unfold minmax_step; rewrite Z.ltb_irrefl, Z_gtb_ltb, Z.ltb_irrefl; reflexivity.
Qed.

Lemma float_minmax_seed (x : spec_float) :
  minmax_step F32.lt F32.gt x (x, x) = (x, x).
Proof.
  unfold minmax_step; rewrite F32_gt_lt, F32_lt_irrefl; reflexivity.
Qed.

(** X9. On a non-empty image of a view the loops traverse in full
    ([view_ok]: non-zero strides, [rows * r_stride] and [cols * c_stride]
    below [2^32]) the 8- and 16-bit ranged kernels complete (given a buffer
    their stores fit in) and return the minimum and maximum of all the
    samples of the image, those outside [[hist_min, hist_max]] included: the
    range limits what is counted, not what is compared. *)
Theorem ranged_min_max_whole_image (mem : memory)
    (image rows cols r_stride c_stride : Z) (histogram : list Z)
    (hist_min hist_max : Z) :
  view_ok rows cols r_stride c_stride = true -> 1 <= rows -> 1 <= cols ->
  (hist_max - hist_min + 1 <= Z.of_nat (length histogram) ->
   exists h mm,
     ranged_hist_uint8 mem image rows cols r_stride c_stride histogram
       hist_min hist_max = Done (h, mm)
     /\ int_extrema (load_u8 mem (sample_at image r_stride c_stride 0 0))
          (samples (load_u8 mem) image rows cols r_stride c_stride) mm)
  /\ (forall n_bins,
      1 <= n_bins < 2 ^ 16 -> 0 <= hist_min -> hist_max < 2 ^ 16 ->
      n_bins <= Z.of_nat (length histogram) ->
      exists h mm,
        ranged_hist_uint16 mem image rows cols r_stride c_stride histogram
          n_bins hist_min hist_max = Done (h, mm)
        /\ int_extrema (load_u16 mem (sample_at image r_stride c_stride 0 0))
             (samples (load_u16 mem) image rows cols r_stride c_stride) mm).
Proof.
  intros Hv Hr Hc; rewrite sample_at_origin; split.
  - intros Hlen.
    unfold ranged_hist_uint8; rewrite scan_fold by exact Hv.
    destruct (routed_hist_pass_minmax _ (load_u8 mem)
                (ranged_route_uint8 hist_min hist_max)
                (hist_max - hist_min + 1)
                (ranged_hist_uint8_pixel_route mem hist_min hist_max)
                (ranged_route_uint8_safe hist_min hist_max)
                (addresses image rows cols r_stride c_stride) histogram
                (load_u8 mem image, load_u8 mem image) Hlen) as (h & -> & _).
    do 2 eexists; split; [reflexivity|].
    fold (samples (load_u8 mem) image rows cols r_stride c_stride).
    destruct (samples_first (load_u8 mem) image rows cols r_stride c_stride Hr Hc)
      as [rest ->].
    apply int_minmax_fold.
  - intros n_bins Hn Hlo Hhi Hlen.
    unfold ranged_hist_uint16; rewrite scan_fold by exact Hv.
    destruct (routed_hist_pass_minmax _ (load_u16 mem)
                (ranged_route_uint16
                   (bin_factor_uint16 n_bins hist_min hist_max)
                   (n_bins - 1) hist_min hist_max) n_bins
                (ranged_hist_uint16_pixel_route mem _ _ hist_min hist_max)
                (fun v => ranged_route_uint16_safe n_bins hist_min hist_max v
                            Hn Hlo Hhi)
                (addresses image rows cols r_stride c_stride) histogram
                (load_u16 mem image, load_u16 mem image) Hlen) as (h & -> & _).
    do 2 eexists; split; [reflexivity|].
    fold (samples (load_u16 mem) image rows cols r_stride c_stride).
    destruct (samples_first (load_u16 mem) image rows cols r_stride c_stride
                Hr Hc) as [rest ->].
    apply int_minmax_fold.
Qed.

Lemma ranged_min_max_whole_image_witness :
  let mem := mem_of_bytes [10; 20; 30; 255] in
  exists h mm,
    ranged_hist_uint8 mem 0 2 2 2 1 (zeroed 11) 20 30 = Done (h, mm)
    /\ int_extrema (load_u8 mem (sample_at 0 2 1 0 0))
         (samples (load_u8 mem) 0 2 2 2 1) mm.
Proof.
  intros mem.
  apply (proj1 (ranged_min_max_whole_image mem 0 2 2 2 1 (zeroed 11) 20 30
                  eq_refl ltac:(lia) ltac:(lia))).
  simpl; lia.
Defined.

Lemma true_min_absorb (x : Z) (l : list Z) :
  In x l -> true_min (x :: l) = true_min l.
Proof.
  intros Hx; destruct l as [|y t]; [contradiction|].
  apply least_is_true_min.
  destruct (true_min_spec x (y :: t)) as [Hin Hle]; split.
  - destruct Hin as [<-|Hin]; [exact Hx | exact Hin].
  - intros z Hz; apply Z.ltb_ge, Hle; right; exact Hz.
Qed.

Lemma true_max_absorb (x : Z) (l : list Z) :
  In x l -> true_max (x :: l) = true_max l.
Proof.
  intros Hx; destruct l as [|y t]; [contradiction|].
  apply greatest_is_true_max.
  destruct (true_max_spec x (y :: t)) as [Hin Hle]; split.
  - destruct Hin as [<-|Hin]; [exact Hx | exact Hin].
  - intros z Hz; apply Z.ltb_ge, Hle; right; exact Hz.
Qed.

(** The seed of a masked kernel is an active sample when the span of row 0
    is not empty. *)
Lemma masked_seed_active {T : Type} (load : Z -> T)
    (image rows r_stride c_stride : Z) (starts ends : list Z) :
  1 <= rows -> nth 0 starts 0 < nth 0 ends 0 ->
  In (load (sample_at image r_stride c_stride 0 (nth 0 starts 0)))
    (masked_samples load image rows r_stride c_stride starts ends).
Proof.
  intros Hr Hs; unfold masked_samples; apply in_map.
  apply in_masked_addresses; [lia|].
  exists 0%nat, (nth 0 starts 0); split; [simpl; lia|]; split; [lia|].
  reflexivity.
Qed.

Lemma int_minmax_fold_seeded (x : Z) (l : list Z) :
  int_extrema x (x :: l)
    (fold_left (fun st v => minmax_step Z.ltb Z.gtb v st) l (x, x)).
Proof.
  pose proof (int_minmax_fold x l) as H.
  cbn [fold_left] in H; rewrite int_minmax_seed in H; exact H.
Qed.

Lemma float_minmax_fold_seeded (x : spec_float) (l : list spec_float) :
  float_extrema x (x :: l)
    (fold_left (fun st v => minmax_step F32.lt F32.gt v st) l (x, x)).
Proof.
  pose proof (float_minmax_fold x l) as H.
  cbn [fold_left] in H; rewrite float_minmax_seed in H; exact H.
Qed.

(** X10. On an image of at least one row, of a view the loops traverse in
    full ([view_ok]: non-zero strides, [rows * r_stride] and
    [cols * c_stride] below [2^32]), with a well-formed span mask
    ([mask_ok]), every masked kernel that tracks a minimum and maximum
    completes (given a buffer its stores fit in) and returns the extrema of
    the seed sample, the one at (row 0, column [starts[0]]), together with
    the active samples.  When the span of row 0 is not empty the seed is an
    active sample and these are the extrema of the active samples; when it is
    empty the seed is masked out and competes all the same. *)
Theorem masked_min_max_extrema (mem : memory)
    (image rows cols r_stride c_stride : Z) (starts ends : list Z) :
  view_ok rows cols r_stride c_stride = true ->
  mask_ok rows cols starts ends = true ->
  1 <= rows ->
  let seed_at := sample_at image r_stride c_stride 0 (nth 0 starts 0) in
  let active {T : Type} (load : Z -> T) :=
    masked_samples load image rows r_stride c_stride starts ends in
  (exists mm,
      masked_minmax_float mem image rows cols r_stride c_stride starts ends
      = Done mm
      /\ float_extrema (load_f32 mem seed_at)
           (load_f32 mem seed_at :: active (load_f32 mem)) mm)
  /\ (forall histogram,
      length histogram = 256%nat ->
      exists h mm,
        masked_hist_uint8 mem image rows cols r_stride c_stride starts ends
          histogram = Done (h, mm)
        /\ int_extrema (load_u8 mem seed_at)
             (load_u8 mem seed_at :: active (load_u8 mem)) mm)
  /\ (forall histogram shift,
      0 <= shift <= 16 -> length histogram = Z.to_nat (2 ^ (16 - shift)) ->
      exists h mm,
        masked_hist_uint16 mem image rows cols r_stride c_stride starts ends
          histogram shift = Done (h, mm)
        /\ int_extrema (load_u16 mem seed_at)
             (load_u16 mem seed_at :: active (load_u16 mem)) mm)
  /\ (forall histogram hist_min hist_max,
      hist_max - hist_min + 1 <= Z.of_nat (length histogram) ->
      exists h mm,
        masked_ranged_hist_uint8 mem image rows cols r_stride c_stride
          starts ends histogram hist_min hist_max = Done (h, mm)
        /\ int_extrema (load_u8 mem seed_at)
             (load_u8 mem seed_at :: active (load_u8 mem)) mm)
  /\ (forall histogram n_bins hist_min hist_max,
      1 <= n_bins < 2 ^ 16 -> 0 <= hist_min -> hist_max < 2 ^ 16 ->
      n_bins <= Z.of_nat (length histogram) ->
      exists h mm,
        masked_ranged_hist_uint16 mem image rows cols r_stride c_stride
          starts ends histogram n_bins hist_min hist_max = Done (h, mm)
        /\ int_extrema (load_u16 mem seed_at)
             (load_u16 mem seed_at :: active (load_u16 mem)) mm)
  /\ (nth 0 starts 0 < nth 0 ends 0 ->
      (forall load : Z -> Z,
          true_min (load seed_at :: active load) = true_min (active load)
          /\ true_max (load seed_at :: active load) = true_max (active load))
      /\ (forall m,
          least_of F32.lt (load_f32 mem seed_at :: active (load_f32 mem)) m ->
          least_of F32.lt (active (load_f32 mem)) m)
      /\ (forall m,
          greatest_of F32.lt (load_f32 mem seed_at :: active (load_f32 mem)) m ->
          greatest_of F32.lt (active (load_f32 mem)) m)).
Proof.
  intros Hv Hm Hr seed_at active.
  pose proof (masked_seed_address image rows cols r_stride c_stride starts ends
                Hv Hm) as Hseed.
  fold seed_at in Hseed.
  repeat match goal with |- _ /\ _ => split end.
  - unfold masked_minmax_float.
    rewrite Hseed,
      (masked_scan_fold image rows cols r_stride c_stride starts ends _ Hv Hm).
    unfold minmax_float_pixel; rewrite fold_m_pure.
    eexists; split; [reflexivity|]; apply float_minmax_fold_seeded.
  - intros histogram Hlen; unfold masked_hist_uint8.
    rewrite Hseed,
      (masked_scan_fold image rows cols r_stride c_stride starts ends _ Hv Hm).
    destruct (indexed_hist_pass_minmax _ (load_u8 mem) (load_u8 mem) 256
                (hist_uint8_pixel_split mem)
                ltac:(intros p; pose proof (load_u8_range mem p); lia)
                (masked_addresses image rows r_stride c_stride starts ends)
                histogram (load_u8 mem seed_at, load_u8 mem seed_at) Hlen)
      as (h & -> & _).
    do 2 eexists; split; [reflexivity|]; apply int_minmax_fold_seeded.
  - intros histogram shift Hs Hlen; unfold masked_hist_uint16.
    rewrite Hseed,
      (masked_scan_fold image rows cols r_stride c_stride starts ends _ Hv Hm).
    destruct (indexed_hist_pass_minmax _ (load_u16 mem)
                (fun p => Z.shiftr (load_u16 mem p) shift)
                (Z.to_nat (2 ^ (16 - shift)))
                (hist_uint16_pixel_split mem shift)
                ltac:(intros p; rewrite Z2Nat.id by (apply Z.pow_nonneg; lia);
                      apply shiftr_range; [exact Hs | apply load_u16_range])
                (masked_addresses image rows r_stride c_stride starts ends)
                histogram (load_u16 mem seed_at, load_u16 mem seed_at) Hlen)
      as (h & -> & _).
    do 2 eexists; split; [reflexivity|]; apply int_minmax_fold_seeded.
  - intros histogram hist_min hist_max Hlen; unfold masked_ranged_hist_uint8.
    rewrite Hseed,
      (masked_scan_fold image rows cols r_stride c_stride starts ends _ Hv Hm).
    destruct (routed_hist_pass_minmax _ (load_u8 mem)
                (ranged_route_uint8 hist_min hist_max)
                (hist_max - hist_min + 1)
                (ranged_hist_uint8_pixel_route mem hist_min hist_max)
                (ranged_route_uint8_safe hist_min hist_max)
                (masked_addresses image rows r_stride c_stride starts ends)
                histogram (load_u8 mem seed_at, load_u8 mem seed_at) Hlen)
      as (h & -> & _).
    do 2 eexists; split; [reflexivity|]; apply int_minmax_fold_seeded.
  - intros histogram n_bins hist_min hist_max Hn Hlo Hhi Hlen.
    unfold masked_ranged_hist_uint16.
    rewrite Hseed,
      (masked_scan_fold image rows cols r_stride c_stride starts ends _ Hv Hm).
    destruct (routed_hist_pass_minmax _ (load_u16 mem)
                (ranged_route_uint16
                   (bin_factor_uint16 n_bins hist_min hist_max)
                   (n_bins - 1) hist_min hist_max) n_bins
                (ranged_hist_uint16_pixel_route mem _ _ hist_min hist_max)
                (fun v => ranged_route_uint16_safe n_bins hist_min hist_max v
                            Hn Hlo Hhi)
                (masked_addresses image rows r_stride c_stride starts ends)
                histogram (load_u16 mem seed_at, load_u16 mem seed_at) Hlen)
      as (h & -> & _).
    do 2 eexists; split; [reflexivity|]; apply int_minmax_fold_seeded.
  - intros Hs; split; [|split].
    + intros load; split;
        [apply true_min_absorb | apply true_max_absorb];
        apply masked_seed_active; assumption.
    + intros m [Hin Hle]; split.
      * destruct Hin as [<-|Hin]; [|exact Hin].
        apply masked_seed_active; assumption.
      * intros x Hx; apply Hle; right; exact Hx.
    + intros m [Hin Hle]; split.
      * destruct Hin as [<-|Hin]; [|exact Hin].
        apply masked_seed_active; assumption.
      * intros x Hx; apply Hle; right; exact Hx.
Qed.

Lemma masked_min_max_extrema_witness :
  let mem := mem_of_bytes [10; 20; 30; 5] in
  exists h mm,
    masked_hist_uint8 mem 0 2 2 2 1 [0; 1] [1; 2] (zeroed 256) = Done (h, mm)
    /\ int_extrema (load_u8 mem (sample_at 0 2 1 0 (nth 0 [0; 1] 0)))
         (load_u8 mem (sample_at 0 2 1 0 (nth 0 [0; 1] 0))
          :: masked_samples (load_u8 mem) 0 2 2 1 [0; 1] [1; 2]) mm.
Proof.
  intros mem.
  destruct (masked_min_max_extrema mem 0 2 2 2 1 [0; 1] [1; 2] eq_refl eq_refl
              ltac:(lia)) as (_ & H & _).
  exact (H (zeroed 256) eq_refl).
Defined.

(** ** The ranged kernels under particular masks and ranges *)

(** X12. Under the mask whose every row span is the full row the masked
    ranged kernels return exactly what the unmasked ranged kernels return, for
    every histogram buffer, bin count and range: the same outcome, faults
    included. *)
Theorem masked_ranged_full_equals_unmasked (mem : memory)
    (image rows cols r_stride c_stride : Z) :
  view_ok rows cols r_stride c_stride = true -> 1 <= rows -> 1 <= cols ->
  let starts := fst (full_mask rows cols) in
  let ends := snd (full_mask rows cols) in
  (forall histogram hist_min hist_max,
      masked_ranged_hist_uint8 mem image rows cols r_stride c_stride starts ends
        histogram hist_min hist_max
      = ranged_hist_uint8 mem image rows cols r_stride c_stride histogram
          hist_min hist_max)
  /\ (forall histogram n_bins hist_min hist_max,
      masked_ranged_hist_uint16 mem image rows cols r_stride c_stride
        starts ends histogram n_bins hist_min hist_max
      = ranged_hist_uint16 mem image rows cols r_stride c_stride histogram
          n_bins hist_min hist_max)
  /\ (forall histogram n_bins hist_min hist_max,
      masked_ranged_hist_float mem image rows cols r_stride c_stride
        starts ends histogram n_bins hist_min hist_max
      = ranged_hist_float mem image rows cols r_stride c_stride histogram
          n_bins hist_min hist_max).
Proof.
  intros Hv Hr Hc starts ends.
  assert (Hm : mask_ok rows cols starts ends = true)
    by (apply full_mask_ok; lia).
  assert (H0 : image + u32 (nth 0 starts 0 * c_stride) = image).
  { unfold starts; rewrite full_mask_first, Z.mul_0_l.
    change (u32 0) with 0; lia. }
  split; [|split]; intros;
    unfold masked_ranged_hist_uint8, ranged_hist_uint8,
      masked_ranged_hist_uint16, ranged_hist_uint16,
      masked_ranged_hist_float, ranged_hist_float;
    rewrite ?H0, (masked_scan_fold _ _ _ _ _ _ _ _ Hv Hm), scan_fold by exact Hv;
    unfold starts, ends; rewrite full_mask_addresses; reflexivity.
Qed.

Lemma masked_ranged_full_equals_unmasked_witness :
  let mem := mem_of_bytes [10; 20; 30; 255] in
  masked_ranged_hist_uint8 mem 0 2 2 2 1 (fst (full_mask 2 2))
    (snd (full_mask 2 2)) (zeroed 11) 20 30
  = ranged_hist_uint8 mem 0 2 2 2 1 (zeroed 11) 20 30.
Proof.
  intros mem.
  apply (proj1 (masked_ranged_full_equals_unmasked mem 0 2 2 2 1 eq_refl
                  ltac:(lia) ltac:(lia))).
Defined.

Lemma count_ext {A : Type} (t1 t2 : A -> bool) (l : list A) :
  (forall a, t1 a = t2 a) -> count t1 l = count t2 l.
Proof.
  intros H; unfold count; rewrite (filter_ext t1 t2 H); reflexivity.
Qed.

Lemma count_none {A : Type} (l : list A) : count (fun _ => false) l = 0.
Proof. unfold count; induction l as [|a l IH]; [reflexivity | exact IH]. Qed.

(** A pass whose body changes nothing at any of its addresses returns the
    state as it was. *)
Lemma unrouted_pass {St : Type} (g : Z -> St -> outcome St) (ps : list Z)
    (h : St) :
  (forall p h, In p ps -> g p h = Done h) -> fold_m g ps h = Done h.
Proof.
  induction ps as [|p l IH]; intros Hg; [reflexivity|].
  cbn [fold_m]; rewrite Hg by (left; reflexivity); cbn [bind].
  apply IH; intros q h0 Hq; apply Hg; right; exact Hq.
Qed.

Lemma ranged_route_uint16_inverted (bin_factor : spec_float)
    (last_bin hist_min hist_max v : Z) :
  hist_max <= hist_min ->
  ranged_route_uint16 bin_factor last_bin hist_min hist_max v
  = if v =? hist_max then Done (Some last_bin) else Done None.
Proof.
  intros H; unfold ranged_route_uint16; rewrite Z.geb_leb.
  destruct (Z.leb_spec hist_min v); destruct (Z.ltb_spec v hist_max);
    cbn [andb]; try reflexivity; lia.
Qed.

Lemma ranged_route_uint8_inverted (hist_min hist_max v : Z) :
  hist_max < hist_min -> ranged_route_uint8 hist_min hist_max v = Done None.
Proof.
  intros H; unfold ranged_route_uint8; rewrite Z.geb_leb.
  destruct (Z.leb_spec hist_min v); destruct (Z.leb_spec v hist_max);
    cbn [andb]; try reflexivity; lia.
Qed.

(** X13. Empty and inverted ranges, on a view the loops traverse in full
    ([view_ok]: non-zero strides, [rows * r_stride] and [cols * c_stride]
    below [2^32]) with a well-formed span mask ([mask_ok]).  With
    [hist_max < hist_min] the 8-bit ranged kernels count nothing and hand
    back the histogram untouched, whatever its length.  With
    [hist_max <= hist_min] the 16-bit ranged kernels never evaluate the bin
    index (so the quotient by zero in [bin_factor] is never used): on a
    zeroed histogram of [n_bins >= 1] bins they leave the number of active
    samples equal to [hist_max] in the last bin and zero in every other. *)
Theorem inverted_range_counts (mem : memory)
    (image rows cols r_stride c_stride : Z) (starts ends : list Z)
    (hist_min hist_max : Z) :
  view_ok rows cols r_stride c_stride = true ->
  mask_ok rows cols starts ends = true ->
  (hist_max < hist_min ->
   forall histogram,
     (exists mm,
         ranged_hist_uint8 mem image rows cols r_stride c_stride histogram
           hist_min hist_max = Done (histogram, mm))
     /\ (exists mm,
            masked_ranged_hist_uint8 mem image rows cols r_stride c_stride
              starts ends histogram hist_min hist_max = Done (histogram, mm)))
  /\ (hist_max <= hist_min ->
      forall n_bins, 1 <= n_bins ->
        let last := Z.to_nat (n_bins - 1) in
        (exists h mm,
            ranged_hist_uint16 mem image rows cols r_stride c_stride
              (zeroed (Z.to_nat n_bins)) n_bins hist_min hist_max = Done (h, mm)
            /\ length h = Z.to_nat n_bins
            /\ nth last h 0
               = count (fun v => v =? hist_max)
                   (samples (load_u16 mem) image rows cols r_stride c_stride)
            /\ forall j, (j < Z.to_nat n_bins)%nat -> j <> last -> nth j h 0 = 0)
        /\ (exists h mm,
               masked_ranged_hist_uint16 mem image rows cols r_stride c_stride
                 starts ends (zeroed (Z.to_nat n_bins)) n_bins hist_min hist_max
               = Done (h, mm)
               /\ length h = Z.to_nat n_bins
               /\ nth last h 0
                  = count (fun v => v =? hist_max)
                      (masked_samples (load_u16 mem) image rows r_stride
                         c_stride starts ends)
               /\ forall j, (j < Z.to_nat n_bins)%nat -> j <> last ->
                            nth j h 0 = 0)).
Proof.
  intros Hv Hm.
  pose proof (view_addresses_bound image rows cols r_stride c_stride Hv) as Ha.
  pose proof (mask_addresses_bound image rows cols r_stride c_stride Hv
                starts ends Hm) as Hma.
  split.
  - intros Hinv histogram.
    assert (Hg : forall ps p h, In p ps ->
               (o <- ranged_route_uint8 hist_min hist_max (load_u8 mem p) ;;
                store h o) = Done h).
    { intros ps p h _; rewrite ranged_route_uint8_inverted by exact Hinv.
      reflexivity. }
    split.
    + unfold ranged_hist_uint8; rewrite scan_fold by exact Hv.
      rewrite (fold_m_hist_split _ _ _
                 (ranged_hist_uint8_pixel_route mem hist_min hist_max)).
      rewrite unrouted_pass by apply Hg.
      cbn [bind]; eexists; reflexivity.
    + unfold masked_ranged_hist_uint8.
      rewrite (masked_scan_fold image rows cols r_stride c_stride starts ends _
                 Hv Hm).
      rewrite (fold_m_hist_split _ _ _
                 (ranged_hist_uint8_pixel_route mem hist_min hist_max)).
      rewrite unrouted_pass by apply Hg.
      cbn [bind]; eexists; reflexivity.
  - intros Hinv n_bins Hn last.
    set (route := ranged_route_uint16
                    (bin_factor_uint16 n_bins hist_min hist_max)
                    (n_bins - 1) hist_min hist_max).
    assert (Hroute : forall v, route v = if v =? hist_max
                                         then Done (Some (n_bins - 1))
                                         else Done None)
      by (intros v; apply ranged_route_uint16_inverted; exact Hinv).
    assert (Htot : forall p : Z,
               if load_u16 mem p =? hist_max
               then exists i, route (load_u16 mem p) = Done (Some i)
                              /\ 0 <= i < Z.of_nat (Z.to_nat n_bins)
               else route (load_u16 mem p) = Done None).
    { intros p; rewrite Hroute; destruct (load_u16 mem p =? hist_max);
        [eexists; split; [reflexivity | lia] | reflexivity]. }
    assert (Hbins : forall (l : list Z) (h : list Z),
               bins_count route l (Z.to_nat n_bins) h ->
               length h = Z.to_nat n_bins
               /\ nth last h 0 = count (fun v => v =? hist_max) l
               /\ forall j, (j < Z.to_nat n_bins)%nat -> j <> last ->
                            nth j h 0 = 0).
    { intros l h [Hl Hc]; split; [exact Hl|]; split.
      - rewrite Hc by (unfold last; lia).
        apply count_ext; intros v; rewrite Hroute.
        destruct (v =? hist_max); cbn [routed_to]; [|reflexivity].
        unfold last; rewrite Z2Nat.id by lia; apply Z.eqb_refl.
      - intros j Hj Hne; rewrite Hc by exact Hj.
        rewrite <- (count_none l); apply count_ext; intros v; rewrite Hroute.
        destruct (v =? hist_max); cbn [routed_to]; [|reflexivity].
        apply Z.eqb_neq; unfold last in Hne; lia. }
    split.
    + destruct (routed_hist_pass_total _ _ route
                  (fun v => v =? hist_max) (Z.to_nat n_bins)
                  (ranged_hist_uint16_pixel_route mem _ _ hist_min hist_max)
                  Htot (addresses image rows cols r_stride c_stride)
                  (load_u16 mem image, load_u16 mem image) Ha)
        as (h & mm & E & _).
      assert (K : ranged_hist_uint16 mem image rows cols r_stride c_stride
                    (zeroed (Z.to_nat n_bins)) n_bins hist_min hist_max
                  = Done (h, mm))
        by (unfold ranged_hist_uint16; rewrite scan_fold by exact Hv; exact E).
      exists h, mm; split; [exact K|].
      apply Hbins.
      exact (ranged_hist_uint16_bins mem image rows cols r_stride c_stride Hv
               (Z.to_nat n_bins) n_bins hist_min hist_max h mm K).
    + destruct (routed_hist_pass_total _ _ route
                  (fun v => v =? hist_max) (Z.to_nat n_bins)
                  (ranged_hist_uint16_pixel_route mem _ _ hist_min hist_max)
                  Htot
                  (masked_addresses image rows r_stride c_stride starts ends)
                  (load_u16 mem (image + u32 (nth 0 starts 0 * c_stride)),
                   load_u16 mem (image + u32 (nth 0 starts 0 * c_stride))) Hma)
        as (h & mm & E & _).
      assert (K : masked_ranged_hist_uint16 mem image rows cols r_stride
                    c_stride starts ends (zeroed (Z.to_nat n_bins)) n_bins
                    hist_min hist_max = Done (h, mm)).
      { unfold masked_ranged_hist_uint16.
        rewrite (masked_scan_fold image rows cols r_stride c_stride starts ends
                   _ Hv Hm).
        exact E. }
      exists h, mm; split; [exact K|].
      apply Hbins.
      exact (masked_ranged_hist_uint16_bins mem image rows cols r_stride
               c_stride Hv starts ends Hm (Z.to_nat n_bins) n_bins hist_min
               hist_max h mm K).
Qed.

Lemma inverted_range_counts_witness :
  let mem := mem_of_bytes [10; 0; 20; 0; 30; 0; 20; 0] in
  exists h mm,
    ranged_hist_uint16 mem 0 2 2 4 2 (zeroed (Z.to_nat 3)) 3 20 20
    = Done (h, mm)
    /\ length h = Z.to_nat 3
    /\ nth (Z.to_nat (3 - 1)) h 0
       = count (fun v => v =? 20) (samples (load_u16 mem) 0 2 2 4 2)
    /\ forall j, (j < Z.to_nat 3)%nat -> j <> Z.to_nat (3 - 1) -> nth j h 0 = 0.
Proof.
  intros mem.
  destruct (inverted_range_counts mem 0 2 2 4 2 [0; 0] [2; 2] 20 20
              eq_refl eq_refl) as [_ H].
  exact (proj1 (H ltac:(lia) 3 ltac:(lia))).
Defined.

(** ** NaN samples and NaN range bounds *)

Lemma is_nan_eq (x : spec_float) : F32.is_nan x = true -> x = S754_nan.
Proof. destruct x; intros H; try discriminate; reflexivity. Qed.

Lemma SFcompare_nan_l (y : spec_float) : SFcompare S754_nan y = None.
Proof. reflexivity. Qed.

Lemma SFcompare_nan_r (x : spec_float) : SFcompare x S754_nan = None.
Proof. destruct x as [s|s| |s m e]; reflexivity. Qed.

(** Every comparison with a NaN operand is false. *)
Lemma F32_compare_nan (x y : spec_float) :
  F32.is_nan x = true \/ F32.is_nan y = true ->
  F32.lt x y = false /\ F32.gt x y = false /\ F32.ge x y = false
  /\ F32.eq x y = false.
Proof.
  unfold F32.lt, F32.gt, F32.ge, F32.eq, SFltb, SFeqb.
  intros [H|H]; apply is_nan_eq in H; subst;
    rewrite ?SFcompare_nan_l, ?SFcompare_nan_r; auto.
Qed.




(** ** NaNs in the float min/max *)

(** A scan seeded with a NaN keeps it: no sample compares below or above. *)
Lemma minmax_fold_nan_seed (l : list spec_float) (x : spec_float) :
  F32.is_nan x = true ->
  fold_left (fun st v => minmax_step F32.lt F32.gt v st) l (x, x) = (x, x).
Proof.
  intros Hx; induction l as [|v l IH]; [reflexivity|].
  cbn [fold_left]; unfold minmax_step at 2.
  destruct (F32_compare_nan v x (or_intror Hx)) as (-> & -> & _).
  exact IH.
Qed.

(** A working pair that holds no NaN never takes one in. *)
Lemma minmax_fold_not_nan (l : list spec_float) (mm : spec_float * spec_float) :
  F32.is_nan (fst mm) = false -> F32.is_nan (snd mm) = false ->
  let mm' := fold_left (fun st v => minmax_step F32.lt F32.gt v st) l mm in
  F32.is_nan (fst mm') = false /\ F32.is_nan (snd mm') = false.
Proof.
  revert mm; induction l as [|v l IH]; intros [mn mx] H1 H2; [split; assumption|].
  cbn [fold_left]; apply IH; unfold minmax_step; cbn [fst snd] in *.
  - destruct (F32.lt v mn) eqn:E; cbn [fst]; [|destruct (F32.gt v mx); exact H1].
    destruct (F32.is_nan v) eqn:N; [|reflexivity].
    destruct (F32_compare_nan v mn (or_introl N)) as (E' & _); congruence.
  - destruct (F32.lt v mn); cbn [snd]; [exact H2|].
    destruct (F32.gt v mx) eqn:E; cbn [snd]; [|exact H2].
    destruct (F32.is_nan v) eqn:N; [|reflexivity].
    destruct (F32_compare_nan v mx (or_introl N)) as (_ & E' & _); congruence.
Qed.

(** X15. NaNs in [minmax_float], on a non-empty image of a view the loops
    traverse in full ([view_ok]: non-zero strides, [rows * r_stride] and
    [cols * c_stride] below [2^32]).  If the first sample is a NaN the kernel
    returns it as both minimum and maximum, whatever the other samples.
    Otherwise NaN samples are passed over: the minimum and maximum are
    samples that are not NaNs, and they bound every sample that is not a
    NaN. *)
Theorem minmax_float_nan (mem : memory) (image rows cols r_stride c_stride : Z) :
  view_ok rows cols r_stride c_stride = true -> 1 <= rows -> 1 <= cols ->
  let first := load_f32 mem (sample_at image r_stride c_stride 0 0) in
  let l := samples (load_f32 mem) image rows cols r_stride c_stride in
  (F32.is_nan first = true ->
   minmax_float mem image rows cols r_stride c_stride = Done (first, first))
  /\ (F32.is_nan first = false ->
      exists mn mx,
        minmax_float mem image rows cols r_stride c_stride = Done (mn, mx)
        /\ In mn l /\ In mx l
        /\ F32.is_nan mn = false /\ F32.is_nan mx = false
        /\ forall x, In x l -> F32.is_nan x = false ->
                     SFleb mn x = true /\ SFleb x mx = true).
Proof.
  intros Hv Hr Hc first l; unfold first; rewrite sample_at_origin.
  assert (E : minmax_float mem image rows cols r_stride c_stride
              = Done (fold_left (fun st v => minmax_step F32.lt F32.gt v st) l
                        (load_f32 mem image, load_f32 mem image))).
  { unfold minmax_float; rewrite scan_fold by exact Hv.
    unfold minmax_float_pixel; rewrite fold_m_pure; reflexivity. }
  split.
  - intros Hn; rewrite E, minmax_fold_nan_seed by exact Hn; reflexivity.
  - intros Hn; rewrite E.
    destruct (minmax_fold_not_nan l (load_f32 mem image, load_f32 mem image)
                Hn Hn) as [N1 N2].
    destruct (samples_first (load_f32 mem) image rows cols r_stride c_stride
                Hr Hc) as [rest Hl].
    fold l in Hl.
    pose proof (float_minmax_fold (load_f32 mem image) rest) as Hx.
    rewrite <- Hl in Hx.
    destruct Hx as ([I1 L1] & [I2 L2] & _).
    destruct (fold_left _ l _) as [mn mx]; cbn [fst snd] in *.
    exists mn, mx; split; [reflexivity|].
    repeat (split; [assumption|]).
    intros x Hx Nx; split; apply F32_lt_total; auto.
Qed.

Lemma minmax_float_nan_witness :
  let mem := mem_of_bytes [0; 0; 192; 127; 0; 0; 128; 63] in
  minmax_float mem 0 1 2 8 4
  = Done (load_f32 mem (sample_at 0 8 4 0 0), load_f32 mem (sample_at 0 8 4 0 0)).
Proof.
  intros mem.
  apply (proj1 (minmax_float_nan mem 0 1 2 8 4 eq_refl ltac:(lia) ltac:(lia))).
  reflexivity.
Defined.

(** ** Degenerate extents and strides *)

Lemma scan_no_rows {St : Type} (image rows cols r_stride c_stride : Z)
    (body : Z -> St -> outcome St) (s : St) :
  u32 (rows * r_stride) = 0 ->
  scan image rows cols r_stride c_stride body s = Done s.
Proof.
  intros H; unfold scan; rewrite H, Z.add_0_r; apply ptr_loop_stop.
Qed.

Lemma masked_scan_no_rows {St : Type} (image rows cols r_stride c_stride : Z)
    (starts ends : list Z) (body : Z -> St -> outcome St) (s : St) :
  u32 (rows * r_stride) = 0 ->
  masked_scan image rows cols r_stride c_stride starts ends body s = Done s.
Proof.
  intros H; unfold masked_scan; rewrite H, Z.add_0_r, ptr_loop_stop.
  reflexivity.
Qed.

Lemma scan_no_cols {St : Type} (image rows cols r_stride c_stride : Z)
    (body : Z -> St -> outcome St) (s : St) :
  0 <= rows < 2 ^ 16 -> 0 < r_stride -> rows * r_stride < 2 ^ 32 ->
  u32 (cols * c_stride) = 0 ->
  scan image rows cols r_stride c_stride body s = Done s.
Proof.
  intros Hr Hs Hrs Hc; unfold scan.
  rewrite Hc, u32_small by lia.
  rewrite <- (Z2Nat.id rows) at 1 by lia.
  rewrite ptr_loop_offsets
    by (try lia; pose proof max_iter_eq; apply Nat2Z.inj_le; lia).
  apply unrouted_pass; intros row st _.
  rewrite Z.add_0_r; apply ptr_loop_stop.
Qed.

(** X16. Loops that run no iteration.  The unmasked kernels visit no sample
    when [rows * r_stride] is zero modulo [2^32] (no rows, or a zero row
    stride), and when the rows are traversed and [cols * c_stride] is zero
    modulo [2^32] (no columns, or a zero column stride, as of a broadcast
    array); the masked kernels, whose row loops take their ends from the
    mask and not from [cols], when [rows * r_stride] is zero modulo [2^32].
    The kernel then hands back the histogram untouched and, as minimum and
    maximum, the sample at the seed address: the base address, or column
    [starts[0]] of row 0 for a masked kernel (given a [starts] array that
    holds an element), read whether or not the image has a sample. *)
Theorem degenerate_extents_visit_nothing (mem : memory)
    (image rows cols r_stride c_stride : Z) (starts ends histogram : list Z)
    (shift n_bins hist_min hist_max : Z) (fmin fmax : spec_float) :
  (u32 (rows * r_stride) = 0
   \/ (0 <= rows < 2 ^ 16 /\ 0 < r_stride /\ rows * r_stride < 2 ^ 32
       /\ u32 (cols * c_stride) = 0) ->
   minmax_float mem image rows cols r_stride c_stride
   = Done (load_f32 mem image, load_f32 mem image)
   /\ hist_uint8 mem image rows cols r_stride c_stride histogram
      = Done (histogram, (load_u8 mem image, load_u8 mem image))
   /\ ranged_hist_uint8 mem image rows cols r_stride c_stride histogram
        hist_min hist_max
      = Done (histogram, (load_u8 mem image, load_u8 mem image))
   /\ hist_uint16 mem image rows cols r_stride c_stride histogram shift
      = Done (histogram, (load_u16 mem image, load_u16 mem image))
   /\ ranged_hist_uint16 mem image rows cols r_stride c_stride histogram
        n_bins hist_min hist_max
      = Done (histogram, (load_u16 mem image, load_u16 mem image))
   /\ ranged_hist_float mem image rows cols r_stride c_stride histogram
        n_bins fmin fmax
      = Done histogram)
  /\ (u32 (rows * r_stride) = 0 -> starts <> [] ->
      let seed := image + u32 (nth 0 starts 0 * c_stride) in
      masked_minmax_float mem image rows cols r_stride c_stride starts ends
      = Done (load_f32 mem seed, load_f32 mem seed)
      /\ masked_hist_uint8 mem image rows cols r_stride c_stride starts ends
           histogram
         = Done (histogram, (load_u8 mem seed, load_u8 mem seed))
      /\ masked_ranged_hist_uint8 mem image rows cols r_stride c_stride
           starts ends histogram hist_min hist_max
         = Done (histogram, (load_u8 mem seed, load_u8 mem seed))
      /\ masked_hist_uint16 mem image rows cols r_stride c_stride starts ends
           histogram shift
         = Done (histogram, (load_u16 mem seed, load_u16 mem seed))
      /\ masked_ranged_hist_uint16 mem image rows cols r_stride c_stride
           starts ends histogram n_bins hist_min hist_max
         = Done (histogram, (load_u16 mem seed, load_u16 mem seed))
      /\ masked_ranged_hist_float mem image rows cols r_stride c_stride
           starts ends histogram n_bins fmin fmax
         = Done histogram).
Proof.
  split.
  - intros H.
    assert (Hs : forall (St : Type) (body : Z -> St -> outcome St) (s : St),
               scan image rows cols r_stride c_stride body s = Done s).
    { intros St body s; destruct H as [H|(H1 & H2 & H3 & H4)];
        [apply scan_no_rows | apply scan_no_cols]; assumption. }
    unfold minmax_float, hist_uint8, ranged_hist_uint8, hist_uint16,
      ranged_hist_uint16, ranged_hist_float.
    rewrite !Hs; repeat split.
  - intros H _ seed.
    unfold masked_minmax_float, masked_hist_uint8, masked_ranged_hist_uint8,
      masked_hist_uint16, masked_ranged_hist_uint16, masked_ranged_hist_float.
    rewrite !masked_scan_no_rows by exact H; repeat split.
Qed.

Lemma degenerate_extents_visit_nothing_witness :
  let mem := mem_of_bytes [7; 8; 9] in
  hist_uint8 mem 0 3 1 0 1 (zeroed 256)
  = Done (zeroed 256, (load_u8 mem 0, load_u8 mem 0))
  /\ masked_hist_uint8 mem 0 3 1 0 1 [1; 0; 0] [2; 1; 1] (zeroed 256)
     = Done (zeroed 256,
             (load_u8 mem (0 + u32 (nth 0 [1; 0; 0] 0 * 1)),
              load_u8 mem (0 + u32 (nth 0 [1; 0; 0] 0 * 1)))).
Proof.
  intros mem.
  destruct (degenerate_extents_visit_nothing mem 0 3 1 0 1 [1; 0; 0] [2; 1; 1]
              (zeroed 256) 0 0 0 0 S754_nan S754_nan) as [H1 H2].
  split.
  - destruct H1 as (_ & H & _); [left; reflexivity | exact H].
  - destruct H2 as (_ & H & _); [reflexivity | discriminate | exact H].
Defined.

(** ** Loops that step over their end pointer *)

Lemma ptr_loop_runaway {St : Type} (body : Z -> St -> outcome St)
    (stop stride : Z) :
  (forall p s, exists s', body p s = Done s') ->
  forall (fuel : nat) (p : Z) (s : St),
    (forall k : nat, p + Z.of_nat k * stride <> stop) ->
    ptr_loop fuel p stop stride body s = OutOfFuel.
Proof.
  intros Hb; induction fuel as [|fuel IH]; intros p s Hk.
  - cbn [ptr_loop].
    destruct (Z.eqb_spec p stop) as [E|_]; [|reflexivity].
    exfalso; apply (Hk 0%nat); rewrite <- E; simpl; lia.
  - rewrite ptr_loop_S.
    destruct (Z.eqb_spec p stop) as [E|_].
    + exfalso; apply (Hk 0%nat); rewrite <- E; simpl; lia.
    + destruct (Hb p s) as [s1 ->]; cbn [bind].
      apply IH; intros k E; apply (Hk (S k)); rewrite <- E; lia.
Qed.

Lemma max_iter_S : exists fuel, max_iter = S fuel.
Proof.
  pose proof max_iter_eq as H.
  destruct max_iter as [|fuel]; [|exists fuel; reflexivity].
  change (Z.of_nat 0) with 0 in H; lia.
Qed.

(** A scan that enters its first row with a row loop that never meets its
    end pointer never returns. *)
Lemma scan_first_row_runaway {St : Type} (body : Z -> St -> outcome St)
    (image rows cols r_stride c_stride : Z) (s : St) :
  (forall p s, exists s', body p s = Done s') ->
  u32 (rows * r_stride) <> 0 ->
  (forall k : nat, Z.of_nat k * c_stride <> u32 (cols * c_stride)) ->
  scan image rows cols r_stride c_stride body s = OutOfFuel.
Proof.
  intros Hb Hr Hc; unfold scan.
  destruct max_iter_S as [fuel ->].
  rewrite ptr_loop_S.
  destruct (Z.eqb_spec image (image + u32 (rows * r_stride))) as [E|_]; [lia|].
  rewrite (ptr_loop_runaway body _ _ Hb); [reflexivity|].
  intros k E; apply (Hc k); lia.
Qed.

Lemma masked_scan_first_row_runaway {St : Type} (body : Z -> St -> outcome St)
    (image rows cols r_stride c_stride : Z) (starts ends : list Z) (s : St) :
  (forall p s, exists s', body p s = Done s') ->
  u32 (rows * r_stride) <> 0 ->
  (forall k : nat, u32 (nth 0 starts 0 * c_stride) + Z.of_nat k * c_stride
                   <> u32 (nth 0 ends 0 * c_stride)) ->
  masked_scan image rows cols r_stride c_stride starts ends body s = OutOfFuel.
Proof.
  intros Hb Hr Hc; unfold masked_scan.
  destruct max_iter_S as [fuel ->].
  rewrite ptr_loop_S.
  destruct (Z.eqb_spec image (image + u32 (rows * r_stride))) as [E|_]; [lia|].
  rewrite (ptr_loop_runaway body _ _ Hb); [reflexivity|].
  intros k E; apply (Hc k); lia.
Qed.

Lemma scan_extent_modulo {St : Type} (image rows cols r_stride c_stride : Z)
    (rows' cols' : Z) (body : Z -> St -> outcome St) (s : St) :
  u32 (rows * r_stride) = rows' * r_stride ->
  u32 (cols * c_stride) = cols' * c_stride ->
  scan image rows cols r_stride c_stride body s
  = scan image rows' cols' r_stride c_stride body s.
Proof.
  intros Hr Hc; unfold scan.
  rewrite <- Hr, <- Hc; unfold u32; rewrite !Z.mod_mod by lia; reflexivity.
Qed.

(** X17. Extents of 4 GiB and more.  The loops take their end pointers from
    the 32-bit products [rows * r_stride] and [cols * c_stride].  When these
    wrap to [rows' * r_stride] and [cols' * c_stride], every unmasked kernel
    returns what it returns on the view of [rows'] rows and [cols'] columns:
    so, when that view is one the loops traverse, [minmax_float] returns the
    extrema of the samples of that smaller view only. *)
Theorem extents_wrap_modulo (mem : memory)
    (image rows cols r_stride c_stride rows' cols' : Z) :
  u32 (rows * r_stride) = rows' * r_stride ->
  u32 (cols * c_stride) = cols' * c_stride ->
  minmax_float mem image rows cols r_stride c_stride
  = minmax_float mem image rows' cols' r_stride c_stride
  /\ (forall histogram,
      hist_uint8 mem image rows cols r_stride c_stride histogram
      = hist_uint8 mem image rows' cols' r_stride c_stride histogram)
  /\ (forall histogram shift,
      hist_uint16 mem image rows cols r_stride c_stride histogram shift
      = hist_uint16 mem image rows' cols' r_stride c_stride histogram shift)
  /\ (forall histogram hist_min hist_max,
      ranged_hist_uint8 mem image rows cols r_stride c_stride histogram
        hist_min hist_max
      = ranged_hist_uint8 mem image rows' cols' r_stride c_stride histogram
          hist_min hist_max)
  /\ (forall histogram n_bins hist_min hist_max,
      ranged_hist_uint16 mem image rows cols r_stride c_stride histogram
        n_bins hist_min hist_max
      = ranged_hist_uint16 mem image rows' cols' r_stride c_stride histogram
          n_bins hist_min hist_max)
  /\ (forall histogram n_bins hist_min hist_max,
      ranged_hist_float mem image rows cols r_stride c_stride histogram
        n_bins hist_min hist_max
      = ranged_hist_float mem image rows' cols' r_stride c_stride histogram
          n_bins hist_min hist_max)
  /\ (view_ok rows' cols' r_stride c_stride = true -> 1 <= rows' -> 1 <= cols' ->
      exists mm,
        minmax_float mem image rows cols r_stride c_stride = Done mm
        /\ float_extrema (load_f32 mem image)
             (samples (load_f32 mem) image rows' cols' r_stride c_stride) mm).
Proof.
  intros Hr Hc.
  assert (Hs : forall (St : Type) (body : Z -> St -> outcome St) (s : St),
             scan image rows cols r_stride c_stride body s
             = scan image rows' cols' r_stride c_stride body s)
    by (intros; apply scan_extent_modulo; assumption).
  unfold minmax_float, hist_uint8, hist_uint16, ranged_hist_uint8,
    ranged_hist_uint16, ranged_hist_float.
  repeat (split; [intros; apply Hs|]).
  intros Hv H1 H2; rewrite Hs, scan_fold by exact Hv.
  unfold minmax_float_pixel; rewrite fold_m_pure.
  eexists; split; [reflexivity|].
  fold (samples (load_f32 mem) image rows' cols' r_stride c_stride).
  destruct (samples_first (load_f32 mem) image rows' cols' r_stride c_stride
              H1 H2) as [rest ->].
  apply float_minmax_fold.
Qed.

Lemma extents_wrap_modulo_witness :
  let mem := mem_of_bytes [0; 0; 128; 63] in
  exists mm,
    minmax_float mem 0 1 4097 4 (2 ^ 20) = Done mm
    /\ float_extrema (load_f32 mem 0)
         (samples (load_f32 mem) 0 1 1 4 (2 ^ 20)) mm.
Proof.
  intros mem.
  destruct (extents_wrap_modulo mem 0 1 4097 4 (2 ^ 20) 1 1)
    as (_ & _ & _ & _ & _ & _ & H); [reflexivity | reflexivity |].
  apply H; [reflexivity | lia | lia].
Defined.

(** X18. Loops that step over their end pointer.  The row loop ends only when
    the pixel pointer equals the end pointer.  When the wrapped extent
    [cols * c_stride] is no multiple of [c_stride], or the first span of a
    mask ends before it starts, the pointer, stepping by [c_stride], never
    does: [minmax_float] and [masked_minmax_float], once they enter the first
    row, read on beyond it and do not return. *)
Theorem loops_step_over_end (mem : memory)
    (image rows cols r_stride c_stride : Z) (starts ends : list Z) :
  u32 (rows * r_stride) <> 0 -> 0 < c_stride ->
  (u32 (cols * c_stride) mod c_stride <> 0 ->
   minmax_float mem image rows cols r_stride c_stride = OutOfFuel)
  /\ (u32 (nth 0 ends 0 * c_stride) < u32 (nth 0 starts 0 * c_stride) ->
      masked_minmax_float mem image rows cols r_stride c_stride starts ends
      = OutOfFuel).
Proof.
  intros Hr Hc.
  assert (Hb : forall p (s : spec_float * spec_float),
             exists s', minmax_float_pixel mem p s = Done s')
    by (intros p s; eexists; reflexivity).
  split; intros H.
  - unfold minmax_float; apply scan_first_row_runaway; [exact Hb | exact Hr|].
    intros k E; apply H; rewrite <- E; apply Z.mod_mul; lia.
  - unfold masked_minmax_float.
    apply masked_scan_first_row_runaway; [exact Hb | exact Hr|].
    intros k E; nia.
Qed.

Lemma loops_step_over_end_witness :
  minmax_float (mem_of_bytes []) 0 1 1366 4 3145728 = OutOfFuel
  /\ masked_minmax_float (mem_of_bytes []) 0 1 4 16 4 [2] [1] = OutOfFuel.
Proof.
  split.
  - apply (proj1 (loops_step_over_end (mem_of_bytes []) 0 1 1366 4 3145728
                    [] [] ltac:(vm_compute; discriminate) ltac:(lia)));
      vm_compute; discriminate.
  - apply (proj2 (loops_step_over_end (mem_of_bytes []) 0 1 4 16 4 [2] [1]
                    ltac:(vm_compute; discriminate) ltac:(lia)));
      vm_compute; reflexivity.
Defined.

(** ** What the kernels read *)








(** ** The 8-bit ranged kernels over the full range *)

Lemma ptr_loop_ext {St : Type} (b1 b2 : Z -> St -> outcome St) :
  (forall p s, b1 p s = b2 p s) ->
  forall fuel p stop stride s,
    ptr_loop fuel p stop stride b1 s = ptr_loop fuel p stop stride b2 s.
Proof.
  intros H; induction fuel as [|fuel IH]; intros p stop stride s.
  - reflexivity.
  - rewrite !ptr_loop_S, H; destruct (p =? stop); [reflexivity|].
    destruct (b2 p s); cbn [bind]; auto.
Qed.

Lemma scan_ext {St : Type} (b1 b2 : Z -> St -> outcome St)
    (image rows cols r_stride c_stride : Z) (s : St) :
  (forall p s, b1 p s = b2 p s) ->
  scan image rows cols r_stride c_stride b1 s
  = scan image rows cols r_stride c_stride b2 s.
Proof.
  intros H; unfold scan; apply ptr_loop_ext.
  intros row st; apply ptr_loop_ext; exact H.
Qed.

Lemma masked_scan_ext {St : Type} (b1 b2 : Z -> St -> outcome St)
    (image rows cols r_stride c_stride : Z) (starts ends : list Z) (s : St) :
  (forall p s, b1 p s = b2 p s) ->
  masked_scan image rows cols r_stride c_stride starts ends b1 s
  = masked_scan image rows cols r_stride c_stride starts ends b2 s.
Proof.
  intros H; unfold masked_scan.
  match goal with
  | |- bind (ptr_loop _ _ _ _ ?f1 _) _ = bind (ptr_loop _ _ _ _ ?f2 _) _ =>
      rewrite (ptr_loop_ext f1 f2); [reflexivity|]
  end.
  intros row [i s0]; rewrite (ptr_loop_ext b1 b2 H); reflexivity.
Qed.

(** X20. Over the full range of 8-bit samples, [hist_min = 0] and
    [hist_max = 255], the ranged 8-bit kernels are the fixed-range ones: the
    same outcome on every image, view, mask and histogram buffer. *)
Theorem ranged_uint8_full_range_is_fixed (mem : memory)
    (image rows cols r_stride c_stride : Z) (starts ends histogram : list Z) :
  ranged_hist_uint8 mem image rows cols r_stride c_stride histogram 0 255
  = hist_uint8 mem image rows cols r_stride c_stride histogram
  /\ masked_ranged_hist_uint8 mem image rows cols r_stride c_stride starts ends
       histogram 0 255
     = masked_hist_uint8 mem image rows cols r_stride c_stride starts ends
         histogram.
Proof.
  assert (H : forall p s,
             ranged_hist_uint8_pixel mem 0 255 p s = hist_uint8_pixel mem p s).
  { intros p [h mm]; unfold ranged_hist_uint8_pixel, hist_uint8_pixel.
    pose proof (load_u8_range mem p) as Hr.
    replace (load_u8 mem p >=? 0) with true by (symmetry; apply Z.geb_le; lia).
    replace (load_u8 mem p <=? 255) with true by (symmetry; apply Z.leb_le; lia).
    cbn [andb]; rewrite Z.sub_0_r; reflexivity. }
  split.
  - unfold ranged_hist_uint8, hist_uint8; apply scan_ext; exact H.
  - unfold masked_ranged_hist_uint8, masked_hist_uint8; apply masked_scan_ext.
    exact H.
Qed.

Lemma ranged_integer_range_drop_witness :
  let mem := mem_of_bytes [10; 20; 30; 255] in
  exists h mm,
    ranged_hist_uint8 mem 0 2 2 2 1 (zeroed 11) 20 30 = Done (h, mm)
    /\ range_drop 20 30 (samples (load_u8 mem) 0 2 2 2 1) h.
Proof.
  intros mem.
  destruct (ranged_integer_range_drop mem 0 2 2 2 1 [0; 0] [2; 2] 20 30
              eq_refl eq_refl) as [H _].
  exact (proj1 (H 11%nat ltac:(simpl; lia))).
Defined.

(** ** The 8-bit ranged histogram as a window of the full one *)

Lemma ranged_uint8_window_pass (mem : memory) (hist_min hist_max : Z)
    (ps : list Z) (mm0 : Z * Z) :
  0 <= hist_min <= hist_max -> hist_max <= 255 ->
  Z.of_nat (length ps) < 2 ^ 32 ->
  let n := Z.to_nat (hist_max - hist_min + 1) in
  exists h hf mm,
    fold_m (ranged_hist_uint8_pixel mem hist_min hist_max) ps (zeroed n, mm0)
    = Done (h, mm)
    /\ fold_m (hist_uint8_pixel mem) ps (zeroed 256, mm0) = Done (hf, mm)
    /\ length h = n
    /\ forall j, (j < n)%nat -> nth j h 0 = nth (Z.to_nat hist_min + j) hf 0.
Proof.
  intros Hr Hmax Hlen n.
  destruct (routed_hist_pass_total _ (load_u8 mem)
              (ranged_route_uint8 hist_min hist_max)
              (fun v => (hist_min <=? v) && (v <=? hist_max)) n
              (ranged_hist_uint8_pixel_route mem hist_min hist_max)
              (fun p => ranged_route_uint8_total hist_min hist_max n
                          (load_u8 mem p) ltac:(unfold n; lia))
              ps mm0 Hlen) as (h & mm & E & _).
  destruct (indexed_hist_pass_bins _ _ (load_u8 mem) (fun v => v) ps
              (zeroed 256) mm0 (hist_uint8_pixel_split mem)
              (fun _ _ => eq_refl)
              ltac:(intros p _; pose proof (load_u8_range mem p);
                    rewrite zeroed_length; lia)
              (zeroed_nonneg 256) ltac:(rewrite zeroed_total; lia))
    as (hf & mmf & Ef & _ & Hf).
  pose proof (fold_m_hist_minmax _ _ _
                (ranged_hist_uint8_pixel_route mem hist_min hist_max)
                ps _ _ _ _ E) as Hmm.
  pose proof (fold_m_hist_minmax _ _ _ (hist_uint8_pixel_split mem)
                ps _ _ _ _ Ef) as Hmmf.
  destruct (routed_hist_pass_bins _ (load_u8 mem)
              (ranged_route_uint8 hist_min hist_max)
              (ranged_hist_uint8_pixel_route mem hist_min hist_max)
              ps n mm0 h mm Hlen E) as [Hl Hc].
  exists h, hf, mm; split; [exact E|]; split; [congruence|].
  split; [exact Hl|].
  intros j Hj; rewrite (Hc j Hj), Hf by (rewrite zeroed_length; unfold n in Hj; lia).
  unfold zeroed at 1; rewrite nth_repeat, Z.add_0_l.
  apply count_ext; intros v; unfold ranged_route_uint8; rewrite Z.geb_leb.
  unfold n in Hj.
  destruct (Z.leb_spec hist_min v); destruct (Z.leb_spec v hist_max);
    cbn [andb routed_to];
    [ destruct (Z.eqb_spec (v - hist_min) (Z.of_nat j));
      destruct (Z.eqb_spec v (Z.of_nat (Z.to_nat hist_min + j))); lia
    | symmetry; apply Z.eqb_neq; lia .. ].
Qed.

(** X21. The ranged 8-bit histogram is a window of the full one: with
    [0 <= hist_min <= hist_max <= 255], from zeroed buffers, bin [j] of
    [ranged_hist_uint8] equals bin [hist_min + j] of [hist_uint8] for every
    [j <= hist_max - hist_min], and the two report the same minimum and
    maximum; likewise for the masked kernels. *)
Theorem ranged_uint8_is_window (mem : memory)
    (image rows cols r_stride c_stride : Z) (starts ends : list Z)
    (hist_min hist_max : Z) :
  view_ok rows cols r_stride c_stride = true ->
  mask_ok rows cols starts ends = true ->
  0 <= hist_min <= hist_max -> hist_max <= 255 ->
  let n := Z.to_nat (hist_max - hist_min + 1) in
  (exists h hf mm,
      ranged_hist_uint8 mem image rows cols r_stride c_stride (zeroed n)
        hist_min hist_max = Done (h, mm)
      /\ hist_uint8 mem image rows cols r_stride c_stride (zeroed 256)
         = Done (hf, mm)
      /\ length h = n
      /\ forall j, (j < n)%nat -> nth j h 0 = nth (Z.to_nat hist_min + j) hf 0)
  /\ (exists h hf mm,
         masked_ranged_hist_uint8 mem image rows cols r_stride c_stride
           starts ends (zeroed n) hist_min hist_max = Done (h, mm)
         /\ masked_hist_uint8 mem image rows cols r_stride c_stride starts ends
              (zeroed 256) = Done (hf, mm)
         /\ length h = n
         /\ forall j, (j < n)%nat ->
                      nth j h 0 = nth (Z.to_nat hist_min + j) hf 0).
Proof.
  intros Hv Hm Hr Hmax n.
  pose proof (view_addresses_bound image rows cols r_stride c_stride Hv) as Ha.
  pose proof (mask_addresses_bound image rows cols r_stride c_stride Hv
                starts ends Hm) as Hma.
  split.
  - unfold ranged_hist_uint8, hist_uint8; rewrite !scan_fold by exact Hv.
    apply ranged_uint8_window_pass; assumption.
  - unfold masked_ranged_hist_uint8, masked_hist_uint8.
    rewrite !(masked_scan_fold image rows cols r_stride c_stride starts ends _
                Hv Hm).
    apply ranged_uint8_window_pass; assumption.
Qed.

Lemma ranged_uint8_is_window_witness :
  let mem := mem_of_bytes [10; 20; 30; 255] in
  exists h hf mm,
    ranged_hist_uint8 mem 0 2 2 2 1 (zeroed (Z.to_nat (30 - 20 + 1))) 20 30
    = Done (h, mm)
    /\ hist_uint8 mem 0 2 2 2 1 (zeroed 256) = Done (hf, mm)
    /\ length h = Z.to_nat (30 - 20 + 1)
    /\ forall j, (j < Z.to_nat (30 - 20 + 1))%nat ->
                 nth j h 0 = nth (Z.to_nat 20 + j) hf 0.
Proof.
  intros mem.
  apply (proj1 (ranged_uint8_is_window mem 0 2 2 2 1 [0; 0] [2; 2] 20 30
                  eq_refl eq_refl ltac:(lia) ltac:(lia))).
Defined.

(** ** The transposed view *)













(** ** Histograms of 16-bit samples at two shifts *)

Lemma count_split {A : Type} (t1 t2 : A -> bool) (l : list A) :
  (forall a, t1 a && t2 a = false) ->
  count (fun a => t1 a || t2 a) l = count t1 l + count t2 l.
Proof.
  intros H; induction l as [|a l IH]; [reflexivity|].
  rewrite !count_cons, IH; specialize (H a).
  destruct (t1 a), (t2 a); cbn [orb]; try lia; discriminate.
Qed.

(** The counts of the values of a block of consecutive integers add up to
    the count of the block. *)
Lemma count_block (l : list Z) (from len : nat) :
  fold_right Z.add 0
    (map (fun i => count (fun v => v =? Z.of_nat i) l) (seq from len))
  = count (fun v => (Z.of_nat from <=? v) && (v <? Z.of_nat (from + len))) l.
Proof.
  induction len as [|len IH].
  - cbn [seq map fold_right]; rewrite <- (count_none l); apply count_ext.
    intros v; rewrite Nat.add_0_r.
    destruct (Z.leb_spec (Z.of_nat from) v);
      destruct (Z.ltb_spec v (Z.of_nat from)); cbn [andb]; try reflexivity; lia.
  - rewrite seq_S, map_app, fold_right_app; cbn [map fold_right].
    rewrite Z.add_0_r.
    assert (Hs : forall (x : Z) (r : list Z),
               fold_right Z.add x r = fold_right Z.add 0 r + x).
    { intros x r; induction r as [|y r IHr]; cbn [fold_right]; lia. }
    rewrite Hs, IH, <- count_split.
    + apply count_ext; intros v.
      destruct (Z.leb_spec (Z.of_nat from) v);
        destruct (Z.ltb_spec v (Z.of_nat (from + len)));
        destruct (Z.ltb_spec v (Z.of_nat (from + S len)));
        destruct (Z.eqb_spec v (Z.of_nat (from + len)));
        cbn [andb orb]; try reflexivity; lia.
    + intros v.
      destruct (Z.leb_spec (Z.of_nat from) v);
        destruct (Z.ltb_spec v (Z.of_nat (from + len)));
        destruct (Z.eqb_spec v (Z.of_nat (from + len)));
        cbn [andb]; try reflexivity; lia.
Qed.

Lemma shiftr_block (v shift : Z) (j : nat) :
  0 <= v -> 0 <= shift ->
  (Z.shiftr v shift =? Z.of_nat j)
  = (Z.of_nat j * 2 ^ shift <=? v) && (v <? (Z.of_nat j + 1) * 2 ^ shift).
Proof.
  intros Hv Hs; rewrite Z.shiftr_div_pow2 by exact Hs.
  assert (Hp : 0 < 2 ^ shift) by (apply Z.pow_pos_nonneg; lia).
  pose proof (Z.div_mod v (2 ^ shift) ltac:(lia)) as Hd.
  pose proof (Z.mod_pos_bound v (2 ^ shift) Hp) as Hm.
  destruct (Z.eqb_spec (v / 2 ^ shift) (Z.of_nat j)) as [E|E];
    destruct (Z.leb_spec (Z.of_nat j * 2 ^ shift) v);
    destruct (Z.ltb_spec v ((Z.of_nat j + 1) * 2 ^ shift));
    cbn [andb]; try reflexivity; exfalso; nia.
Qed.

(** X23. The 16-bit histogram at a shift is the unshifted one with every
    [2^shift] consecutive bins merged: from zeroed buffers, bin [j] of
    [hist_uint16] called with [shift] is the sum of bins [j * 2^shift] to
    [(j + 1) * 2^shift - 1] of [hist_uint16] called with shift 0, and both
    calls report the same minimum and maximum; likewise with a mask. *)
Theorem shifted_histogram_merges_bins (mem : memory)
    (image rows cols r_stride c_stride : Z) (starts ends : list Z) (shift : Z) :
  view_ok rows cols r_stride c_stride = true ->
  mask_ok rows cols starts ends = true ->
  0 <= shift <= 16 ->
  let n := Z.to_nat (2 ^ (16 - shift)) in
  let width := Z.to_nat (2 ^ shift) in
  (exists h h0 mm,
      hist_uint16 mem image rows cols r_stride c_stride (zeroed n) shift
      = Done (h, mm)
      /\ hist_uint16 mem image rows cols r_stride c_stride
           (zeroed (Z.to_nat (2 ^ 16))) 0 = Done (h0, mm)
      /\ forall j, (j < n)%nat -> nth j h 0 = bins_sum h0 (j * width) width)
  /\ (exists h h0 mm,
         masked_hist_uint16 mem image rows cols r_stride c_stride starts ends
           (zeroed n) shift = Done (h, mm)
         /\ masked_hist_uint16 mem image rows cols r_stride c_stride starts ends
              (zeroed (Z.to_nat (2 ^ 16))) 0 = Done (h0, mm)
         /\ forall j, (j < n)%nat -> nth j h 0 = bins_sum h0 (j * width) width).
Proof.
  intros Hv Hm Hs n width.
  pose proof (view_addresses_bound image rows cols r_stride c_stride Hv) as Ha.
  pose proof (mask_addresses_bound image rows cols r_stride c_stride Hv
                starts ends Hm) as Hma.
  assert (Hpass : forall (ps : list Z) (mm0 : Z * Z),
             Z.of_nat (length ps) < 2 ^ 32 ->
             exists h h0 mm,
               fold_m (hist_uint16_pixel mem shift) ps (zeroed n, mm0)
               = Done (h, mm)
               /\ fold_m (hist_uint16_pixel mem 0) ps
                    (zeroed (Z.to_nat (2 ^ 16)), mm0) = Done (h0, mm)
               /\ forall j, (j < n)%nat ->
                            nth j h 0 = bins_sum h0 (j * width) width).
  { intros ps mm0 Hlen.
    destruct (indexed_hist_pass_bins _ _ (load_u16 mem)
                (fun v => Z.shiftr v shift) ps (zeroed n) mm0
                (hist_uint16_pixel_split mem shift) (fun _ _ => eq_refl)
                ltac:(intros p _; rewrite zeroed_length; unfold n;
                      rewrite Z2Nat.id by (apply Z.pow_nonneg; lia);
                      apply shiftr_range; [exact Hs | apply load_u16_range])
                (zeroed_nonneg n) ltac:(rewrite zeroed_total; lia))
      as (h & mm & E & Hl & Hc).
    destruct (indexed_hist_pass_bins _ _ (load_u16 mem)
                (fun v => Z.shiftr v 0) ps (zeroed (Z.to_nat (2 ^ 16))) mm0
                (hist_uint16_pixel_split mem 0) (fun _ _ => eq_refl)
                ltac:(intros p _; rewrite zeroed_length, Z2Nat.id by lia;
                      rewrite Z.shiftr_0_r; apply load_u16_range)
                (zeroed_nonneg _) ltac:(rewrite zeroed_total; lia))
      as (h0 & mm' & E0 & Hl0 & Hc0).
    pose proof (fold_m_hist_minmax _ _ _ (hist_uint16_pixel_split mem shift)
                  ps _ _ _ _ E) as Hmm.
    pose proof (fold_m_hist_minmax _ _ _ (hist_uint16_pixel_split mem 0)
                  ps _ _ _ _ E0) as Hmm0.
    exists h, h0, mm; split; [exact E|]; split; [congruence|].
    rewrite zeroed_length in Hc, Hc0.
    assert (Hw : Z.of_nat width = 2 ^ shift)
      by (unfold width; apply Z2Nat.id, Z.pow_nonneg; lia).
    assert (Hn : Z.of_nat n = 2 ^ (16 - shift))
      by (unfold n; apply Z2Nat.id, Z.pow_nonneg; lia).
    assert (Hnw : Z.of_nat n * Z.of_nat width = 2 ^ 16)
      by (rewrite Hn, Hw, <- Z.pow_add_r by lia; f_equal; lia).
    intros j Hj; rewrite (Hc j Hj).
    unfold zeroed at 1; rewrite nth_repeat, Z.add_0_l.
    unfold bins_sum.
    rewrite (map_ext_in _ (fun i => count (fun v => v =? Z.of_nat i)
                                      (map (load_u16 mem) ps))).
    - rewrite count_block, !count_map; apply count_ext; intros p.
      rewrite shiftr_block by (pose proof (load_u16_range mem p); lia).
      rewrite !Nat2Z.inj_add, !Nat2Z.inj_mul, Hw.
      f_equal; f_equal; ring.
    - intros i Hi; apply in_seq in Hi.
      rewrite Hc0 by (apply Nat2Z.inj_lt; rewrite Z2Nat.id by lia; nia).
      unfold zeroed; rewrite nth_repeat, Z.add_0_l.
      apply count_ext; intros v; rewrite Z.shiftr_0_r; reflexivity. }
  split.
  - unfold hist_uint16; rewrite !scan_fold by exact Hv.
    apply Hpass; exact Ha.
  - unfold masked_hist_uint16.
    rewrite !(masked_scan_fold image rows cols r_stride c_stride starts ends _
                Hv Hm).
    apply Hpass; exact Hma.
Qed.

Lemma shifted_histogram_merges_bins_witness :
  let mem := mem_of_bytes [10; 0; 20; 0; 30; 1; 255; 15] in
  exists h h0 mm,
    hist_uint16 mem 0 2 2 4 2 (zeroed (Z.to_nat (2 ^ (16 - 4)))) 4
    = Done (h, mm)
    /\ hist_uint16 mem 0 2 2 4 2 (zeroed (Z.to_nat (2 ^ 16))) 0 = Done (h0, mm)
    /\ forall j, (j < Z.to_nat (2 ^ (16 - 4)))%nat ->
                 nth j h 0 = bins_sum h0 (j * Z.to_nat (2 ^ 4)) (Z.to_nat (2 ^ 4)).
Proof.
  intros mem.
  apply (proj1 (shifted_histogram_merges_bins mem 0 2 2 4 2 [0; 0] [2; 2] 4
                  eq_refl eq_refl ltac:(lia))).
Defined.
